(** * typed-lines: visibility, social graph and reaction ledger

    A shallow embedding of [models.py] and of the request handlers of
    [app.py], with the relational store made explicit: every table is a
    list of rows, every handler is a function from a store to a response
    and a new store. *)

From Stdlib Require Import Ascii String.
From Stdlib Require Import List Bool Arith ZArith Lia Permutation Sorted.
Import ListNotations.

Set Implicit Arguments.

(** ** Tables of models.py *)

(** Timestamps ([datetime] values) are integers; only their order is used. *)
Definition datetime := Z.

(** Rows of [users]: the primary key, the two [unique=True] columns and
    [is_active].  The columns [first_name], [last_name], [password_hash],
    [bio], [profile_picture] and [date_joined] are never read by the code
    modelled below and are left out. *)
Module User.
Record t := mk {
  id : nat;
  username : string;
  email : string;
  is_active : bool
}.
End User.

(** Rows of [blogs] ([subtitle], [content], [cover_image] and
    [date_updated] left out). *)
Module Blog.
Record t := mk {
  id : nat;
  title : string;
  is_public : bool;
  is_featured : bool;
  date_created : datetime;
  user_id : nat
}.
End Blog.

(** Rows of [comments]. *)
Module Comment.
Record t := mk {
  id : nat;
  content : string;
  date_created : datetime;
  user_id : nat;
  blog_id : nat
}.
End Comment.

(** Rows of the association table [followers]. *)
Module Followers.
Record row := mk {
  follower_id : nat;
  followed_id : nat;
  date_followed : datetime
}.
Definition pk (r : row) : nat * nat := (follower_id r, followed_id r).
End Followers.

(** Rows of the association table [blog_likes]. *)
Module BlogLikes.
Record row := mk {
  user_id : nat;
  blog_id : nat;
  date_liked : datetime
}.
Definition pk (r : row) : nat * nat := (user_id r, blog_id r).
End BlogLikes.

(** Rows of the association table [comment_likes]. *)
Module CommentLikes.
Record row := mk {
  user_id : nat;
  comment_id : nat;
  date_liked : datetime
}.
Definition pk (r : row) : nat * nat := (user_id r, comment_id r).
End CommentLikes.

(** The store behind the global [db]: one list of rows per table. *)
Module DB.
Record t := mk {
  users : list User.t;
  blogs : list Blog.t;
  comments : list Comment.t;
  followers : list Followers.row;
  blog_likes : list BlogLikes.row;
  comment_likes : list CommentLikes.row
}.
Definition empty : t := mk [] [] [] [] [] [].
End DB.

(** ** Relationships

    A [db.relationship] through a [secondary] table is the join of the
    association rows whose near column is the owner's id with the rows of
    the far table whose id is the far column.  The association row is kept
    next to the entity: the [filter] calls of models.py test its columns. *)
Definition secondary {R E : Type} (near far : R -> nat) (key : E -> nat)
    (rows : list R) (tbl : list E) (owner : nat) : list (R * E) :=
  flat_map
    (fun r => map (pair r) (filter (fun e => key e =? far r) tbl))
    (filter (fun r => near r =? owner) rows).

(** [User.followed]: the users [self] follows. *)
Definition User_followed (db : DB.t) (self : User.t) : list (Followers.row * User.t) :=
  secondary Followers.follower_id Followers.followed_id User.id
    (DB.followers db) (DB.users db) (User.id self).

(** [User.followers] (the backref of [followed]): the users following [self]. *)
Definition User_followers (db : DB.t) (self : User.t) : list (Followers.row * User.t) :=
  secondary Followers.followed_id Followers.follower_id User.id
    (DB.followers db) (DB.users db) (User.id self).

(** [User.liked_blogs]. *)
Definition User_liked_blogs (db : DB.t) (self : User.t) : list (BlogLikes.row * Blog.t) :=
  secondary BlogLikes.user_id BlogLikes.blog_id Blog.id
    (DB.blog_likes db) (DB.blogs db) (User.id self).

(** [Blog.liked_by] (the backref of [liked_blogs]). *)
Definition Blog_liked_by (db : DB.t) (self : Blog.t) : list (BlogLikes.row * User.t) :=
  secondary BlogLikes.blog_id BlogLikes.user_id User.id
    (DB.blog_likes db) (DB.users db) (Blog.id self).

(** [User.liked_comments]. *)
Definition User_liked_comments (db : DB.t) (self : User.t) : list (CommentLikes.row * Comment.t) :=
  secondary CommentLikes.user_id CommentLikes.comment_id Comment.id
    (DB.comment_likes db) (DB.comments db) (User.id self).

(** [Comment.liked_by] (the backref of [liked_comments]). *)
Definition Comment_liked_by (db : DB.t) (self : Comment.t) : list (CommentLikes.row * User.t) :=
  secondary CommentLikes.comment_id CommentLikes.user_id User.id
    (DB.comment_likes db) (DB.users db) (Comment.id self).

(** [Blog.comments]: the comments whose [blog_id] is the blog's id. *)
Definition Blog_comments (db : DB.t) (self : Blog.t) : list Comment.t :=
  filter (fun c => Comment.blog_id c =? Blog.id self) (DB.comments db).

(** The largest integer the store takes as a statement parameter (a signed
    64-bit integer); binding a larger one raises, and the request is
    answered with 500. *)
Definition max_int : Z := (2 ^ 63 - 1)%Z.

(** [Model.query.get(id)]: the row with that primary key, if any.  The
    lookups are those of an id up to [max_int]: a larger one is never
    stored, and looking it up raises instead of finding nothing. *)
Definition User_get (db : DB.t) (i : nat) : option User.t :=
  find (fun u => User.id u =? i) (DB.users db).
Definition Blog_get (db : DB.t) (i : nat) : option Blog.t :=
  find (fun b => Blog.id b =? i) (DB.blogs db).
Definition Comment_get (db : DB.t) (i : nat) : option Comment.t :=
  find (fun c => Comment.id c =? i) (DB.comments db).

(** [Blog.author] and [Comment.blog], the many-to-one backrefs: [None] when
    the foreign key dangles. *)
Definition Blog_author (db : DB.t) (self : Blog.t) : option User.t :=
  User_get db (Blog.user_id self).
Definition Comment_blog (db : DB.t) (self : Comment.t) : option Blog.t :=
  Blog_get db (Comment.blog_id self).

(** ** Methods of User *)

Definition is_following (db : DB.t) (self user : User.t) : bool :=
  0 <? length (filter (fun re => Followers.followed_id (fst re) =? User.id user)
                      (User_followed db self)).

(** [self.followed.append(user)]: one new association row, stamped by the
    column default [datetime.utcnow]. *)
Definition followed_append (now : datetime) (self user : User.t) (db : DB.t) : DB.t :=
  DB.mk (DB.users db) (DB.blogs db) (DB.comments db)
        (DB.followers db ++ [Followers.mk (User.id self) (User.id user) now])
        (DB.blog_likes db) (DB.comment_likes db).

(** [self.followed.remove(user)]: the association rows of the pair go. *)
Definition followed_remove (self user : User.t) (db : DB.t) : DB.t :=
  DB.mk (DB.users db) (DB.blogs db) (DB.comments db)
        (filter (fun r => negb ((Followers.follower_id r =? User.id self)
                                && (Followers.followed_id r =? User.id user)))
                (DB.followers db))
        (DB.blog_likes db) (DB.comment_likes db).

Definition follow (now : datetime) (self user : User.t) (db : DB.t) : DB.t :=
  if negb (is_following db self user) then followed_append now self user db else db.

Definition unfollow (self user : User.t) (db : DB.t) : DB.t :=
  if is_following db self user then followed_remove self user db else db.

Definition has_liked_blog (db : DB.t) (self : User.t) (blog : Blog.t) : bool :=
  0 <? length (filter (fun re => BlogLikes.blog_id (fst re) =? Blog.id blog)
                      (User_liked_blogs db self)).

Definition liked_blogs_append (now : datetime) (self : User.t) (blog : Blog.t) (db : DB.t) : DB.t :=
  DB.mk (DB.users db) (DB.blogs db) (DB.comments db) (DB.followers db)
        (DB.blog_likes db ++ [BlogLikes.mk (User.id self) (Blog.id blog) now])
        (DB.comment_likes db).

Definition liked_blogs_remove (self : User.t) (blog : Blog.t) (db : DB.t) : DB.t :=
  DB.mk (DB.users db) (DB.blogs db) (DB.comments db) (DB.followers db)
        (filter (fun r => negb ((BlogLikes.user_id r =? User.id self)
                                && (BlogLikes.blog_id r =? Blog.id blog)))
                (DB.blog_likes db))
        (DB.comment_likes db).

Definition like_blog (now : datetime) (self : User.t) (blog : Blog.t) (db : DB.t) : DB.t :=
  if negb (has_liked_blog db self blog) then liked_blogs_append now self blog db else db.

Definition unlike_blog (self : User.t) (blog : Blog.t) (db : DB.t) : DB.t :=
  if has_liked_blog db self blog then liked_blogs_remove self blog db else db.

Definition has_liked_comment (db : DB.t) (self : User.t) (comment : Comment.t) : bool :=
  0 <? length (filter (fun re => CommentLikes.comment_id (fst re) =? Comment.id comment)
                      (User_liked_comments db self)).

Definition liked_comments_append (now : datetime) (self : User.t) (comment : Comment.t)
    (db : DB.t) : DB.t :=
  DB.mk (DB.users db) (DB.blogs db) (DB.comments db) (DB.followers db) (DB.blog_likes db)
        (DB.comment_likes db ++ [CommentLikes.mk (User.id self) (Comment.id comment) now]).

Definition liked_comments_remove (self : User.t) (comment : Comment.t) (db : DB.t) : DB.t :=
  DB.mk (DB.users db) (DB.blogs db) (DB.comments db) (DB.followers db) (DB.blog_likes db)
        (filter (fun r => negb ((CommentLikes.user_id r =? User.id self)
                                && (CommentLikes.comment_id r =? Comment.id comment)))
                (DB.comment_likes db)).

Definition like_comment (now : datetime) (self : User.t) (comment : Comment.t) (db : DB.t) : DB.t :=
  if negb (has_liked_comment db self comment)
  then liked_comments_append now self comment db else db.

Definition unlike_comment (self : User.t) (comment : Comment.t) (db : DB.t) : DB.t :=
  if has_liked_comment db self comment then liked_comments_remove self comment db else db.

(** ** Methods of Blog and Comment *)

(** [Blog.likes_count] and [Comment.likes_count]: a [count()] over the
    relationship, evaluated against the store at each read. *)
Definition Blog_likes_count (db : DB.t) (self : Blog.t) : nat :=
  length (Blog_liked_by db self).

Definition Comment_likes_count (db : DB.t) (self : Comment.t) : nat :=
  length (Comment_liked_by db self).

Definition Blog_comments_count (db : DB.t) (self : Blog.t) : nat :=
  length (Blog_comments db self).

(** What [current_user] (or the argument of [can_view]) can be: [None], the
    anonymous user of flask_login, or a row of [users]. *)
Inductive principal :=
| NoUser
| AnonymousUser
| LoggedIn (u : User.t).

(** [bool(user)]: only [None] is falsy. *)
Definition truthy (p : principal) : bool :=
  match p with NoUser => false | _ => true end.

(** [user.is_authenticated]: [False] on the anonymous user; on a [User] the
    [UserMixin] property, which returns [is_active]. *)
Definition is_authenticated (p : principal) : bool :=
  match p with
  | NoUser => false
  | AnonymousUser => false
  | LoggedIn u => User.is_active u
  end.

(** [Blog.can_view].  [None] is the [AttributeError] raised by
    [self.author.id] when the blog's author row is missing. *)
Definition can_view (db : DB.t) (self : Blog.t) (user : principal) : option bool :=
  if Blog.is_public self then Some true
  else if truthy user && is_authenticated user then
    match user with
    | LoggedIn u =>
        if User.id u =? Blog.user_id self then Some true
        else match Blog_author db self with
             | Some a => if is_following db u a then Some true else Some false
             | None => None
             end
    | _ => Some false
    end
  else Some false.

(** ** Queries of app.py *)

(** [order_by(col.desc())] and [list.sort(key=..., reverse=True)]: a stable
    sort, newest first.  Rows with equal keys keep their relative order
    (Python guarantees it; for the store it is the order of the table). *)
Fixpoint insert_desc {A : Type} (key : A -> datetime) (x : A) (l : list A) : list A :=
  match l with
  | [] => [x]
  | y :: l' => if (key y <=? key x)%Z then x :: l else y :: insert_desc key x l'
  end.

Definition sort_desc {A : Type} (key : A -> datetime) (l : list A) : list A :=
  fold_right (insert_desc key) [] l.

(** [limit(n)] and the slice [[:n]]. *)
Definition limit {A : Type} (n : nat) (l : list A) : list A := firstn n l.

(** [max(id) + 1], the key the store gives a new row. *)
Definition next_id (ids : list nat) : nat := S (list_max ids).

(** [User.query.filter_by(username=username).first()]. *)
Definition User_by_username (db : DB.t) (name : string) : option User.t :=
  find (fun u => String.eqb (User.username u) name) (DB.users db).

(** [UserMixin.__eq__]: two users are equal when their ids are. *)
Definition User_eqb (a b : User.t) : bool := User.id a =? User.id b.

(** [blog.author != current_user]. *)
Definition author_is_not (db : DB.t) (blog : Blog.t) (u : User.t) : bool :=
  match Blog_author db blog with
  | Some a => negb (User_eqb a u)
  | None => true
  end.

(** ** Responses *)

Inductive payload :=
| ErrorBody (error : string)
| FollowBody (status : string) (followers_count : nat)
| LikeBody (status : string) (likes_count : nat)
| CommentBody (id : nat) (content : string) (likes_count : nat)
| FormErrors
| SuccessBody (message : string)
| FailureBody (error : string).

Inductive response :=
| Json (code : nat) (body : payload)
| Redirect (endpoint : string)
| Abort (code : nat)
| RenderIndex (featured_blogs recent_blogs : list Blog.t)
| RenderBlog (blog : Blog.t) (comments : list Comment.t)
| RenderForm (template : string).

(** [@login_required]: an unauthenticated request is sent to the login
    view and the handler does not run. *)
Definition login_required (view : User.t -> DB.t -> response * DB.t)
    (current_user : principal) (db : DB.t) : response * DB.t :=
  match current_user with
  | LoggedIn u => if is_authenticated current_user then view u db
                  else (Redirect "login", db)
  | _ => (Redirect "login", db)
  end.

(** [load_user] and the [current_user] it yields for a session cookie. *)
Definition load_user (db : DB.t) (user_id : nat) : option User.t := User_get db user_id.

Definition current_user_of (db : DB.t) (session : option nat) : principal :=
  match session with
  | Some i => match load_user db i with
              | Some u => LoggedIn u
              | None => AnonymousUser
              end
  | None => AnonymousUser
  end.

(** ** The unit of work behind [db.session.delete]

    Deleting a [Comment] also deletes the [comment_likes] rows of its
    [liked_by] relationship: the unit of work loads the relationship and
    deletes, for each user it finds, the row of that user and the comment.
    A row whose user is not stored is not loaded and stays.  Deleting a
    [Blog] deletes its comments ([cascade='all, delete-orphan'] on
    [Blog.comments]), each as above, and in the same way the [blog_likes]
    rows of its own [liked_by] relationship. *)
Definition session_delete_comment (comment : Comment.t) (db : DB.t) : DB.t :=
  let liked_by := map snd (Comment_liked_by db comment) in
  DB.mk (DB.users db) (DB.blogs db)
        (filter (fun c => negb (Comment.id c =? Comment.id comment)) (DB.comments db))
        (DB.followers db) (DB.blog_likes db)
        (filter (fun r => negb ((CommentLikes.comment_id r =? Comment.id comment)
                                && existsb (fun u => User.id u =? CommentLikes.user_id r)
                                           liked_by))
                (DB.comment_likes db)).

Definition session_delete_blog (blog : Blog.t) (db : DB.t) : DB.t :=
  let db1 := fold_right session_delete_comment db (Blog_comments db blog) in
  let liked_by := map snd (Blog_liked_by db1 blog) in
  DB.mk (DB.users db1)
        (filter (fun b => negb (Blog.id b =? Blog.id blog)) (DB.blogs db1))
        (DB.comments db1) (DB.followers db1)
        (filter (fun r => negb ((BlogLikes.blog_id r =? Blog.id blog)
                                && existsb (fun u => User.id u =? BlogLikes.user_id r)
                                           liked_by))
                (DB.blog_likes db1))
        (DB.comment_likes db1).

(** ** Handlers of app.py *)

Definition Blog_eq_dec (a b : Blog.t) : {a = b} + {a <> b}.
Proof.
  decide equality; auto using Nat.eq_dec, Z.eq_dec, Bool.bool_dec, string_dec.
Defined.

Section HomeFeed.
(** [list(set(xs))]: the distinct objects of [xs], in the iteration order
    of the set, which Python leaves open. *)
Variable list_of_set : list Blog.t -> list Blog.t.

Definition index (current_user : principal) (db : DB.t) : response :=
  let featured_blogs :=
    sort_desc Blog.date_created
      (filter (fun b => Blog.is_featured b && Blog.is_public b) (DB.blogs db)) in
  let recent_blogs :=
    limit 6 (sort_desc Blog.date_created (filter Blog.is_public (DB.blogs db))) in
  if is_authenticated current_user then
    match current_user with
    | LoggedIn u =>
        let followed_users := map snd (User_followed db u) in
        let followed_ids := map User.id followed_users ++ [User.id u] in
        let follower_blogs :=
          limit 3 (sort_desc Blog.date_created
            (filter (fun b => existsb (Nat.eqb (Blog.user_id b)) followed_ids
                              && negb (Blog.is_public b))
                    (DB.blogs db))) in
        let all_blogs := list_of_set (recent_blogs ++ follower_blogs) in
        let all_blogs := sort_desc Blog.date_created all_blogs in
        RenderIndex featured_blogs (limit 6 all_blogs)
    | _ => RenderIndex featured_blogs recent_blogs
    end
  else RenderIndex featured_blogs recent_blogs.
End HomeFeed.

(** [view_blog]; [Abort 500] stands for an exception escaping the handler. *)
Definition view_blog (id : nat) (current_user : principal) (db : DB.t) : response :=
  match Blog_get db id with
  | None => Abort 404
  | Some blog =>
      match can_view db blog current_user with
      | None => Abort 500
      | Some false => Redirect "index"
      | Some true =>
          RenderBlog blog (sort_desc Comment.date_created (Blog_comments db blog))
      end
  end.

Definition delete_blog (id : nat) (current_user : User.t) (db : DB.t) : response * DB.t :=
  match Blog_get db id with
  | None => (Abort 404, db)
  | Some blog =>
      if author_is_not db blog current_user then (Redirect "view_blog", db)
      else (Redirect "profile", session_delete_blog blog db)
  end.

Definition toggle_follow (now : datetime) (username : string)
    (current_user : User.t) (db : DB.t) : response * DB.t :=
  match User_by_username db username with
  | None => (Json 404 (ErrorBody "User not found"), db)
  | Some user =>
      if User_eqb user current_user
      then (Json 400 (ErrorBody "You cannot follow yourself"), db)
      else if is_following db current_user user then
        let db' := unfollow current_user user db in
        (Json 200 (FollowBody "unfollowed" (length (User_followers db' user))), db')
      else
        let db' := follow now current_user user db in
        (Json 200 (FollowBody "followed" (length (User_followers db' user))), db')
  end.

Definition toggle_like_blog (now : datetime) (id : nat)
    (current_user : User.t) (db : DB.t) : response * DB.t :=
  match Blog_get db id with
  | None => (Abort 404, db)
  | Some blog =>
      if has_liked_blog db current_user blog then
        let db' := unlike_blog current_user blog db in
        (Json 200 (LikeBody "unliked" (Blog_likes_count db' blog)), db')
      else
        let db' := like_blog now current_user blog db in
        (Json 200 (LikeBody "liked" (Blog_likes_count db' blog)), db')
  end.

Definition toggle_like_comment (now : datetime) (id : nat)
    (current_user : User.t) (db : DB.t) : response * DB.t :=
  match Comment_get db id with
  | None => (Abort 404, db)
  | Some comment =>
      if has_liked_comment db current_user comment then
        let db' := unlike_comment current_user comment db in
        (Json 200 (LikeBody "unliked" (Comment_likes_count db' comment)), db')
      else
        let db' := like_comment now current_user comment db in
        (Json 200 (LikeBody "liked" (Comment_likes_count db' comment)), db')
  end.

(** The comment [add_comment] builds and stores. *)
Definition new_comment (now : datetime) (content : string) (author : User.t)
    (blog : Blog.t) (db : DB.t) : Comment.t :=
  Comment.mk (next_id (map Comment.id (DB.comments db))) content now
             (User.id author) (Blog.id blog).

Definition session_add_comment (c : Comment.t) (db : DB.t) : DB.t :=
  DB.mk (DB.users db) (DB.blogs db) (DB.comments db ++ [c])
        (DB.followers db) (DB.blog_likes db) (DB.comment_likes db).

(** [add_comment]; [form] is [Some content] when [validate_on_submit]
    accepts the posted form.  The [author] and [date] entries of the
    answer are display strings and are left out. *)
Definition add_comment (now : datetime) (blog_id : nat) (form : option string)
    (current_user : User.t) (db : DB.t) : response * DB.t :=
  match Blog_get db blog_id with
  | None => (Abort 404, db)
  | Some blog =>
      match form with
      | Some content =>
          let comment := new_comment now content current_user blog db in
          (Json 200 (CommentBody (Comment.id comment) (Comment.content comment) 0),
           session_add_comment comment db)
      | None => (Json 200 FormErrors, db)
      end
  end.

(** [delete_comment]; [commit_ok] tells whether the [try] block runs to its
    end; otherwise the session is rolled back. *)
Definition delete_comment (commit_ok : bool) (id : nat)
    (current_user : User.t) (db : DB.t) : response * DB.t :=
  match Comment_get db id with
  | None => (Abort 404, db)
  | Some comment =>
      if negb (User.id current_user =? Comment.user_id comment) then
        match Comment_blog db comment with
        | None => (Abort 500, db)
        | Some blog =>
            if negb (User.id current_user =? Blog.user_id blog)
            then (Json 403 (ErrorBody "Unauthorized"), db)
            else if commit_ok
            then (Json 200 (SuccessBody "Comment deleted successfully"),
                  session_delete_comment comment db)
            else (Json 500 (FailureBody "Failed to delete comment"), db)
        end
      else if commit_ok
      then (Json 200 (SuccessBody "Comment deleted successfully"),
            session_delete_comment comment db)
      else (Json 500 (FailureBody "Failed to delete comment"), db)
  end.

(** [register]; [form] is [Some (username, email)] when the posted form
    validates, with the email as the handler stores it
    ([form.email.data.lower()]).  A new row gets [is_active = True] by the
    column default; a username or an email already taken violates
    [unique=True] and the commit fails with nothing stored. *)
Definition register (form : option (string * string)) (current_user : principal) (db : DB.t)
    : response * DB.t :=
  if is_authenticated current_user then (Redirect "index", db)
  else match form with
       | Some (name, email) =>
           if existsb (fun u => String.eqb (User.username u) name
                                || String.eqb (User.email u) email) (DB.users db)
           then (Abort 500, db)
           else (Redirect "login",
                 DB.mk (DB.users db
                        ++ [User.mk (next_id (map User.id (DB.users db))) name email true])
                       (DB.blogs db) (DB.comments db) (DB.followers db)
                       (DB.blog_likes db) (DB.comment_likes db))
       | None => (RenderForm "auth/register.html", db)
       end.

(** [edit_profile], for the two modelled columns it writes; [form] is
    [Some (username, email)] when the posted form validates, with the
    email as the handler stores it.  The commit fails when another row
    has the username or the email. *)
Definition edit_profile (form : option (string * string)) (current_user : User.t) (db : DB.t)
    : response * DB.t :=
  match form with
  | Some (name, email) =>
      if existsb (fun u => (String.eqb (User.username u) name
                            || String.eqb (User.email u) email)
                           && negb (User_eqb u current_user)) (DB.users db)
      then (Abort 500, db)
      else (Redirect "profile",
            DB.mk (map (fun u => if User_eqb u current_user
                                 then User.mk (User.id u) name email (User.is_active u) else u)
                       (DB.users db))
                  (DB.blogs db) (DB.comments db) (DB.followers db)
                  (DB.blog_likes db) (DB.comment_likes db))
  | None => (RenderForm "user/edit_profile.html", db)
  end.

(** [create_blog]; [form] carries the title and the [is_public] box. *)
Definition create_blog (now : datetime) (form : option (string * bool))
    (current_user : User.t) (db : DB.t) : response * DB.t :=
  match form with
  | Some (title, is_public) =>
      let blog := Blog.mk (next_id (map Blog.id (DB.blogs db))) title is_public false now
                          (User.id current_user) in
      (Redirect "view_blog",
       DB.mk (DB.users db) (DB.blogs db ++ [blog]) (DB.comments db) (DB.followers db)
             (DB.blog_likes db) (DB.comment_likes db))
  | None => (RenderForm "blog/create.html", db)
  end.

Definition edit_blog (id : nat) (form : option (string * bool))
    (current_user : User.t) (db : DB.t) : response * DB.t :=
  match Blog_get db id with
  | None => (Abort 404, db)
  | Some blog =>
      if author_is_not db blog current_user then (Redirect "view_blog", db)
      else match form with
           | Some (title, is_public) =>
               (Redirect "view_blog",
                DB.mk (DB.users db)
                      (map (fun b => if Blog.id b =? Blog.id blog
                                     then Blog.mk (Blog.id b) title is_public (Blog.is_featured b)
                                                  (Blog.date_created b) (Blog.user_id b)
                                     else b)
                           (DB.blogs db))
                      (DB.comments db) (DB.followers db)
                      (DB.blog_likes db) (DB.comment_likes db))
           | None => (RenderForm "blog/edit.html", db)
           end
  end.

(** ** Requests and reachable stores *)

Inductive request :=
| Register (form : option (string * string))
| EditProfile (form : option (string * string))
| CreateBlog (form : option (string * bool))
| EditBlog (id : nat) (form : option (string * bool))
| DeleteBlog (id : nat)
| ToggleFollow (username : string)
| ToggleLikeBlog (id : nat)
| ToggleLikeComment (id : nat)
| AddComment (blog_id : nat) (form : option string)
| DeleteComment (commit_ok : bool) (id : nat).

(** The routing table for the requests that write to the store. *)
Definition handle (now : datetime) (req : request) (current_user : principal) (db : DB.t)
    : response * DB.t :=
  match req with
  | Register form => register form current_user db
  | EditProfile form => login_required (edit_profile form) current_user db
  | CreateBlog form => login_required (create_blog now form) current_user db
  | EditBlog id form => login_required (edit_blog id form) current_user db
  | DeleteBlog id => login_required (delete_blog id) current_user db
  | ToggleFollow username => login_required (toggle_follow now username) current_user db
  | ToggleLikeBlog id => login_required (toggle_like_blog now id) current_user db
  | ToggleLikeComment id => login_required (toggle_like_comment now id) current_user db
  | AddComment blog_id form => login_required (add_comment now blog_id form) current_user db
  | DeleteComment commit_ok id => login_required (delete_comment commit_ok id) current_user db
  end.

(** The stores the application can be in: the empty one that
    [db.create_all()] leaves, and whatever a request makes of a reachable
    store. *)
Inductive reachable : DB.t -> Prop :=
| reachable_empty : reachable DB.empty
| reachable_step (now : datetime) (req : request) (session : option nat) (db : DB.t) :
    reachable db ->
    reachable (snd (handle now req (current_user_of db session) db)).

(** ** The constraints the schema declares

    Primary keys are unique, foreign keys point at stored rows, and (a
    consequence of the guard in [toggle_follow], not of the schema) nobody
    follows themselves. *)
Record wf (db : DB.t) : Prop := {
  wf_users_pk : NoDup (map User.id (DB.users db));
  wf_blogs_pk : NoDup (map Blog.id (DB.blogs db));
  wf_comments_pk : NoDup (map Comment.id (DB.comments db));
  wf_followers_pk : NoDup (map Followers.pk (DB.followers db));
  wf_blog_likes_pk : NoDup (map BlogLikes.pk (DB.blog_likes db));
  wf_comment_likes_pk : NoDup (map CommentLikes.pk (DB.comment_likes db));
  wf_blogs_fk : forall b, In b (DB.blogs db) ->
    In (Blog.user_id b) (map User.id (DB.users db));
  wf_comments_fk : forall c, In c (DB.comments db) ->
    In (Comment.user_id c) (map User.id (DB.users db)) /\
    In (Comment.blog_id c) (map Blog.id (DB.blogs db));
  wf_followers_fk : forall r, In r (DB.followers db) ->
    In (Followers.follower_id r) (map User.id (DB.users db)) /\
    In (Followers.followed_id r) (map User.id (DB.users db));
  wf_blog_likes_fk : forall r, In r (DB.blog_likes db) ->
    In (BlogLikes.user_id r) (map User.id (DB.users db)) /\
    In (BlogLikes.blog_id r) (map Blog.id (DB.blogs db));
  wf_comment_likes_fk : forall r, In r (DB.comment_likes db) ->
    In (CommentLikes.user_id r) (map User.id (DB.users db)) /\
    In (CommentLikes.comment_id r) (map Comment.id (DB.comments db));
  wf_no_self_follow : forall r, In r (DB.followers db) ->
    Followers.follower_id r <> Followers.followed_id r
}.

(** ** The specification's vocabulary *)

(** A follow edge from user [a] to user [b] is stored. *)
Definition follow_edge (db : DB.t) (a b : nat) : bool :=
  existsb (fun r => (Followers.follower_id r =? a) && (Followers.followed_id r =? b))
          (DB.followers db).

(** The number of [(a, b)] follow edges stored. *)
Definition follow_edges (db : DB.t) (a b : nat) : nat :=
  length (filter (fun r => (Followers.follower_id r =? a) && (Followers.followed_id r =? b))
                 (DB.followers db)).

(** The follow edges of every ordered pair other than [(a, b)]. *)
Definition other_follow_edges (db : DB.t) (a b : nat) : list Followers.row :=
  filter (fun r => negb ((Followers.follower_id r =? a) && (Followers.followed_id r =? b)))
         (DB.followers db).

(** The distinct users holding a like edge to a post, to a comment. *)
Definition blog_likers (db : DB.t) (blog : Blog.t) : list nat :=
  nodup Nat.eq_dec
    (map BlogLikes.user_id
         (filter (fun r => BlogLikes.blog_id r =? Blog.id blog) (DB.blog_likes db))).

Definition comment_likers (db : DB.t) (comment : Comment.t) : list nat :=
  nodup Nat.eq_dec
    (map CommentLikes.user_id
         (filter (fun r => CommentLikes.comment_id r =? Comment.id comment)
                 (DB.comment_likes db))).

(** [likes_count] agrees with the like edges, for every post and comment. *)
Definition counts_agree (db : DB.t) : Prop :=
  (forall blog, Blog_likes_count db blog = length (blog_likers db blog)) /\
  (forall comment, Comment_likes_count db comment = length (comment_likers db comment)).

(** The private posts a viewer may see: their own and those of the users
    they follow. *)
Definition visible_private (db : DB.t) (viewer : User.t) : list Blog.t :=
  filter (fun b => negb (Blog.is_public b)
                   && ((Blog.user_id b =? User.id viewer)
                       || follow_edge db (User.id viewer) (Blog.user_id b)))
         (DB.blogs db).

(** The [recent] list as the specification words it: every public post and
    every visible private post, without repeats, newest first, cut at 6. *)
Definition recent_spec (db : DB.t) (viewer : User.t) : list Blog.t :=
  firstn 6 (sort_desc Blog.date_created
    (nodup Blog_eq_dec (filter Blog.is_public (DB.blogs db) ++ visible_private db viewer))).

(** The posts the page draws from: every public post and the 3 newest
    visible private posts. *)
Definition recent_pool (db : DB.t) (viewer : User.t) : list Blog.t :=
  filter Blog.is_public (DB.blogs db)
  ++ firstn 3 (sort_desc Blog.date_created (visible_private db viewer)).

(** [recent_spec] with the private side cut to its 3 newest posts first. *)
Definition recent_amended (db : DB.t) (viewer : User.t) : list Blog.t :=
  firstn 6 (sort_desc Blog.date_created (nodup Blog_eq_dec (recent_pool db viewer))).

(** A list of posts in which no post comes before a newer one. *)
Definition newest_first (l : list Blog.t) : Prop :=
  StronglySorted (fun a b => (Blog.date_created b <= Blog.date_created a)%Z) l.

(** The [recent_blogs] a rendered home page carries. *)
Definition recent_of (r : response) : list Blog.t :=
  match r with
  | RenderIndex _ recent_blogs => recent_blogs
  | _ => []
  end.

(** ** Sample data *)

Definition alice : User.t := User.mk 1 "alice" "alice@example.org" true.
Definition bob : User.t := User.mk 2 "bob" "bob@example.org" true.

(** The store after alice has registered. *)
Definition db_alice : DB.t := DB.mk [alice] [] [] [] [] [].

(** A short history: alice and bob register, alice writes the private post
    "P1", bob follows alice and likes the post, alice comments on it and
    bob likes the comment. *)
Definition history : list (datetime * request * option nat) :=
  [ (1%Z, Register (Some ("alice", "alice@example.org")), None);
    (2%Z, Register (Some ("bob", "bob@example.org")), None);
    (3%Z, CreateBlog (Some ("P1", false)), Some 1);
    (4%Z, ToggleFollow "alice", Some 2);
    (5%Z, ToggleLikeBlog 1, Some 2);
    (6%Z, AddComment 1 (Some "first"), Some 1);
    (7%Z, ToggleLikeComment 1, Some 2) ]%string.

Definition run (db : DB.t) (h : list (datetime * request * option nat)) : DB.t :=
  fold_left (fun db '(now, req, session) =>
               snd (handle now req (current_user_of db session) db)) h db.

Definition sample_db : DB.t := Eval vm_compute in run DB.empty history.

Definition p1 : Blog.t := Blog.mk 1 "P1" false false 3%Z 1.
Definition c1 : Comment.t := Comment.mk 1 "first" 6%Z 1 1.

(** Alice registers and writes four private posts. *)
Definition history_four : list (datetime * request * option nat) :=
  [ (0%Z, Register (Some ("alice", "alice@example.org")), None);
    (1%Z, CreateBlog (Some ("a", false)), Some 1);
    (2%Z, CreateBlog (Some ("b", false)), Some 1);
    (3%Z, CreateBlog (Some ("c", false)), Some 1);
    (4%Z, CreateBlog (Some ("d", false)), Some 1) ]%string.

Definition db_four_private : DB.t := Eval vm_compute in run DB.empty history_four.

(** The [n]-th of these posts. *)
Definition four_private (n : nat) (title : string) : Blog.t :=
  Blog.mk n title false false (Z.of_nat n) 1.

(** ** Read-only views of app.py *)

(** [User.blogs]: the posts whose [user_id] is the user's id. *)
Definition User_blogs (db : DB.t) (self : User.t) : list Blog.t :=
  filter (fun b => Blog.user_id b =? User.id self) (DB.blogs db).

(** What the views below hand to their templates. *)
Inductive page :=
| PageAbort (code : nat)
| PageRedirect (endpoint : string)
| ProfilePage (user : User.t) (blogs : list Blog.t)
| DashboardPage (blogs : list Blog.t)
| ExplorePage (number : Z) (items : list Blog.t).

(** [profile]: every post of the profile's owner for the owner and for a
    follower, the public ones for everybody else. *)
Definition profile (username : string) (current_user : principal) (db : DB.t) : page :=
  match User_by_username db username with
  | None => PageAbort 404
  | Some user =>
      let full :=
        is_authenticated current_user
        && match current_user with
           | LoggedIn u => (User.id u =? User.id user) || is_following db u user
           | _ => false
           end in
      if full
      then ProfilePage user (sort_desc Blog.date_created (User_blogs db user))
      else ProfilePage user
             (sort_desc Blog.date_created (filter Blog.is_public (User_blogs db user)))
  end.

(** [dashboard], behind [@login_required]. *)
Definition dashboard (current_user : principal) (db : DB.t) : page :=
  match current_user with
  | LoggedIn u =>
      if is_authenticated current_user
      then DashboardPage (sort_desc Blog.date_created (User_blogs db u))
      else PageRedirect "login"
  | _ => PageRedirect "login"
  end.

(** [query.paginate(page, per_page, error_out=False)] of Flask-SQLAlchemy:
    a page number below 1 counts as 1, a page size below 1 as 20, and the
    page is the slice [limit(per_page).offset((page - 1) * per_page)]; a
    page past the end is empty, not an error.  The limit and the offset are
    parameters of the statement: [None] when one of them exceeds
    [max_int] and the query raises. *)
Definition paginate {A : Type} (number : Z) (per_page : nat) (query : list A)
    : option (Z * list A) :=
  let number := if (number <? 1)%Z then 1%Z else number in
  let per_page := if per_page <? 1 then 20 else per_page in
  let offset := ((number - 1) * Z.of_nat per_page)%Z in
  if (max_int <? Z.of_nat per_page)%Z || (max_int <? offset)%Z
  then None
  else Some (number, firstn per_page (skipn (Z.to_nat offset) query)).

Section Explore.
(** [app.config['POSTS_PER_PAGE']], set in config.py. *)
Variable POSTS_PER_PAGE : nat.

(** [explore]; [arg] is the [page] query argument when it is present and
    reads as an integer, and 1 is used otherwise. *)
Definition explore (arg : option Z) (db : DB.t) : page :=
  let number := match arg with Some n => n | None => 1%Z end in
  match paginate number POSTS_PER_PAGE
          (sort_desc Blog.date_created (filter Blog.is_public (DB.blogs db))) with
  | Some (number, items) => ExplorePage number items
  | None => PageAbort 500
  end.
End Explore.

(** Alice registers and publishes five posts, one a day. *)
Definition history_public : list (datetime * request * option nat) :=
  [ (0%Z, Register (Some ("alice", "alice@example.org")), None);
    (1%Z, CreateBlog (Some ("a", true)), Some 1);
    (2%Z, CreateBlog (Some ("b", true)), Some 1);
    (3%Z, CreateBlog (Some ("c", true)), Some 1);
    (4%Z, CreateBlog (Some ("d", true)), Some 1);
    (5%Z, CreateBlog (Some ("e", true)), Some 1) ]%string.

Definition db_five_public : DB.t := Eval vm_compute in run DB.empty history_public.

(** The [n]-th of these posts. *)
Definition five_public (n : nat) (title : string) : Blog.t :=
  Blog.mk n title true false (Z.of_nat n) 1.

(** The posts a page lists. *)
Definition page_blogs (p : page) : list Blog.t :=
  match p with
  | ProfilePage _ blogs => blogs
  | DashboardPage blogs => blogs
  | ExplorePage _ items => items
  | _ => []
  end.

(** The [featured_blogs] a rendered home page carries. *)
Definition featured_of (r : response) : list Blog.t :=
  match r with
  | RenderIndex featured_blogs _ => featured_blogs
  | _ => []
  end.

(** [user.followers.count()], the figure [toggle_follow] reports. *)
Definition followers_count (db : DB.t) (user : User.t) : nat :=
  length (User_followers db user).

(** The stored users carry pairwise distinct usernames. *)
Definition usernames_unique (db : DB.t) : Prop :=
  NoDup (map User.username (DB.users db)).

(** ** Upload names *)

(** [filename.rsplit('.', 1)[1]]: the text after the last dot, [None] when
    the name has no dot (the [in] test of [allowed_file] then stops the
    evaluation). *)
Fixpoint after_last_dot (filename : string) : option string :=
  match filename with
  | EmptyString => None
  | String c rest =>
      match after_last_dot rest with
      | Some ext => Some ext
      | None => if Ascii.eqb c "."%char then Some rest else None
      end
  end.

(** ['.' in filename]. *)
Fixpoint has_dot (filename : string) : bool :=
  match filename with
  | EmptyString => false
  | String c rest => Ascii.eqb c "."%char || has_dot rest
  end.

Section Uploads.
(** [str.lower] and [app.config['ALLOWED_EXTENSIONS']] (set in config.py). *)
Variable lower : string -> string.
Variable ALLOWED_EXTENSIONS : list string.

Definition allowed_file (filename : string) : bool :=
  has_dot filename
  && match after_last_dot filename with
     | Some ext => existsb (String.eqb (lower ext)) ALLOWED_EXTENSIONS
     | None => false
     end.
End Uploads.

(** The sample store with two like rows put in by hand whose users, 99 and
    98, are not stored. *)
Definition db_dangling : DB.t :=
  DB.mk (DB.users sample_db) (DB.blogs sample_db) (DB.comments sample_db)
        (DB.followers sample_db)
        (DB.blog_likes sample_db ++ [BlogLikes.mk 99 1 8%Z])
        (DB.comment_likes sample_db ++ [CommentLikes.mk 98 1 8%Z]).

(** * Properties *)

(** ** Lists *)

Lemma pos_length_filter {A : Type} (p : A -> bool) (l : list A) :
  (0 <? length (filter p l)) = existsb p l.
Proof.
  induction l as [|x l IH]; simpl; [reflexivity|].
  destruct (p x); simpl; [reflexivity | exact IH].
Qed.

Lemma filter_true_id {A : Type} (p : A -> bool) (l : list A) :
  (forall x, In x l -> p x = true) -> filter p l = l.
Proof.
  induction l as [|x l IH]; simpl; intros H; [reflexivity|].
  rewrite (H x (or_introl eq_refl)). f_equal. apply IH. intros y Hy. apply H. now right.
Qed.

Lemma filter_false_nil {A : Type} (p : A -> bool) (l : list A) :
  (forall x, In x l -> p x = false) -> filter p l = [].
Proof.
  induction l as [|x l IH]; simpl; intros H; [reflexivity|].
  rewrite (H x (or_introl eq_refl)). apply IH. intros y Hy. apply H. now right.
Qed.

Lemma existsb_false_iff {A : Type} (p : A -> bool) (l : list A) :
  existsb p l = false <-> forall x, In x l -> p x = false.
Proof.
  split.
  - intros H x Hx. destruct (p x) eqn:E; [|reflexivity].
    rewrite <- H. symmetry. apply existsb_exists. now exists x.
  - intros H. destruct (existsb p l) eqn:E; [|reflexivity].
    apply existsb_exists in E. destruct E as [x [Hx Hp]]. rewrite (H x Hx) in Hp. discriminate.
Qed.

Lemma NoDup_map_filter {A K : Type} (key : A -> K) (keep : A -> bool) (rows : list A) :
  NoDup (map key rows) -> NoDup (map key (filter keep rows)).
Proof.
  induction rows as [|x rows IH]; simpl; intros H; [constructor|].
  inversion H as [|? ? Hnin Hnd]; subst.
  destruct (keep x); simpl; [constructor|]; auto.
  intros Hin. apply Hnin. apply in_map_iff in Hin. destruct Hin as [y [Hy Hin]].
  apply filter_In in Hin. apply in_map_iff. exists y. tauto.
Qed.

Lemma NoDup_map_snoc {A B : Type} (f : A -> B) (l : list A) (x : A) :
  NoDup (map f l) -> ~ In (f x) (map f l) -> NoDup (map f (l ++ [x])).
Proof.
  intros Hnd Hnin. rewrite map_app. simpl.
  apply NoDup_rev in Hnd.
  rewrite <- (rev_involutive (map f l ++ [f x])). apply NoDup_rev.
  rewrite rev_app_distr. simpl. constructor; [|exact Hnd].
  rewrite <- in_rev. exact Hnin.
Qed.

Lemma NoDup_map_inj_in {A B : Type} (f : A -> B) (l : list A) (x y : A) :
  NoDup (map f l) -> In x l -> In y l -> f x = f y -> x = y.
Proof.
  induction l as [|a l IH]; simpl; intros Hnd Hx Hy Hf; [contradiction|].
  inversion Hnd as [|? ? Hnin Hnd']; subst.
  destruct Hx as [Hx|Hx], Hy as [Hy|Hy]; subst; auto.
  - exfalso. apply Hnin. rewrite Hf. now apply in_map.
  - exfalso. apply Hnin. rewrite <- Hf. now apply in_map.
Qed.

(** A key that occurs in a table with unique keys selects one row. *)
Lemma unique_key_count {E : Type} (key : E -> nat) (tbl : list E) (k : nat) :
  NoDup (map key tbl) -> In k (map key tbl) ->
  length (filter (fun e => key e =? k) tbl) = 1.
Proof.
  induction tbl as [|e tbl IH]; simpl; intros Hnd Hin; [contradiction|].
  inversion Hnd as [|? ? Hnin Hnd']; subst.
  destruct (Nat.eqb_spec (key e) k) as [Hk|Hk].
  - subst k. simpl. f_equal.
    rewrite filter_false_nil; [reflexivity|].
    intros x Hx. apply Nat.eqb_neq. intros Hk. apply Hnin. rewrite <- Hk. now apply in_map.
  - destruct Hin as [Hin|Hin]; [contradiction|]. now apply IH.
Qed.

Lemma next_id_fresh (ids : list nat) : ~ In (next_id ids) ids.
Proof.
  intros Hin. unfold next_id in Hin.
  assert (H : Forall (fun k => k <= list_max ids) ids) by (apply list_max_le; lia).
  rewrite Forall_forall in H. specialize (H _ Hin). lia.
Qed.

Lemma find_snoc_none {A : Type} (p : A -> bool) (l : list A) (x : A) :
  find p l = None -> find p (l ++ [x]) = if p x then Some x else None.
Proof.
  induction l as [|y l IH]; simpl; [reflexivity|].
  destruct (p y); [discriminate | exact IH].
Qed.

Lemma find_key_some {E : Type} (key : E -> nat) (tbl : list E) (k : nat) (e : E) :
  find (fun x => key x =? k) tbl = Some e -> In e tbl /\ key e = k.
Proof.
  intros H. apply find_some in H. destruct H as [H1 H2]. apply Nat.eqb_eq in H2. tauto.
Qed.

Lemma find_key_in {E : Type} (key : E -> nat) (tbl : list E) (k : nat) :
  In k (map key tbl) -> exists e, find (fun x => key x =? k) tbl = Some e.
Proof.
  intros Hin. apply in_map_iff in Hin. destruct Hin as [e [He Hin]].
  destruct (find (fun x => key x =? k) tbl) eqn:F; [eauto|].
  exfalso. apply (find_none _ _ F) in Hin. apply Nat.eqb_neq in Hin. contradiction.
Qed.

Lemma find_key_none {E : Type} (key : E -> nat) (tbl : list E) (k : nat) :
  ~ In k (map key tbl) -> find (fun x => key x =? k) tbl = None.
Proof.
  intros Hnin. destruct (find (fun x => key x =? k) tbl) eqn:F; [|reflexivity].
  apply find_key_some in F. destruct F as [F1 F2]. exfalso. apply Hnin. subst k. now apply in_map.
Qed.

(** ** Relationships as joins *)

Section Secondary.
Context {R E : Type} (near far : R -> nat) (key : E -> nat).

Lemma in_secondary (rows : list R) (tbl : list E) (owner : nat) (r : R) (e : E) :
  In (r, e) (secondary near far key rows tbl owner) <->
  In r rows /\ near r = owner /\ In e tbl /\ key e = far r.
Proof.
  unfold secondary. rewrite in_flat_map. split.
  - intros [r' [Hr He]]. apply filter_In in Hr. destruct Hr as [Hr Hn].
    apply in_map_iff in He. destruct He as [e' [Heq He]]. inversion Heq; subst.
    apply filter_In in He. destruct He as [He Hk].
    apply Nat.eqb_eq in Hn, Hk. tauto.
  - intros [Hr [Hn [He Hk]]]. exists r. split.
    + apply filter_In. split; [exact Hr|]. now apply Nat.eqb_eq.
    + apply in_map. apply filter_In. split; [exact He|]. now apply Nat.eqb_eq.
Qed.

(** The membership tests of models.py: with the target stored, the test on
    the join is the test on the association table. *)
Lemma secondary_member (rows : list R) (tbl : list E) (owner target : nat) :
  In target (map key tbl) ->
  (0 <? length (filter (fun re => far (fst re) =? target)
                       (secondary near far key rows tbl owner)))
  = existsb (fun r => (near r =? owner) && (far r =? target)) rows.
Proof.
  intros Hin. rewrite pos_length_filter. apply Bool.eq_iff_eq_true.
  rewrite !existsb_exists. split.
  - intros [[r e] [Hre Hf]]. simpl in Hf. apply in_secondary in Hre.
    exists r. split; [tauto|]. apply andb_true_iff. split; [|exact Hf].
    apply Nat.eqb_eq. tauto.
  - intros [r [Hr Hm]]. apply andb_true_iff in Hm. destruct Hm as [Hn Hf].
    apply in_map_iff in Hin. destruct Hin as [e [Hk He]].
    exists (r, e). split; [|exact Hf].
    apply in_secondary. apply Nat.eqb_eq in Hn, Hf. repeat split; auto. congruence.
Qed.

(** With unique keys in the far table and no dangling far column, the join
    has one entry per association row of the owner. *)
Lemma secondary_length (rows : list R) (tbl : list E) (owner : nat) :
  NoDup (map key tbl) ->
  (forall r, In r rows -> In (far r) (map key tbl)) ->
  length (secondary near far key rows tbl owner)
  = length (filter (fun r => near r =? owner) rows).
Proof.
  intros Hnd Hfk. unfold secondary.
  induction rows as [|r rows IH]; simpl; [reflexivity|].
  assert (IH' := IH (fun x Hx => Hfk x (or_intror Hx))).
  destruct (near r =? owner); simpl; [|exact IH'].
  rewrite length_app, length_map, IH'.
  rewrite unique_key_count; auto. apply Hfk. now left.
Qed.

Lemma secondary_nil_rows (rows : list R) (tbl : list E) (owner : nat) :
  (forall r, In r rows -> near r <> owner) ->
  secondary near far key rows tbl owner = [].
Proof.
  intros H. unfold secondary. rewrite filter_false_nil; [reflexivity|].
  intros r Hr. apply Nat.eqb_neq. now apply H.
Qed.

(** An association row of the owner whose far column is stored is loaded
    through the relationship. *)
Lemma secondary_loaded (rows : list R) (tbl : list E) (owner : nat) (r : R) :
  In r rows -> near r = owner -> In (far r) (map key tbl) ->
  existsb (fun e => key e =? far r) (map snd (secondary near far key rows tbl owner)) = true.
Proof.
  intros Hr Hn Hfar. apply in_map_iff in Hfar. destruct Hfar as [e [Hk He]].
  apply existsb_exists. exists e. split; [|now apply Nat.eqb_eq].
  apply in_map_iff. exists (r, e). split; [reflexivity|].
  apply in_secondary. auto.
Qed.

(** A row whose far column dangles is not. *)
Lemma secondary_not_loaded (rows : list R) (tbl : list E) (owner : nat) (r : R) :
  ~ In (far r) (map key tbl) ->
  existsb (fun e => key e =? far r) (map snd (secondary near far key rows tbl owner)) = false.
Proof.
  intros Hfar. apply not_true_iff_false. intros Hex. apply Hfar.
  apply existsb_exists in Hex. destruct Hex as [e [He Hk]]. apply Nat.eqb_eq in Hk.
  apply in_map_iff in He. destruct He as [[r' e'] [Heq Hre]]. simpl in Heq. subst e'.
  apply in_secondary in Hre. rewrite <- Hk. apply in_map. tauto.
Qed.

(** So where no far column dangles, deleting the loaded rows of an owner
    deletes all its rows. *)
Lemma delete_loaded_rows (rows : list R) (tbl : list E) (owner : nat) :
  (forall r, In r rows -> In (far r) (map key tbl)) ->
  filter (fun r => negb ((near r =? owner)
                         && existsb (fun e => key e =? far r)
                                    (map snd (secondary near far key rows tbl owner)))) rows
  = filter (fun r => negb (near r =? owner)) rows.
Proof.
  intros Hfk. apply filter_ext_in. intros r Hr.
  destruct (Nat.eqb_spec (near r) owner) as [Hn|Hn]; [|reflexivity].
  rewrite (@secondary_loaded rows tbl owner r Hr Hn (Hfk r Hr)). reflexivity.
Qed.

End Secondary.

(** Tables keyed by a pair of columns. *)
Section PairKey.
Context {R : Type} (c1 c2 : R -> nat).

Let hit (a b : nat) (r : R) : bool := (c1 r =? a) && (c2 r =? b).

Lemma pair_in_iff (rows : list R) (a b : nat) :
  In (a, b) (map (fun r => (c1 r, c2 r)) rows) <-> existsb (hit a b) rows = true.
Proof.
  rewrite in_map_iff, existsb_exists. unfold hit.
  split; intros [r H]; exists r.
  - destruct H as [H1 H2]. inversion H1; subst. now rewrite !Nat.eqb_refl.
  - destruct H as [H1 H2]. apply andb_true_iff in H2. destruct H2 as [Ha Hb].
    apply Nat.eqb_eq in Ha, Hb. subst. tauto.
Qed.

Lemma pair_count_le (rows : list R) (a b : nat) :
  NoDup (map (fun r => (c1 r, c2 r)) rows) ->
  length (filter (hit a b) rows) <= 1.
Proof.
  induction rows as [|r rows IH]; simpl; intros Hnd; [lia|].
  inversion Hnd as [|? ? Hnin Hnd']; subst.
  destruct (hit a b r) eqn:Hr; simpl; [|now apply IH].
  unfold hit in Hr. apply andb_true_iff in Hr. destruct Hr as [Ha Hb].
  apply Nat.eqb_eq in Ha, Hb. subst a b.
  rewrite filter_false_nil; [simpl; lia|].
  intros x Hx. destruct (hit (c1 r) (c2 r) x) eqn:Hh; [|reflexivity].
  exfalso. apply Hnin. apply pair_in_iff. apply existsb_exists. now exists x.
Qed.

Lemma pair_count_one (rows : list R) (a b : nat) :
  NoDup (map (fun r => (c1 r, c2 r)) rows) ->
  existsb (hit a b) rows = true ->
  length (filter (hit a b) rows) = 1.
Proof.
  intros Hnd Hex. pose proof (pair_count_le rows a b Hnd) as Hle.
  rewrite <- pos_length_filter in Hex. apply Nat.ltb_lt in Hex. lia.
Qed.

Lemma pair_count_zero (rows : list R) (a b : nat) :
  existsb (hit a b) rows = false -> length (filter (hit a b) rows) = 0.
Proof.
  intros Hex. rewrite <- pos_length_filter in Hex. apply Nat.ltb_ge in Hex. lia.
Qed.

End PairKey.

(** ** Social graph *)

(** [is_following] on a stored target is the existence of the edge. *)
Lemma is_following_edge (db : DB.t) (self user : User.t) :
  In (User.id user) (map User.id (DB.users db)) ->
  is_following db self user = follow_edge db (User.id self) (User.id user).
Proof.
  intros Hin. unfold is_following, User_followed, follow_edge.
  now apply secondary_member.
Qed.

Lemma follow_users (now : datetime) (a b : User.t) (db : DB.t) :
  DB.users (follow now a b db) = DB.users db.
Proof. unfold follow. now destruct (negb (is_following db a b)). Qed.

Lemma unfollow_users (a b : User.t) (db : DB.t) :
  DB.users (unfollow a b db) = DB.users db.
Proof. unfold unfollow. now destruct (is_following db a b). Qed.

Lemma follow_edge_after_follow (now : datetime) (a b : User.t) (db : DB.t) :
  In (User.id b) (map User.id (DB.users db)) ->
  follow_edge (follow now a b db) (User.id a) (User.id b) = true.
Proof.
  intros Hb. unfold follow. destruct (is_following db a b) eqn:F; simpl.
  - now rewrite <- is_following_edge.
  - unfold follow_edge. simpl. rewrite existsb_app. simpl.
    rewrite !Nat.eqb_refl. simpl. apply orb_true_r.
Qed.

(** ** Visibility *)

(** C1.  For every post [p] and viewer [v], [can_view] answers by the
    first rule that applies: a public post is visible to everyone; a
    private one is hidden from an absent or unauthenticated viewer,
    visible to its author, visible to a viewer with a follow edge to the
    post's author, and hidden from everybody else. *)
Theorem can_view_rules (db : DB.t) (p : Blog.t) (v : principal) :
  (Blog.is_public p = true -> can_view db p v = Some true) /\
  (Blog.is_public p = false -> truthy v && is_authenticated v = false ->
     can_view db p v = Some false) /\
  (forall u, Blog.is_public p = false -> v = LoggedIn u -> is_authenticated v = true ->
     User.id u = Blog.user_id p -> can_view db p v = Some true) /\
  (forall u a, Blog.is_public p = false -> v = LoggedIn u -> is_authenticated v = true ->
     User.id u <> Blog.user_id p -> Blog_author db p = Some a ->
     follow_edge db (User.id u) (User.id a) = true ->
     can_view db p v = Some true) /\
  (forall u a, Blog.is_public p = false -> v = LoggedIn u -> is_authenticated v = true ->
     User.id u <> Blog.user_id p -> Blog_author db p = Some a ->
     follow_edge db (User.id u) (User.id a) = false ->
     can_view db p v = Some false).
Proof.
  unfold can_view.
  assert (Hin : forall a, Blog_author db p = Some a ->
                In (User.id a) (map User.id (DB.users db))).
  { intros a Ha. unfold Blog_author, User_get in Ha. apply find_key_some in Ha.
    apply in_map. tauto. }
  repeat split.
  - intros ->. reflexivity.
  - intros -> ->. reflexivity.
  - intros u -> -> Hauth Hid. rewrite Hauth. simpl.
    apply Nat.eqb_eq in Hid. now rewrite Hid.
  - intros u a -> -> Hauth Hid Ha Hf. rewrite Hauth, Ha. simpl.
    apply Nat.eqb_neq in Hid. rewrite Hid.
    now rewrite is_following_edge, Hf by now apply Hin.
  - intros u a -> -> Hauth Hid Ha Hf. rewrite Hauth, Ha. simpl.
    apply Nat.eqb_neq in Hid. rewrite Hid.
    now rewrite is_following_edge, Hf by now apply Hin.
Qed.

(** ** Following *)

(** C4.  With [b] a stored user and the primary key of [followers]
    respected, [follow a b] makes [is_following a b] true, a second
    [follow a b] changes nothing, exactly one [(a, b)] edge is stored and
    the primary key is still respected. *)
Theorem follow_once (now now' : datetime) (a b : User.t) (db : DB.t) :
  In (User.id b) (map User.id (DB.users db)) ->
  NoDup (map Followers.pk (DB.followers db)) ->
  let db1 := follow now a b db in
  is_following db1 a b = true /\
  follow now' a b db1 = db1 /\
  follow_edges db1 (User.id a) (User.id b) = 1 /\
  NoDup (map Followers.pk (DB.followers db1)).
Proof.
  intros Hb Hpk db1.
  assert (Hfol : is_following db1 a b = true).
  { rewrite is_following_edge.
    - now apply follow_edge_after_follow.
    - unfold db1. now rewrite follow_users. }
  split; [exact Hfol|]. split.
  { unfold follow at 1. now rewrite Hfol. }
  unfold db1, follow. destruct (is_following db a b) eqn:F; simpl.
  - split; [|exact Hpk]. rewrite is_following_edge in F by exact Hb.
    now apply (pair_count_one Followers.follower_id Followers.followed_id).
  - rewrite is_following_edge in F by exact Hb. split.
    + unfold follow_edges. simpl. rewrite filter_app, length_app. simpl.
      rewrite !Nat.eqb_refl. simpl.
      rewrite (pair_count_zero Followers.follower_id Followers.followed_id); auto.
    + apply NoDup_map_snoc; [exact Hpk|]. unfold Followers.pk at 1. simpl.
      intros Hin.
      apply (pair_in_iff Followers.follower_id Followers.followed_id) in Hin.
      unfold follow_edge in F. congruence.
Qed.

(** C10.  [toggle_follow] answers 404 or 400 without touching the store
    when the target is unknown or is the caller; otherwise it leaves every
    table but [followers] as it was, and in [followers] every row of every
    ordered pair other than (caller, target). *)
Theorem toggle_follow_frame (now : datetime) (username : string)
    (current_user : User.t) (db : DB.t) :
  match User_by_username db username with
  | None =>
      toggle_follow now username current_user db
      = (Json 404 (ErrorBody "User not found"), db)
  | Some user =>
      if User_eqb user current_user then
        toggle_follow now username current_user db
        = (Json 400 (ErrorBody "You cannot follow yourself"), db)
      else
        let db' := snd (toggle_follow now username current_user db) in
        DB.users db' = DB.users db /\
        DB.blogs db' = DB.blogs db /\
        DB.comments db' = DB.comments db /\
        DB.blog_likes db' = DB.blog_likes db /\
        DB.comment_likes db' = DB.comment_likes db /\
        other_follow_edges db' (User.id current_user) (User.id user)
        = other_follow_edges db (User.id current_user) (User.id user)
  end.
Proof.
  unfold toggle_follow. destruct (User_by_username db username) as [user|]; [|reflexivity].
  destruct (User_eqb user current_user); [reflexivity|].
  destruct (is_following db current_user user) eqn:F; simpl.
  - unfold unfollow. rewrite F. simpl. repeat split.
    unfold other_follow_edges. simpl.
    induction (DB.followers db) as [|r l IH]; simpl; [reflexivity|].
    destruct ((Followers.follower_id r =? User.id current_user)
              && (Followers.followed_id r =? User.id user)) eqn:H; simpl.
    + exact IH.
    + rewrite H. simpl. now rewrite IH.
  - unfold follow. rewrite F. simpl. repeat split.
    unfold other_follow_edges. simpl. rewrite filter_app. simpl.
    rewrite !Nat.eqb_refl. simpl. apply app_nil_r.
Qed.

(** ** The schema constraints are kept by every write *)

Ltac wf_keep H :=
  first [ exact (wf_users_pk H) | exact (wf_blogs_pk H) | exact (wf_comments_pk H)
        | exact (wf_followers_pk H) | exact (wf_blog_likes_pk H)
        | exact (wf_comment_likes_pk H) | exact (wf_blogs_fk H)
        | exact (wf_comments_fk H) | exact (wf_followers_fk H)
        | exact (wf_blog_likes_fk H) | exact (wf_comment_likes_fk H)
        | exact (wf_no_self_follow H) ].

Lemma wf_empty : wf DB.empty.
Proof. constructor; simpl; try constructor; intros; contradiction. Qed.

Lemma wf_followed_append (now : datetime) (a b : User.t) (db : DB.t) :
  wf db ->
  In (User.id a) (map User.id (DB.users db)) ->
  In (User.id b) (map User.id (DB.users db)) ->
  User.id a <> User.id b ->
  follow_edge db (User.id a) (User.id b) = false ->
  wf (followed_append now a b db).
Proof.
  intros H Ha Hb Hab He. constructor; simpl; try wf_keep H.
  - apply NoDup_map_snoc; [wf_keep H|]. unfold Followers.pk at 1. simpl. intros Hin.
    apply (pair_in_iff Followers.follower_id Followers.followed_id) in Hin.
    unfold follow_edge in He. congruence.
  - intros r Hr. apply in_app_iff in Hr. destruct Hr as [Hr|[<-|[]]]; simpl; auto.
    now apply (wf_followers_fk H).
  - intros r Hr. apply in_app_iff in Hr. destruct Hr as [Hr|[<-|[]]]; simpl; auto.
    now apply (wf_no_self_follow H).
Qed.

Lemma wf_followed_remove (a b : User.t) (db : DB.t) :
  wf db -> wf (followed_remove a b db).
Proof.
  intros H. constructor; simpl; try wf_keep H.
  - apply NoDup_map_filter. wf_keep H.
  - intros r Hr. apply filter_In in Hr. now apply (wf_followers_fk H).
  - intros r Hr. apply filter_In in Hr. now apply (wf_no_self_follow H).
Qed.

Lemma wf_liked_blogs_append (now : datetime) (u : User.t) (blog : Blog.t) (db : DB.t) :
  wf db ->
  In (User.id u) (map User.id (DB.users db)) ->
  In (Blog.id blog) (map Blog.id (DB.blogs db)) ->
  existsb (fun r => (BlogLikes.user_id r =? User.id u) && (BlogLikes.blog_id r =? Blog.id blog))
          (DB.blog_likes db) = false ->
  wf (liked_blogs_append now u blog db).
Proof.
  intros H Hu Hb He. constructor; simpl; try wf_keep H.
  - apply NoDup_map_snoc; [wf_keep H|]. unfold BlogLikes.pk at 1. simpl. intros Hin.
    apply (pair_in_iff BlogLikes.user_id BlogLikes.blog_id) in Hin. congruence.
  - intros r Hr. apply in_app_iff in Hr. destruct Hr as [Hr|[<-|[]]]; simpl; auto.
    now apply (wf_blog_likes_fk H).
Qed.

Lemma wf_liked_blogs_remove (u : User.t) (blog : Blog.t) (db : DB.t) :
  wf db -> wf (liked_blogs_remove u blog db).
Proof.
  intros H. constructor; simpl; try wf_keep H.
  - apply NoDup_map_filter. wf_keep H.
  - intros r Hr. apply filter_In in Hr. now apply (wf_blog_likes_fk H).
Qed.

Lemma wf_liked_comments_append (now : datetime) (u : User.t) (c : Comment.t) (db : DB.t) :
  wf db ->
  In (User.id u) (map User.id (DB.users db)) ->
  In (Comment.id c) (map Comment.id (DB.comments db)) ->
  existsb (fun r => (CommentLikes.user_id r =? User.id u)
                    && (CommentLikes.comment_id r =? Comment.id c))
          (DB.comment_likes db) = false ->
  wf (liked_comments_append now u c db).
Proof.
  intros H Hu Hc He. constructor; simpl; try wf_keep H.
  - apply NoDup_map_snoc; [wf_keep H|]. unfold CommentLikes.pk at 1. simpl. intros Hin.
    apply (pair_in_iff CommentLikes.user_id CommentLikes.comment_id) in Hin. congruence.
  - intros r Hr. apply in_app_iff in Hr. destruct Hr as [Hr|[<-|[]]]; simpl; auto.
    now apply (wf_comment_likes_fk H).
Qed.

Lemma wf_liked_comments_remove (u : User.t) (c : Comment.t) (db : DB.t) :
  wf db -> wf (liked_comments_remove u c db).
Proof.
  intros H. constructor; simpl; try wf_keep H.
  - apply NoDup_map_filter. wf_keep H.
  - intros r Hr. apply filter_In in Hr. now apply (wf_comment_likes_fk H).
Qed.

(** The membership tests on stored likes. *)
Lemma has_liked_blog_edge (db : DB.t) (u : User.t) (blog : Blog.t) :
  In (Blog.id blog) (map Blog.id (DB.blogs db)) ->
  has_liked_blog db u blog
  = existsb (fun r => (BlogLikes.user_id r =? User.id u) && (BlogLikes.blog_id r =? Blog.id blog))
            (DB.blog_likes db).
Proof.
  intros Hin. unfold has_liked_blog, User_liked_blogs. now apply secondary_member.
Qed.

Lemma has_liked_comment_edge (db : DB.t) (u : User.t) (c : Comment.t) :
  In (Comment.id c) (map Comment.id (DB.comments db)) ->
  has_liked_comment db u c
  = existsb (fun r => (CommentLikes.user_id r =? User.id u)
                      && (CommentLikes.comment_id r =? Comment.id c))
            (DB.comment_likes db).
Proof.
  intros Hin. unfold has_liked_comment, User_liked_comments. now apply secondary_member.
Qed.

Lemma in_key_filter_neq {E : Type} (key : E -> nat) (tbl : list E) (k k' : nat) :
  In k (map key tbl) -> k <> k' ->
  In k (map key (filter (fun e => negb (key e =? k')) tbl)).
Proof.
  intros Hin Hne. apply in_map_iff in Hin. destruct Hin as [e [He Hin]].
  apply in_map_iff. exists e. split; [exact He|]. apply filter_In. split; [exact Hin|].
  apply negb_true_iff, Nat.eqb_neq. congruence.
Qed.

(** Where every like row names a stored user the unit of work deletes
    every like row of the comment. *)
Lemma session_delete_comment_rows (c : Comment.t) (db : DB.t) :
  (forall r, In r (DB.comment_likes db) ->
     In (CommentLikes.user_id r) (map User.id (DB.users db))) ->
  session_delete_comment c db
  = DB.mk (DB.users db) (DB.blogs db)
          (filter (fun x => negb (Comment.id x =? Comment.id c)) (DB.comments db))
          (DB.followers db) (DB.blog_likes db)
          (filter (fun r => negb (CommentLikes.comment_id r =? Comment.id c))
                  (DB.comment_likes db)).
Proof.
  intros Hfk. unfold session_delete_comment, Comment_liked_by. cbv zeta. f_equal.
  now apply (@delete_loaded_rows _ _ CommentLikes.comment_id CommentLikes.user_id User.id).
Qed.

Lemma session_delete_comment_wf (c : Comment.t) (db : DB.t) :
  wf db ->
  session_delete_comment c db
  = DB.mk (DB.users db) (DB.blogs db)
          (filter (fun x => negb (Comment.id x =? Comment.id c)) (DB.comments db))
          (DB.followers db) (DB.blog_likes db)
          (filter (fun r => negb (CommentLikes.comment_id r =? Comment.id c))
                  (DB.comment_likes db)).
Proof.
  intros H. apply session_delete_comment_rows.
  intros r Hr. now apply (wf_comment_likes_fk H).
Qed.

Lemma wf_session_delete_comment (c : Comment.t) (db : DB.t) :
  wf db -> wf (session_delete_comment c db).
Proof.
  intros H. rewrite (session_delete_comment_wf c H). constructor; simpl; try wf_keep H.
  - apply NoDup_map_filter. wf_keep H.
  - apply NoDup_map_filter. wf_keep H.
  - intros x Hx. apply filter_In in Hx. now apply (wf_comments_fk H).
  - intros r Hr. apply filter_In in Hr. destruct Hr as [Hr Hne].
    destruct (wf_comment_likes_fk H r Hr) as [Hu Hc]. split; [exact Hu|].
    apply in_key_filter_neq; [exact Hc|].
    now apply negb_true_iff, Nat.eqb_neq in Hne.
Qed.

Lemma wf_delete_comments (cs : list Comment.t) (db : DB.t) :
  wf db -> wf (fold_right session_delete_comment db cs).
Proof.
  intros H. induction cs as [|c cs IH]; simpl; [exact H|].
  now apply wf_session_delete_comment.
Qed.

(** What deleting a list of comments leaves in each table. *)
Lemma delete_comments_tables (cs : list Comment.t) (db : DB.t) :
  wf db ->
  let db1 := fold_right session_delete_comment db cs in
  DB.users db1 = DB.users db /\ DB.blogs db1 = DB.blogs db /\
  DB.followers db1 = DB.followers db /\ DB.blog_likes db1 = DB.blog_likes db /\
  (forall x, In x (DB.comments db1) <->
             In x (DB.comments db) /\ ~ In (Comment.id x) (map Comment.id cs)) /\
  (forall r, In r (DB.comment_likes db1) <->
             In r (DB.comment_likes db) /\ ~ In (CommentLikes.comment_id r) (map Comment.id cs)).
Proof.
  intros Hwf. induction cs as [|c cs IH]; cbv zeta; cbn [fold_right].
  - simpl. repeat split; tauto.
  - cbv zeta in IH. destruct IH as [Hu [Hb [Hf [Hl [Hc Hcl]]]]].
    rewrite (session_delete_comment_wf c (wf_delete_comments cs Hwf)). simpl.
    repeat split; auto.
    + apply filter_In in H. apply Hc. tauto.
    + apply filter_In in H. destruct H as [H1 H2].
      apply negb_true_iff, Nat.eqb_neq in H2. apply Hc in H1. intros [E|E]; [congruence|tauto].
    + intros [H1 H2]. apply filter_In. split.
      * apply Hc. tauto.
      * apply negb_true_iff, Nat.eqb_neq. intros E. apply H2. left. congruence.
    + apply filter_In in H. apply Hcl. tauto.
    + apply filter_In in H. destruct H as [H1 H2].
      apply negb_true_iff, Nat.eqb_neq in H2. apply Hcl in H1. intros [E|E]; [congruence|tauto].
    + intros [H1 H2]. apply filter_In. split.
      * apply Hcl. tauto.
      * apply negb_true_iff, Nat.eqb_neq. intros E. apply H2. left. congruence.
Qed.

(** On a store without dangling references the unit of work deletes every
    like row of the post. *)
Lemma session_delete_blog_wf (blog : Blog.t) (db : DB.t) :
  wf db ->
  session_delete_blog blog db
  = let db1 := fold_right session_delete_comment db (Blog_comments db blog) in
    DB.mk (DB.users db1)
          (filter (fun b => negb (Blog.id b =? Blog.id blog)) (DB.blogs db1))
          (DB.comments db1) (DB.followers db1)
          (filter (fun r => negb (BlogLikes.blog_id r =? Blog.id blog)) (DB.blog_likes db1))
          (DB.comment_likes db1).
Proof.
  intros H. pose proof (wf_delete_comments (Blog_comments db blog) H) as H1.
  unfold session_delete_blog, Blog_liked_by. cbv zeta. f_equal.
  apply (@delete_loaded_rows _ _ BlogLikes.blog_id BlogLikes.user_id User.id).
  intros r Hr. now apply (wf_blog_likes_fk H1).
Qed.

Lemma wf_session_delete_blog (blog : Blog.t) (db : DB.t) :
  wf db -> wf (session_delete_blog blog db).
Proof.
  intros H. rewrite (session_delete_blog_wf blog H). cbv zeta.
  pose proof (wf_delete_comments (Blog_comments db blog) H) as H1.
  destruct (delete_comments_tables (Blog_comments db blog) H) as [Hu [Hb [Hf [Hl [Hc Hcl]]]]].
  set (db1 := fold_right session_delete_comment db (Blog_comments db blog)) in *.
  constructor; simpl; try wf_keep H1.
  - apply NoDup_map_filter. wf_keep H1.
  - apply NoDup_map_filter. wf_keep H1.
  - intros b Hin. apply filter_In in Hin. now apply (wf_blogs_fk H1).
  - intros c Hin. destruct (wf_comments_fk H1 c Hin) as [Hcu Hcb]. split; [exact Hcu|].
    apply in_key_filter_neq; [exact Hcb|].
    intros E. apply Hc in Hin. destruct Hin as [Hin Hnin]. apply Hnin.
    apply in_map. unfold Blog_comments. apply filter_In. split; [exact Hin|].
    now apply Nat.eqb_eq.
  - intros r Hr. apply filter_In in Hr. destruct Hr as [Hr Hne].
    destruct (wf_blog_likes_fk H1 r Hr) as [Hru Hrb]. split; [exact Hru|].
    apply in_key_filter_neq; [exact Hrb|].
    now apply negb_true_iff, Nat.eqb_neq in Hne.
Qed.

Lemma current_user_stored (db : DB.t) (session : option nat) (u : User.t) :
  current_user_of db session = LoggedIn u -> In u (DB.users db).
Proof.
  unfold current_user_of, load_user, User_get. destruct session as [i|]; [|discriminate].
  destruct (find _ _) eqn:F; [|discriminate].
  intros E. inversion E; subst. apply find_key_some in F. tauto.
Qed.

Lemma map_key_update {E : Type} (key : E -> nat) (p : E -> bool) (f : E -> E) (tbl : list E) :
  (forall e, key (f e) = key e) ->
  map key (map (fun e => if p e then f e else e) tbl) = map key tbl.
Proof.
  intros Hk. rewrite map_map. apply map_ext. intros e. destruct (p e); auto.
Qed.

Lemma wf_register (form : option (string * string)) (cu : principal) (db : DB.t) :
  wf db -> wf (snd (register form cu db)).
Proof.
  intros H. unfold register. destruct (is_authenticated cu); [exact H|].
  destruct form as [[name email]|]; [|exact H].
  destruct (existsb _ _); [exact H|]. simpl.
  assert (Hsub : forall k, In k (map User.id (DB.users db)) ->
                 In k (map User.id (DB.users db
                         ++ [User.mk (next_id (map User.id (DB.users db))) name email true]))).
  { intros k Hk. rewrite map_app. apply in_app_iff. now left. }
  constructor; simpl; try wf_keep H.
  - apply NoDup_map_snoc; [wf_keep H|]. simpl. apply next_id_fresh.
  - intros b Hb. apply Hsub. now apply (wf_blogs_fk H).
  - intros c Hc. destruct (wf_comments_fk H c Hc). auto.
  - intros r Hr. destruct (wf_followers_fk H r Hr). auto.
  - intros r Hr. destruct (wf_blog_likes_fk H r Hr). auto.
  - intros r Hr. destruct (wf_comment_likes_fk H r Hr). auto.
Qed.

Lemma wf_edit_profile (form : option (string * string)) (cu : User.t) (db : DB.t) :
  wf db -> wf (snd (edit_profile form cu db)).
Proof.
  intros H. unfold edit_profile. destruct form as [[name email]|]; [|exact H].
  destruct (existsb _ _); [exact H|]. simpl.
  assert (Hids : map User.id
            (map (fun u => if User_eqb u cu
                           then User.mk (User.id u) name email (User.is_active u) else u)
                 (DB.users db)) = map User.id (DB.users db)).
  { apply (map_key_update User.id (fun u => User_eqb u cu)
             (fun u => User.mk (User.id u) name email (User.is_active u))). reflexivity. }
  constructor; simpl; try rewrite Hids; try wf_keep H.
Qed.

Lemma wf_create_blog (now : datetime) (form : option (string * bool)) (cu : User.t) (db : DB.t) :
  wf db -> In cu (DB.users db) -> wf (snd (create_blog now form cu db)).
Proof.
  intros H Hcu. unfold create_blog. destruct form as [[title pub]|]; [|exact H]. simpl.
  assert (Hsub : forall k blog, In k (map Blog.id (DB.blogs db)) ->
                 In k (map Blog.id (DB.blogs db ++ [blog]))).
  { intros k blog Hk. rewrite map_app. apply in_app_iff. now left. }
  constructor; simpl; try wf_keep H.
  - apply NoDup_map_snoc; [wf_keep H|]. simpl. apply next_id_fresh.
  - intros b Hb. apply in_app_iff in Hb. destruct Hb as [Hb|[<-|[]]].
    + now apply (wf_blogs_fk H).
    + simpl. now apply in_map.
  - intros c Hc. destruct (wf_comments_fk H c Hc). auto.
  - intros r Hr. destruct (wf_blog_likes_fk H r Hr). auto.
Qed.

Lemma wf_edit_blog (id : nat) (form : option (string * bool)) (cu : User.t) (db : DB.t) :
  wf db -> wf (snd (edit_blog id form cu db)).
Proof.
  intros H. unfold edit_blog. destruct (Blog_get db id) as [blog|]; [|exact H].
  destruct (author_is_not db blog cu); [exact H|].
  destruct form as [[title pub]|]; [|exact H]. simpl.
  set (upd := fun b : Blog.t =>
         if Blog.id b =? Blog.id blog
         then Blog.mk (Blog.id b) title pub (Blog.is_featured b) (Blog.date_created b)
                      (Blog.user_id b)
         else b).
  assert (Hids : map Blog.id (map upd (DB.blogs db)) = map Blog.id (DB.blogs db)).
  { rewrite map_map. apply map_ext. intros b. unfold upd. now destruct (_ =? _). }
  constructor; simpl; try rewrite Hids; try wf_keep H.
  intros b Hb. apply in_map_iff in Hb. destruct Hb as [b0 [<- Hb0]].
  assert (E : Blog.user_id (upd b0) = Blog.user_id b0).
  { unfold upd. now destruct (_ =? _). }
  rewrite E. now apply (wf_blogs_fk H).
Qed.

Lemma wf_delete_blog (id : nat) (cu : User.t) (db : DB.t) :
  wf db -> wf (snd (delete_blog id cu db)).
Proof.
  intros H. unfold delete_blog. destruct (Blog_get db id) as [blog|]; [|exact H].
  destruct (author_is_not db blog cu); [exact H|]. simpl.
  now apply wf_session_delete_blog.
Qed.

Lemma User_by_username_stored (db : DB.t) (name : string) (u : User.t) :
  User_by_username db name = Some u -> In u (DB.users db).
Proof. unfold User_by_username. intros F. apply find_some in F. tauto. Qed.

Lemma wf_toggle_follow (now : datetime) (name : string) (cu : User.t) (db : DB.t) :
  wf db -> In cu (DB.users db) -> wf (snd (toggle_follow now name cu db)).
Proof.
  intros H Hcu. unfold toggle_follow.
  destruct (User_by_username db name) as [user|] eqn:F; [|exact H].
  apply User_by_username_stored in F.
  destruct (User_eqb user cu) eqn:Heq; [exact H|].
  destruct (is_following db cu user) eqn:Hf; simpl.
  - unfold unfollow. rewrite Hf. now apply wf_followed_remove.
  - unfold follow. rewrite Hf. simpl.
    assert (Hu : In (User.id user) (map User.id (DB.users db))) by now apply in_map.
    apply wf_followed_append; auto.
    + now apply in_map.
    + unfold User_eqb in Heq. apply Nat.eqb_neq in Heq. congruence.
    + now rewrite <- is_following_edge.
Qed.

Lemma Blog_get_stored (db : DB.t) (i : nat) (b : Blog.t) :
  Blog_get db i = Some b -> In b (DB.blogs db) /\ Blog.id b = i.
Proof. apply find_key_some. Qed.

Lemma Comment_get_stored (db : DB.t) (i : nat) (c : Comment.t) :
  Comment_get db i = Some c -> In c (DB.comments db) /\ Comment.id c = i.
Proof. apply find_key_some. Qed.

Lemma wf_toggle_like_blog (now : datetime) (id : nat) (cu : User.t) (db : DB.t) :
  wf db -> In cu (DB.users db) -> wf (snd (toggle_like_blog now id cu db)).
Proof.
  intros H Hcu. unfold toggle_like_blog.
  destruct (Blog_get db id) as [blog|] eqn:F; [|exact H].
  apply Blog_get_stored in F. destruct F as [F _].
  assert (Hb : In (Blog.id blog) (map Blog.id (DB.blogs db))) by now apply in_map.
  destruct (has_liked_blog db cu blog) eqn:Hl; simpl.
  - unfold unlike_blog. rewrite Hl. now apply wf_liked_blogs_remove.
  - unfold like_blog. rewrite Hl. simpl. apply wf_liked_blogs_append; auto.
    + now apply in_map.
    + now rewrite <- has_liked_blog_edge.
Qed.

Lemma wf_toggle_like_comment (now : datetime) (id : nat) (cu : User.t) (db : DB.t) :
  wf db -> In cu (DB.users db) -> wf (snd (toggle_like_comment now id cu db)).
Proof.
  intros H Hcu. unfold toggle_like_comment.
  destruct (Comment_get db id) as [c|] eqn:F; [|exact H].
  apply Comment_get_stored in F. destruct F as [F _].
  assert (Hc : In (Comment.id c) (map Comment.id (DB.comments db))) by now apply in_map.
  destruct (has_liked_comment db cu c) eqn:Hl; simpl.
  - unfold unlike_comment. rewrite Hl. now apply wf_liked_comments_remove.
  - unfold like_comment. rewrite Hl. simpl. apply wf_liked_comments_append; auto.
    + now apply in_map.
    + now rewrite <- has_liked_comment_edge.
Qed.

Lemma wf_add_comment (now : datetime) (blog_id : nat) (form : option string)
    (cu : User.t) (db : DB.t) :
  wf db -> In cu (DB.users db) -> wf (snd (add_comment now blog_id form cu db)).
Proof.
  intros H Hcu. unfold add_comment.
  destruct (Blog_get db blog_id) as [blog|] eqn:F; [|exact H].
  apply Blog_get_stored in F. destruct F as [F _].
  destruct form as [content|]; [|exact H]. simpl.
  constructor; simpl; try wf_keep H.
  - apply NoDup_map_snoc; [wf_keep H|]. simpl. apply next_id_fresh.
  - intros c Hc. apply in_app_iff in Hc. destruct Hc as [Hc|[<-|[]]].
    + now apply (wf_comments_fk H).
    + simpl. split; now apply in_map.
  - intros r Hr. destruct (wf_comment_likes_fk H r Hr) as [Hu Hc]. split; [exact Hu|].
    rewrite map_app. apply in_app_iff. now left.
Qed.

Lemma wf_delete_comment (commit_ok : bool) (id : nat) (cu : User.t) (db : DB.t) :
  wf db -> wf (snd (delete_comment commit_ok id cu db)).
Proof.
  intros H. unfold delete_comment. destruct (Comment_get db id) as [c|]; [|exact H].
  destruct (negb _).
  - destruct (Comment_blog db c) as [blog|]; [|exact H].
    destruct (negb _); [exact H|].
    destruct commit_ok; [|exact H]. now apply wf_session_delete_comment.
  - destruct commit_ok; [|exact H]. now apply wf_session_delete_comment.
Qed.

Lemma wf_login_required (view : User.t -> DB.t -> response * DB.t)
    (session : option nat) (db : DB.t) :
  wf db ->
  (forall u, In u (DB.users db) -> wf (snd (view u db))) ->
  wf (snd (login_required view (current_user_of db session) db)).
Proof.
  intros H Hv. unfold login_required.
  destruct (current_user_of db session) as [| |u] eqn:C; try exact H.
  destruct (is_authenticated (LoggedIn u)); [|exact H].
  apply Hv. now apply (current_user_stored db session).
Qed.

Lemma wf_handle (now : datetime) (req : request) (session : option nat) (db : DB.t) :
  wf db -> wf (snd (handle now req (current_user_of db session) db)).
Proof.
  intros H. destruct req; simpl.
  - now apply wf_register.
  - apply wf_login_required; [exact H|]. intros u _. now apply wf_edit_profile.
  - apply wf_login_required; [exact H|]. intros u Hu. now apply wf_create_blog.
  - apply wf_login_required; [exact H|]. intros u _. now apply wf_edit_blog.
  - apply wf_login_required; [exact H|]. intros u _. now apply wf_delete_blog.
  - apply wf_login_required; [exact H|]. intros u Hu. now apply wf_toggle_follow.
  - apply wf_login_required; [exact H|]. intros u Hu. now apply wf_toggle_like_blog.
  - apply wf_login_required; [exact H|]. intros u Hu. now apply wf_toggle_like_comment.
  - apply wf_login_required; [exact H|]. intros u Hu. now apply wf_add_comment.
  - apply wf_login_required; [exact H|]. intros u _. now apply wf_delete_comment.
Qed.

(** Every reachable store satisfies the schema constraints. *)
Lemma reachable_wf (db : DB.t) : reachable db -> wf db.
Proof.
  induction 1 as [|now req session db _ IH]; [exact wf_empty|]. now apply wf_handle.
Qed.

Lemma reachable_run (h : list (datetime * request * option nat)) (db : DB.t) :
  reachable db -> reachable (run db h).
Proof.
  revert db. induction h as [|[[now req] session] h IH]; intros db H; [exact H|].
  apply IH. now apply reachable_step.
Qed.

Lemma sample_db_reachable : reachable sample_db.
Proof. exact (reachable_run history reachable_empty). Qed.

(** ** Self-follow *)

Lemma db_alice_reachable : reachable db_alice.
Proof. exact (reachable_step 0%Z (Register (Some ("alice", "alice@example.org")%string)) None reachable_empty). Qed.

(** C3, as stated, fails on [User.follow]: in the store where alice has
    just registered, called with alice on both sides it raises nothing
    and stores the edge (1, 1). *)
Lemma follow_self_stores_edge :
  follow 0%Z alice alice db_alice
  = DB.mk [alice] [] [] [Followers.mk 1 1 0%Z] [] [] /\
  is_following (follow 0%Z alice alice db_alice) alice alice = true.
Proof. split; reflexivity. Qed.

(** C3, amended.  The self-follow check is the endpoint's: in every
    reachable store no follow edge joins a user to themselves, and a
    [toggle_follow] request whose target is the caller is answered 400
    with the store untouched. *)
Theorem self_follow_rejected_by_endpoint (db : DB.t) :
  reachable db ->
  (forall r, In r (DB.followers db) -> Followers.follower_id r <> Followers.followed_id r) /\
  (forall now username current_user user,
     User_by_username db username = Some user ->
     User_eqb user current_user = true ->
     toggle_follow now username current_user db
     = (Json 400 (ErrorBody "You cannot follow yourself"), db)).
Proof.
  intros H. split.
  - exact (wf_no_self_follow (reachable_wf H)).
  - intros now username cu user Hu Heq. unfold toggle_follow. now rewrite Hu, Heq.
Qed.

(** ** Deleting posts and comments *)

(** C7.  In a store that satisfies the schema constraints (every like row
    names a stored user, as in every reachable store), when its author
    deletes a post, the post, its comments, the like edges on the post and
    the like edges on each of its comments are gone from the store. *)
Theorem delete_blog_cascade (id : nat) (current_user : User.t) (db : DB.t) (blog : Blog.t) :
  wf db ->
  Blog_get db id = Some blog ->
  author_is_not db blog current_user = false ->
  let db' := snd (delete_blog id current_user db) in
  Blog_get db' id = None /\
  (forall c, In c (DB.comments db') -> Comment.blog_id c <> id) /\
  (forall c, In c (Blog_comments db blog) -> Comment_get db' (Comment.id c) = None) /\
  (forall r, In r (DB.blog_likes db') -> BlogLikes.blog_id r <> id) /\
  (forall r c, In r (DB.comment_likes db') -> In c (Blog_comments db blog) ->
     CommentLikes.comment_id r <> Comment.id c).
Proof.
  intros Hwf Hget Hauth db'. unfold db', delete_blog. rewrite Hget, Hauth.
  cbn [snd negb]. rewrite (session_delete_blog_wf blog Hwf). cbv zeta.
  apply Blog_get_stored in Hget. destruct Hget as [Hin Hid].
  destruct (delete_comments_tables (Blog_comments db blog) Hwf) as [Hu [Hb [Hf [Hl [Hc Hcl]]]]].
  repeat split.
  - unfold Blog_get. simpl. apply find_key_none. intros Hi.
    apply in_map_iff in Hi. destruct Hi as [b [Hbid Hbin]]. apply filter_In in Hbin.
    destruct Hbin as [_ Hne]. apply negb_true_iff, Nat.eqb_neq in Hne. congruence.
  - intros c Hcin E. apply Hc in Hcin. destruct Hcin as [Hcin Hnin]. apply Hnin.
    apply in_map. unfold Blog_comments. apply filter_In. split; [exact Hcin|].
    apply Nat.eqb_eq. congruence.
  - intros c Hcin. unfold Comment_get. simpl. apply find_key_none. intros Hi.
    apply in_map_iff in Hi. destruct Hi as [x [Hx Hxin]]. apply Hc in Hxin.
    destruct Hxin as [_ Hnin]. apply Hnin. rewrite Hx. now apply in_map.
  - intros r Hr. simpl in Hr. apply filter_In in Hr. destruct Hr as [_ Hne].
    apply negb_true_iff, Nat.eqb_neq in Hne. congruence.
  - intros r c Hr Hcin E. simpl in Hr. apply Hcl in Hr. destruct Hr as [_ Hnin].
    apply Hnin. rewrite E. now apply in_map.
Qed.

(** C8.  For a stored comment [c] of a stored post [blog]: the request
    succeeds exactly for the comment's author and the post's author, and
    then the comment is gone (were the store to fail them, they would get
    500 and the store as it was, never 403); anybody else gets 403
    "Unauthorized" and the store is untouched. *)
Theorem delete_comment_authorization (id : nat) (current_user : User.t) (db : DB.t)
    (c : Comment.t) (blog : Blog.t) :
  Comment_get db id = Some c ->
  Comment_blog db c = Some blog ->
  let allowed := User.id current_user = Comment.user_id c \/
                 User.id current_user = Blog.user_id blog in
  (fst (delete_comment true id current_user db)
   = Json 200 (SuccessBody "Comment deleted successfully") <-> allowed) /\
  (allowed ->
   delete_comment true id current_user db
   = (Json 200 (SuccessBody "Comment deleted successfully"), session_delete_comment c db) /\
   Comment_get (session_delete_comment c db) id = None) /\
  (allowed ->
   delete_comment false id current_user db
   = (Json 500 (FailureBody "Failed to delete comment"), db)) /\
  (~ allowed ->
   forall commit_ok,
   delete_comment commit_ok id current_user db = (Json 403 (ErrorBody "Unauthorized"), db)).
Proof.
  intros Hget Hblog allowed. unfold allowed, delete_comment. rewrite Hget, Hblog.
  apply Comment_get_stored in Hget. destruct Hget as [_ Hid].
  assert (Hgone : Comment_get (session_delete_comment c db) id = None).
  { unfold Comment_get. simpl. apply find_key_none. intros Hi.
    apply in_map_iff in Hi. destruct Hi as [x [Hx Hxin]]. apply filter_In in Hxin.
    destruct Hxin as [_ Hne]. apply negb_true_iff, Nat.eqb_neq in Hne. congruence. }
  destruct (Nat.eqb_spec (User.id current_user) (Comment.user_id c)) as [E1|E1];
    destruct (Nat.eqb_spec (User.id current_user) (Blog.user_id blog)) as [E2|E2]; simpl.
  all: repeat split; intros; try tauto; try discriminate; auto.
Qed.

(** ** New comments *)

(** C9.  In a store that satisfies the schema constraints, a successful
    [add_comment] answers with [likes_count] 0 for the comment it stores,
    and that comment has no like edge: its [likes_count] is 0. *)
Theorem add_comment_reports_zero_likes (now : datetime) (blog_id : nat) (content : string)
    (current_user : User.t) (db : DB.t) (blog : Blog.t) :
  wf db ->
  Blog_get db blog_id = Some blog ->
  let comment := new_comment now content current_user blog db in
  let db' := session_add_comment comment db in
  add_comment now blog_id (Some content) current_user db
  = (Json 200 (CommentBody (Comment.id comment) content 0), db') /\
  Comment_get db' (Comment.id comment) = Some comment /\
  Comment_liked_by db' comment = [] /\
  Comment_likes_count db' comment = 0.
Proof.
  intros H Hget comment db'. unfold add_comment. rewrite Hget.
  assert (Hfresh : ~ In (Comment.id comment) (map Comment.id (DB.comments db))).
  { unfold comment, new_comment. simpl. apply next_id_fresh. }
  assert (Hnil : Comment_liked_by db' comment = []).
  { unfold Comment_liked_by. apply secondary_nil_rows. intros r Hr E. simpl in Hr.
    apply Hfresh. rewrite <- E. now apply (wf_comment_likes_fk H). }
  repeat split.
  - unfold Comment_get. simpl.
    rewrite find_snoc_none by exact (@find_key_none _ Comment.id _ _ Hfresh).
    now rewrite Nat.eqb_refl.
  - exact Hnil.
  - unfold Comment_likes_count. now rewrite Hnil.
Qed.

(** ** Reaction ledger *)

Section SecondaryPerm.
Context {R E : Type} (near far : R -> nat) (key : E -> nat).

Lemma secondary_length_sum (rows : list R) (tbl : list E) (owner : nat) :
  length (secondary near far key rows tbl owner)
  = list_sum (map (fun p => if fst p =? owner
                            then length (filter (fun e => key e =? snd p) tbl) else 0)
                  (map (fun r => (near r, far r)) rows)).
Proof.
  unfold secondary. induction rows as [|r rows IH]; simpl; [reflexivity|].
  destruct (near r =? owner); simpl; [|exact IH].
  now rewrite length_app, length_map, IH.
Qed.

(** The size of a relationship depends on the association rows only
    through the bag of their key pairs. *)
Lemma secondary_length_perm (rows rows' : list R) (tbl : list E) (owner : nat) :
  Permutation (map (fun r => (near r, far r)) rows) (map (fun r => (near r, far r)) rows') ->
  length (secondary near far key rows tbl owner)
  = length (secondary near far key rows' tbl owner).
Proof.
  intros HP. rewrite !secondary_length_sum.
  apply Permutation_list_sum. now apply Permutation_map.
Qed.

(** So does a membership test. *)
Lemma secondary_member_perm (rows rows' : list R) (tbl : list E) (owner target : nat) :
  Permutation (map (fun r => (near r, far r)) rows) (map (fun r => (near r, far r)) rows') ->
  (0 <? length (filter (fun re => far (fst re) =? target)
                       (secondary near far key rows tbl owner)))
  = (0 <? length (filter (fun re => far (fst re) =? target)
                         (secondary near far key rows' tbl owner))).
Proof.
  assert (Hone : forall l l',
            Permutation (map (fun r => (near r, far r)) l) (map (fun r => (near r, far r)) l') ->
            existsb (fun re => far (fst re) =? target) (secondary near far key l tbl owner) = true ->
            existsb (fun re => far (fst re) =? target) (secondary near far key l' tbl owner) = true).
  { intros l l' HP Hex. apply existsb_exists in Hex. destruct Hex as [[r e] [Hre Hf]].
    apply in_secondary in Hre. destruct Hre as [Hr [Hn [He Hk]]].
    assert (Hin : In (near r, far r) (map (fun r => (near r, far r)) l')).
    { apply (Permutation_in _ HP). now apply (in_map (fun r => (near r, far r))). }
    apply in_map_iff in Hin. destruct Hin as [r' [Heq Hr']]. inversion Heq as [[Hn' Hf']].
    apply existsb_exists. exists (r', e). simpl in *. split.
    - apply in_secondary. repeat split; auto; congruence.
    - now rewrite Hf'. }
  intros HP. rewrite !pos_length_filter. apply Bool.eq_iff_eq_true. split.
  - now apply Hone.
  - apply Hone. now apply Permutation_sym.
Qed.

End SecondaryPerm.

Section Toggle.
Context {R : Type} (c1 c2 : R -> nat).

Let hit (a b : nat) (r : R) : bool := (c1 r =? a) && (c2 r =? b).
Let pk (r : R) : nat * nat := (c1 r, c2 r).

Lemma pair_extract (rows : list R) (a b : nat) :
  NoDup (map pk rows) ->
  existsb (hit a b) rows = true ->
  Permutation (map pk (filter (fun r => negb (hit a b r)) rows) ++ [(a, b)]) (map pk rows).
Proof.
  induction rows as [|r rows IH]; simpl; intros Hnd Hex; [discriminate|].
  inversion Hnd as [|? ? Hnin Hnd']; subst.
  destruct (hit a b r) eqn:Hr; simpl.
  - unfold hit in Hr. apply andb_true_iff in Hr. destruct Hr as [Ha Hb].
    apply Nat.eqb_eq in Ha, Hb. subst a b.
    rewrite filter_true_id.
    + apply Permutation_sym, Permutation_cons_append.
    + intros x Hx. apply negb_true_iff. destruct (hit (c1 r) (c2 r) x) eqn:Hh; [|reflexivity].
      exfalso. apply Hnin. apply (pair_in_iff c1 c2). apply existsb_exists. now exists x.
  - apply perm_skip. now apply IH.
Qed.

(** Toggling a pair twice leaves the bag of key pairs as it was. *)
Lemma toggle_twice_perm (rows : list R) (a b : nat) (new1 new2 : R) :
  NoDup (map pk rows) ->
  pk new1 = (a, b) -> pk new2 = (a, b) ->
  let toggle new l :=
    if existsb (hit a b) l then filter (fun r => negb (hit a b r)) l else l ++ [new] in
  Permutation (map pk (toggle new2 (toggle new1 rows))) (map pk rows).
Proof.
  intros Hnd H1 H2 toggle. unfold toggle.
  assert (Hhit : forall new, pk new = (a, b) -> hit a b new = true).
  { intros new Hn. inversion Hn. unfold hit. now rewrite !Nat.eqb_refl. }
  destruct (existsb (hit a b) rows) eqn:Hex.
  - assert (Hno : existsb (hit a b) (filter (fun r => negb (hit a b r)) rows) = false).
    { apply existsb_false_iff. intros x Hx. apply filter_In in Hx.
      now apply negb_true_iff. }
    rewrite Hno, map_app. simpl. rewrite H2. now apply pair_extract.
  - rewrite existsb_app. simpl. rewrite (Hhit new1 H1), orb_true_r.
    rewrite filter_app. simpl. rewrite (Hhit new1 H1). simpl. rewrite app_nil_r.
    rewrite filter_true_id; [reflexivity|].
    intros x Hx. apply negb_true_iff. now apply (proj1 (existsb_false_iff _ _) Hex).
Qed.

Lemma pair_fst_NoDup (rows : list R) (b : nat) :
  NoDup (map pk rows) -> NoDup (map c1 (filter (fun r => c2 r =? b) rows)).
Proof.
  induction rows as [|r rows IH]; simpl; intros Hnd; [constructor|].
  inversion Hnd as [|? ? Hnin Hnd']; subst.
  destruct (Nat.eqb_spec (c2 r) b) as [Hb|Hb]; simpl; [|now apply IH].
  constructor; [|now apply IH].
  intros Hin. apply Hnin. apply in_map_iff in Hin. destruct Hin as [x [Hx Hin]].
  apply filter_In in Hin. destruct Hin as [Hin Hxb]. apply Nat.eqb_eq in Hxb.
  apply in_map_iff. exists x. split; [|exact Hin]. unfold pk. congruence.
Qed.

End Toggle.

(** What [toggle_like_blog] and [toggle_like_comment] do to the store. *)
Lemma toggle_like_blog_store (now : datetime) (id : nat) (u : User.t) (db : DB.t) (blog : Blog.t) :
  Blog_get db id = Some blog ->
  snd (toggle_like_blog now id u db)
  = DB.mk (DB.users db) (DB.blogs db) (DB.comments db) (DB.followers db)
      (let hit r := (BlogLikes.user_id r =? User.id u) && (BlogLikes.blog_id r =? Blog.id blog) in
       if existsb hit (DB.blog_likes db)
       then filter (fun r => negb (hit r)) (DB.blog_likes db)
       else DB.blog_likes db ++ [BlogLikes.mk (User.id u) (Blog.id blog) now])
      (DB.comment_likes db).
Proof.
  intros Hget. unfold toggle_like_blog. rewrite Hget.
  apply Blog_get_stored in Hget. destruct Hget as [Hin _].
  rewrite <- has_liked_blog_edge by now apply in_map.
  destruct (has_liked_blog db u blog) eqn:Hl; simpl.
  - unfold unlike_blog. now rewrite Hl.
  - unfold like_blog. now rewrite Hl.
Qed.

Lemma toggle_like_comment_store (now : datetime) (id : nat) (u : User.t) (db : DB.t)
    (c : Comment.t) :
  Comment_get db id = Some c ->
  snd (toggle_like_comment now id u db)
  = DB.mk (DB.users db) (DB.blogs db) (DB.comments db) (DB.followers db) (DB.blog_likes db)
      (let hit r := (CommentLikes.user_id r =? User.id u)
                    && (CommentLikes.comment_id r =? Comment.id c) in
       if existsb hit (DB.comment_likes db)
       then filter (fun r => negb (hit r)) (DB.comment_likes db)
       else DB.comment_likes db ++ [CommentLikes.mk (User.id u) (Comment.id c) now]).
Proof.
  intros Hget. unfold toggle_like_comment. rewrite Hget.
  apply Comment_get_stored in Hget. destruct Hget as [Hin _].
  rewrite <- has_liked_comment_edge by now apply in_map.
  destruct (has_liked_comment db u c) eqn:Hl; simpl.
  - unfold unlike_comment. now rewrite Hl.
  - unfold like_comment. now rewrite Hl.
Qed.

Lemma swap_pairs {R : Type} (c1 c2 : R -> nat) (l l' : list R) :
  Permutation (map (fun r => (c1 r, c2 r)) l) (map (fun r => (c1 r, c2 r)) l') ->
  Permutation (map (fun r => (c2 r, c1 r)) l) (map (fun r => (c2 r, c1 r)) l').
Proof.
  intros HP. apply (Permutation_map (fun p : nat * nat => (snd p, fst p))) in HP.
  now rewrite !map_map in HP.
Qed.

Lemma toggle_like_blog_twice (now1 now2 : datetime) (id : nat) (u : User.t) (db : DB.t) :
  NoDup (map BlogLikes.pk (DB.blog_likes db)) ->
  let db2 := snd (toggle_like_blog now2 id u (snd (toggle_like_blog now1 id u db))) in
  DB.users db2 = DB.users db /\ DB.blogs db2 = DB.blogs db /\
  Permutation (map BlogLikes.pk (DB.blog_likes db2)) (map BlogLikes.pk (DB.blog_likes db)).
Proof.
  intros Hnd db2. unfold db2. destruct (Blog_get db id) as [blog|] eqn:Hget.
  - rewrite (@toggle_like_blog_store now1 id u db blog Hget).
    rewrite (@toggle_like_blog_store now2 id u _ blog) by exact Hget.
    simpl. repeat split.
    apply (toggle_twice_perm BlogLikes.user_id BlogLikes.blog_id); auto.
  - unfold toggle_like_blog. rewrite Hget. simpl. rewrite Hget. simpl. auto.
Qed.

Lemma toggle_like_comment_twice (now1 now2 : datetime) (id : nat) (u : User.t) (db : DB.t) :
  NoDup (map CommentLikes.pk (DB.comment_likes db)) ->
  let db2 := snd (toggle_like_comment now2 id u (snd (toggle_like_comment now1 id u db))) in
  DB.users db2 = DB.users db /\ DB.comments db2 = DB.comments db /\
  Permutation (map CommentLikes.pk (DB.comment_likes db2))
              (map CommentLikes.pk (DB.comment_likes db)).
Proof.
  intros Hnd db2. unfold db2. destruct (Comment_get db id) as [c|] eqn:Hget.
  - rewrite (@toggle_like_comment_store now1 id u db c Hget).
    rewrite (@toggle_like_comment_store now2 id u _ c) by exact Hget.
    simpl. repeat split.
    apply (toggle_twice_perm CommentLikes.user_id CommentLikes.comment_id); auto.
  - unfold toggle_like_comment. rewrite Hget. simpl. rewrite Hget. simpl. auto.
Qed.

(** C5.  With the primary keys of the like tables respected, two like
    toggles in a row by the same user on the same post (on the same
    comment) bring [has_liked] and [likes_count] back to what they were,
    for that target and for every other one. *)
Theorem toggle_like_twice_restores (now1 now2 : datetime) (id : nat) (u : User.t) (db : DB.t) :
  NoDup (map BlogLikes.pk (DB.blog_likes db)) ->
  NoDup (map CommentLikes.pk (DB.comment_likes db)) ->
  (let db2 := snd (toggle_like_blog now2 id u (snd (toggle_like_blog now1 id u db))) in
   forall blog, has_liked_blog db2 u blog = has_liked_blog db u blog /\
                Blog_likes_count db2 blog = Blog_likes_count db blog) /\
  (let db2 := snd (toggle_like_comment now2 id u (snd (toggle_like_comment now1 id u db))) in
   forall comment, has_liked_comment db2 u comment = has_liked_comment db u comment /\
                   Comment_likes_count db2 comment = Comment_likes_count db comment).
Proof.
  intros Hb Hc. split.
  - intros db2 blog.
    destruct (toggle_like_blog_twice now1 now2 id u db Hb) as [Hu [Hbl HP]].
    fold db2 in Hu, Hbl, HP. split.
    + unfold has_liked_blog, User_liked_blogs. rewrite Hbl.
      now apply secondary_member_perm.
    + unfold Blog_likes_count, Blog_liked_by. rewrite Hu.
      apply secondary_length_perm. now apply swap_pairs.
  - intros db2 comment.
    destruct (toggle_like_comment_twice now1 now2 id u db Hc) as [Hu [Hcm HP]].
    fold db2 in Hu, Hcm, HP. split.
    + unfold has_liked_comment, User_liked_comments. rewrite Hcm.
      now apply secondary_member_perm.
    + unfold Comment_likes_count, Comment_liked_by. rewrite Hu.
      apply secondary_length_perm. now apply swap_pairs.
Qed.

(** Under the schema constraints the two counts are the numbers of
    distinct likers. *)
Lemma wf_likes_counts (db : DB.t) : wf db -> counts_agree db.
Proof.
  intros H. split.
  - intros blog. unfold Blog_likes_count, Blog_liked_by, blog_likers.
    rewrite secondary_length.
    + rewrite nodup_fixed_point, length_map; [reflexivity|].
      apply (pair_fst_NoDup BlogLikes.user_id BlogLikes.blog_id). exact (wf_blog_likes_pk H).
    + exact (wf_users_pk H).
    + intros r Hr. now apply (wf_blog_likes_fk H).
  - intros comment. unfold Comment_likes_count, Comment_liked_by, comment_likers.
    rewrite secondary_length.
    + rewrite nodup_fixed_point, length_map; [reflexivity|].
      apply (pair_fst_NoDup CommentLikes.user_id CommentLikes.comment_id).
      exact (wf_comment_likes_pk H).
    + exact (wf_users_pk H).
    + intros r Hr. now apply (wf_comment_likes_fk H).
Qed.

Lemma wf_like_blog (now : datetime) (u : User.t) (blog : Blog.t) (db : DB.t) :
  wf db -> In u (DB.users db) -> In blog (DB.blogs db) -> wf (like_blog now u blog db).
Proof.
  intros H Hu Hb. unfold like_blog. destruct (has_liked_blog db u blog) eqn:Hl; simpl; [exact H|].
  assert (Hi : In (Blog.id blog) (map Blog.id (DB.blogs db))) by now apply in_map.
  apply wf_liked_blogs_append; auto.
  - now apply in_map.
  - now rewrite <- has_liked_blog_edge.
Qed.

Lemma wf_unlike_blog (u : User.t) (blog : Blog.t) (db : DB.t) :
  wf db -> wf (unlike_blog u blog db).
Proof.
  intros H. unfold unlike_blog. destruct (has_liked_blog db u blog); [|exact H].
  now apply wf_liked_blogs_remove.
Qed.

Lemma wf_like_comment (now : datetime) (u : User.t) (c : Comment.t) (db : DB.t) :
  wf db -> In u (DB.users db) -> In c (DB.comments db) -> wf (like_comment now u c db).
Proof.
  intros H Hu Hc. unfold like_comment.
  destruct (has_liked_comment db u c) eqn:Hl; simpl; [exact H|].
  assert (Hi : In (Comment.id c) (map Comment.id (DB.comments db))) by now apply in_map.
  apply wf_liked_comments_append; auto.
  - now apply in_map.
  - now rewrite <- has_liked_comment_edge.
Qed.

Lemma wf_unlike_comment (u : User.t) (c : Comment.t) (db : DB.t) :
  wf db -> wf (unlike_comment u c db).
Proof.
  intros H. unfold unlike_comment. destruct (has_liked_comment db u c); [|exact H].
  now apply wf_liked_comments_remove.
Qed.

(** C6.  In every reachable store the [likes_count] of a post and of a
    comment, computed from the relationship at the time of the read, is
    the number of distinct users with a like edge to it; and the same
    holds in the store that any like or unlike by a stored user on a
    stored post or comment produces. *)
Theorem likes_count_is_live_cardinality (db : DB.t) :
  reachable db ->
  counts_agree db /\
  (forall now u blog, In u (DB.users db) -> In blog (DB.blogs db) ->
     counts_agree (like_blog now u blog db) /\ counts_agree (unlike_blog u blog db)) /\
  (forall now u comment, In u (DB.users db) -> In comment (DB.comments db) ->
     counts_agree (like_comment now u comment db) /\
     counts_agree (unlike_comment u comment db)).
Proof.
  intros Hr. apply reachable_wf in Hr. split; [|split].
  - now apply wf_likes_counts.
  - intros now u blog Hu Hb. split; apply wf_likes_counts.
    + now apply wf_like_blog.
    + now apply wf_unlike_blog.
  - intros now u c Hu Hc. split; apply wf_likes_counts.
    + now apply wf_like_comment.
    + now apply wf_unlike_comment.
Qed.

(** ** Sorting, newest first *)

Section Sorting.
Context {A : Type} (key : A -> datetime).

Let desc (a b : A) : Prop := (key b <= key a)%Z.
Let sdesc (a b : A) : Prop := (key b < key a)%Z.

Lemma insert_desc_perm (x : A) (l : list A) : Permutation (insert_desc key x l) (x :: l).
Proof.
  induction l as [|y l IH]; simpl; [reflexivity|].
  destruct (key y <=? key x)%Z; [reflexivity|].
  rewrite IH. apply perm_swap.
Qed.

Lemma sort_desc_perm (l : list A) : Permutation (sort_desc key l) l.
Proof.
  induction l as [|x l IH]; simpl; [reflexivity|].
  rewrite insert_desc_perm. now apply perm_skip.
Qed.

Lemma insert_desc_sorted (x : A) (l : list A) :
  StronglySorted desc l -> StronglySorted desc (insert_desc key x l).
Proof.
  induction 1 as [|y l Hs IH Hy]; simpl.
  - repeat constructor.
  - destruct (Z.leb_spec (key y) (key x)) as [Hle|Hlt].
    + constructor; [now constructor|]. constructor; [exact Hle|].
      rewrite Forall_forall in *. intros z Hz. specialize (Hy z Hz). unfold desc in *. lia.
    + constructor; [exact IH|].
      apply (Permutation_Forall (Permutation_sym (insert_desc_perm x l))).
      constructor; [unfold desc; lia | exact Hy].
Qed.

Lemma sort_desc_sorted (l : list A) : StronglySorted desc (sort_desc key l).
Proof.
  induction l as [|x l IH]; simpl; [constructor|]. now apply insert_desc_sorted.
Qed.

(** Sorting a sorted list changes nothing. *)
Lemma sort_desc_id (l : list A) : StronglySorted desc l -> sort_desc key l = l.
Proof.
  induction 1 as [|x l Hs IH Hx]; simpl; [reflexivity|].
  rewrite IH. destruct l as [|y l]; simpl; [reflexivity|].
  inversion Hx as [|? ? Hy _]; subst. unfold desc in Hy.
  apply Z.leb_le in Hy. now rewrite Hy.
Qed.

Lemma firstn_sorted (R : A -> A -> Prop) (k : nat) (l : list A) :
  StronglySorted R l -> StronglySorted R (firstn k l).
Proof.
  intros H. revert k. induction H as [|x l Hs IH Hx]; intros [|k]; simpl; try constructor.
  - apply IH.
  - rewrite Forall_forall in *. intros z Hz. apply Hx.
    rewrite <- (firstn_skipn k l). apply in_app_iff. now left.
Qed.

Lemma sorted_distinct (l : list A) :
  StronglySorted desc l -> NoDup (map key l) -> StronglySorted sdesc l.
Proof.
  induction 1 as [|x l Hs IH Hx]; simpl; intros Hnd; [constructor|].
  inversion Hnd as [|? ? Hnin Hnd']; subst. constructor; [now apply IH|].
  rewrite Forall_forall in *. intros z Hz. specialize (Hx z Hz). unfold desc, sdesc in *.
  assert (key z <> key x).
  { intros Heq. apply Hnin. rewrite <- Heq. now apply in_map. }
  lia.
Qed.

(** Two strictly sorted lists with the same elements are the same list. *)
Lemma strict_sorted_unique (l1 l2 : list A) :
  StronglySorted sdesc l1 -> StronglySorted sdesc l2 -> Permutation l1 l2 -> l1 = l2.
Proof.
  intros H1. revert l2. induction H1 as [|x l1 Hs1 IH Hx]; intros l2 H2 HP.
  - apply Permutation_nil in HP. now subst.
  - destruct l2 as [|y l2].
    + apply Permutation_sym, Permutation_nil in HP. discriminate.
    + apply StronglySorted_inv in H2. destruct H2 as [Hs2 Hy].
      rewrite Forall_forall in Hx, Hy.
      assert (Hxy : x = y).
      { assert (Hxin : In x (y :: l2)) by (apply (Permutation_in _ HP); now left).
        assert (Hyin : In y (x :: l1))
          by (apply (Permutation_in _ (Permutation_sym HP)); now left).
        destruct Hxin as [->|Hxin]; [reflexivity|].
        destruct Hyin as [->|Hyin]; [reflexivity|].
        specialize (Hx y Hyin). specialize (Hy x Hxin). unfold sdesc in *. lia. }
      subst y. f_equal. apply IH; [exact Hs2|]. now apply Permutation_cons_inv in HP.
Qed.

(** With distinct keys the sorted list does not depend on the order of
    the input. *)
Lemma sort_desc_perm_eq (l1 l2 : list A) :
  Permutation l1 l2 -> NoDup (map key l1) -> sort_desc key l1 = sort_desc key l2.
Proof.
  intros HP Hnd.
  assert (Hnd2 : NoDup (map key l2)).
  { apply (Permutation_NoDup (Permutation_map key HP) Hnd). }
  apply strict_sorted_unique.
  - apply sorted_distinct; [apply sort_desc_sorted|].
    apply (Permutation_NoDup (Permutation_map key (Permutation_sym (sort_desc_perm l1))) Hnd).
  - apply sorted_distinct; [apply sort_desc_sorted|].
    apply (Permutation_NoDup (Permutation_map key (Permutation_sym (sort_desc_perm l2))) Hnd2).
  - rewrite (sort_desc_perm l1), (sort_desc_perm l2). exact HP.
Qed.

Lemma firstn_cons_firstn (k : nat) (y : A) (l : list A) :
  firstn k (y :: l) = firstn k (y :: firstn k l).
Proof.
  destruct k as [|k]; [reflexivity|]. rewrite !firstn_cons. f_equal.
  rewrite firstn_firstn. f_equal. lia.
Qed.

(** The first [k] rows after an insertion depend only on the first [k]
    rows before it. *)
Lemma firstn_insert_desc (k : nat) (x : A) (l : list A) :
  firstn k (insert_desc key x l) = firstn k (insert_desc key x (firstn k l)).
Proof.
  revert k. induction l as [|y l IH]; intros [|k]; try reflexivity.
  rewrite (firstn_cons k y l). cbn [insert_desc].
  destruct (key y <=? key x)%Z; rewrite !firstn_cons; f_equal.
  - apply firstn_cons_firstn.
  - apply IH.
Qed.

Lemma top_cons (k : nat) (x : A) (l l' : list A) :
  firstn k (sort_desc key l) = firstn k (sort_desc key l') ->
  firstn k (sort_desc key (x :: l)) = firstn k (sort_desc key (x :: l')).
Proof.
  intros H. simpl. rewrite firstn_insert_desc, H, <- firstn_insert_desc. reflexivity.
Qed.

Lemma top_app (k : nat) (l1 l l' : list A) :
  firstn k (sort_desc key l) = firstn k (sort_desc key l') ->
  firstn k (sort_desc key (l1 ++ l)) = firstn k (sort_desc key (l1 ++ l')).
Proof.
  intros H. induction l1 as [|x l1 IH]; [exact H|].
  rewrite <- !app_comm_cons. now apply top_cons.
Qed.

Lemma top_top (k : nat) (l : list A) :
  firstn k (sort_desc key (firstn k (sort_desc key l))) = firstn k (sort_desc key l).
Proof.
  rewrite sort_desc_id.
  - rewrite firstn_firstn. f_equal. lia.
  - apply firstn_sorted, sort_desc_sorted.
Qed.

Lemma NoDup_drop_middle {B : Type} (l1 l2 l3 : list B) :
  NoDup (l1 ++ l2 ++ l3) -> NoDup (l1 ++ l3).
Proof.
  induction l1 as [|x l1 IH]; simpl; intros H.
  - now apply NoDup_app_remove_l in H.
  - inversion H as [|? ? Hnin Hnd]; subst. constructor; [|now apply IH].
    intros Hin. apply Hnin. rewrite !in_app_iff in *. tauto.
Qed.

Lemma NoDup_keys_top (k : nat) (l1 l2 : list A) :
  NoDup (map key (l1 ++ l2)) -> NoDup (map key (firstn k (sort_desc key l1) ++ l2)).
Proof.
  intros Hnd.
  assert (Hs : NoDup (map key (sort_desc key l1 ++ l2))).
  { apply (Permutation_NoDup (l := map key (l1 ++ l2))); [|exact Hnd].
    apply Permutation_map, Permutation_app_tail, Permutation_sym, sort_desc_perm. }
  rewrite <- (firstn_skipn k (sort_desc key l1)) in Hs.
  rewrite <- app_assoc, !map_app in Hs. rewrite map_app.
  now apply NoDup_drop_middle in Hs.
Qed.

(** The [k] newest rows of [l1 ++ l2] are the [k] newest rows among the
    [k] newest of [l1] and all of [l2]. *)
Lemma top_of_top (k : nat) (l1 l2 : list A) :
  NoDup (map key (l1 ++ l2)) ->
  firstn k (sort_desc key (firstn k (sort_desc key l1) ++ l2))
  = firstn k (sort_desc key (l1 ++ l2)).
Proof.
  intros Hnd. pose proof (NoDup_keys_top k l1 l2 Hnd) as Hnd'.
  rewrite (sort_desc_perm_eq (Permutation_app_comm _ l2) Hnd').
  rewrite (sort_desc_perm_eq (Permutation_app_comm l1 l2) Hnd).
  apply top_app, top_top.
Qed.

Lemma sorted_suffix (R : A -> A -> Prop) (l1 l2 : list A) :
  StronglySorted R (l1 ++ l2) -> StronglySorted R l2.
Proof.
  induction l1 as [|x l1 IH]; simpl; intros H; [exact H|].
  apply StronglySorted_inv in H. now apply IH.
Qed.

(** In a sorted list nothing past position [k] is newer than anything
    before it. *)
Lemma sorted_prefix_bound (k : nat) (l : list A) (x y : A) :
  StronglySorted desc l -> In x (firstn k l) -> In y (skipn k l) -> (key y <= key x)%Z.
Proof.
  intros Hs. rewrite <- (firstn_skipn k l) in Hs. revert Hs.
  generalize (skipn k l). generalize (firstn k l). intros l1 l2.
  induction l1 as [|z l1 IH]; simpl; intros Hs Hx Hy; [contradiction|].
  apply StronglySorted_inv in Hs. destruct Hs as [Hs Hz].
  destruct Hx as [->|Hx]; [|now apply IH].
  rewrite Forall_forall in Hz. apply Hz. apply in_app_iff. now right.
Qed.

(** Rows strictly newer than a row among the first [k] of a sorted list
    are fewer than [k]. *)
Lemma sorted_prefix_newer (k : nat) (l t : list A) (x : A) :
  StronglySorted desc l -> In x (firstn k l) ->
  NoDup t -> incl t l -> (forall y, In y t -> (key x < key y)%Z) ->
  length t < k.
Proof.
  intros Hs Hx Hnd Hincl Hnew.
  destruct (in_split _ _ Hx) as [l1 [l2 Hsplit]].
  assert (Hlen : length l1 < k).
  { pose proof (firstn_le_length k l) as Hle. rewrite Hsplit, length_app in Hle.
    simpl in Hle. lia. }
  rewrite <- (firstn_skipn k l), Hsplit, <- app_assoc in Hs. simpl in Hs.
  apply sorted_suffix, StronglySorted_inv in Hs. destruct Hs as [_ Hafter].
  rewrite Forall_forall in Hafter.
  assert (Hin : incl t l1).
  { intros y Hy. pose proof (Hnew y Hy) as Hlt. pose proof (Hincl y Hy) as Hyl.
    rewrite <- (firstn_skipn k l), Hsplit, <- app_assoc in Hyl. simpl in Hyl.
    apply in_app_iff in Hyl. destruct Hyl as [Hyl|[Heq|Hyl]]; [exact Hyl| |].
    - subst y. lia.
    - specialize (Hafter y Hyl). unfold desc in Hafter. lia. }
  pose proof (NoDup_incl_length Hnd Hin). lia.
Qed.

End Sorting.

(** ** Home feed *)

Lemma NoDup_firstn {A : Type} (k : nat) (l : list A) : NoDup l -> NoDup (firstn k l).
Proof.
  intros H. rewrite <- (firstn_skipn k l) in H. now apply NoDup_app_remove_r in H.
Qed.

Lemma in_firstn {A : Type} (k : nat) (l : list A) (x : A) : In x (firstn k l) -> In x l.
Proof.
  intros H. rewrite <- (firstn_skipn k l). apply in_app_iff. now left.
Qed.

(** The ids [index] collects are the viewer's and those at the far end of
    the viewer's follow edges. *)
Lemma followed_ids_member (db : DB.t) (u : User.t) (k : nat) :
  In k (map User.id (DB.users db)) ->
  existsb (Nat.eqb k) (map User.id (map snd (User_followed db u)) ++ [User.id u])
  = (k =? User.id u) || follow_edge db (User.id u) k.
Proof.
  intros Hk. apply Bool.eq_iff_eq_true.
  rewrite existsb_exists, orb_true_iff. unfold follow_edge. rewrite existsb_exists. split.
  - intros [i [Hi Hki]]. apply Nat.eqb_eq in Hki. subst i.
    apply in_app_iff in Hi. destruct Hi as [Hi|[Hi|[]]].
    + right. apply in_map_iff in Hi. destruct Hi as [e [He Hi]].
      apply in_map_iff in Hi. destruct Hi as [[r e'] [Hs Hi]]. simpl in Hs. subst e'.
      apply in_secondary in Hi. destruct Hi as [Hr [Hn [_ Hf]]].
      exists r. split; [exact Hr|]. apply andb_true_iff.
      split; apply Nat.eqb_eq; congruence.
    + left. apply Nat.eqb_eq. congruence.
  - intros [Hu|[r [Hr Hm]]].
    + apply Nat.eqb_eq in Hu. exists k. split; [|apply Nat.eqb_refl].
      apply in_app_iff. right. left. congruence.
    + apply andb_true_iff in Hm. destruct Hm as [Hn Hf]. apply Nat.eqb_eq in Hn, Hf.
      apply in_map_iff in Hk. destruct Hk as [e [He Hin]].
      exists k. split; [|apply Nat.eqb_refl]. apply in_app_iff. left.
      apply in_map_iff. exists e. split; [exact He|].
      apply in_map_iff. exists (r, e). split; [reflexivity|].
      apply in_secondary. repeat split; auto. congruence.
Qed.

(** The private rows [index] selects are the visible private posts. *)
Lemma follower_blogs_visible (db : DB.t) (u : User.t) :
  wf db ->
  filter (fun b => existsb (Nat.eqb (Blog.user_id b))
                     (map User.id (map snd (User_followed db u)) ++ [User.id u])
                   && negb (Blog.is_public b))
         (DB.blogs db)
  = visible_private db u.
Proof.
  intros H. unfold visible_private. apply filter_ext_in. intros b Hb.
  rewrite followed_ids_member by now apply (wf_blogs_fk H). apply andb_comm.
Qed.

(** C2, as stated, fails: alice has written four private posts and there
    is no public post.  The specification's [recent] list has all four;
    the page shows the three newest, whatever the order of the set. *)
Lemma home_recent_misses_private_post :
  recent_spec db_four_private alice
  = [four_private 4 "d"; four_private 3 "c"; four_private 2 "b"; four_private 1 "a"] /\
  (forall list_of_set,
     (forall l, Permutation (list_of_set l) (nodup Blog_eq_dec l)) ->
     recent_of (index list_of_set (LoggedIn alice) db_four_private)
     = [four_private 4 "d"; four_private 3 "c"; four_private 2 "b"] /\
     recent_of (index list_of_set (LoggedIn alice) db_four_private)
     <> recent_spec db_four_private alice).
Proof.
  split; [reflexivity|]. intros list_of_set Hset.
  set (top3 := [four_private 4 "d"; four_private 3 "c"; four_private 2 "b"]).
  assert (Hshown : recent_of (index list_of_set (LoggedIn alice) db_four_private) = top3).
  { change (firstn 6 (sort_desc Blog.date_created (list_of_set top3)) = top3).
    rewrite <- (sort_desc_perm_eq Blog.date_created (l1 := nodup Blog_eq_dec top3)).
    - reflexivity.
    - apply Permutation_sym, Hset.
    - simpl. repeat constructor; simpl; intuition discriminate. }
  split; [exact Hshown|]. rewrite Hshown. discriminate.
Qed.

Lemma visible_private_not_public (db : DB.t) (u : User.t) (b : Blog.t) :
  In b (firstn 3 (sort_desc Blog.date_created (visible_private db u))) ->
  In b (DB.blogs db) /\ Blog.is_public b = false.
Proof.
  intros Hb. apply in_firstn in Hb. apply (Permutation_in _ (sort_desc_perm _ _)) in Hb.
  apply filter_In in Hb. destruct Hb as [Hb Hv]. apply andb_true_iff in Hv.
  split; [exact Hb|]. now apply negb_true_iff.
Qed.

(** No post occurs twice among the 6 newest public posts and the 3 newest
    visible private ones, nor in the pool. *)
Lemma recent_pool_NoDup (db : DB.t) (u : User.t) (k : nat) :
  NoDup (DB.blogs db) ->
  NoDup (firstn k (sort_desc Blog.date_created (filter Blog.is_public (DB.blogs db)))
         ++ firstn 3 (sort_desc Blog.date_created (visible_private db u))) /\
  NoDup (recent_pool db u).
Proof.
  intros Hnd.
  assert (Hpriv : NoDup (firstn 3 (sort_desc Blog.date_created (visible_private db u)))).
  { apply NoDup_firstn. apply (Permutation_NoDup (Permutation_sym (sort_desc_perm _ _))).
    now apply NoDup_filter. }
  split; (apply NoDup_app; [| exact Hpriv |]).
  - apply NoDup_firstn. apply (Permutation_NoDup (Permutation_sym (sort_desc_perm _ _))).
    now apply NoDup_filter.
  - intros b Hp Ht. apply in_firstn in Hp. apply (Permutation_in _ (sort_desc_perm _ _)) in Hp.
    apply filter_In in Hp. apply visible_private_not_public in Ht.
    destruct Hp as [_ Hp], Ht as [_ Ht]. congruence.
  - now apply NoDup_filter.
  - intros b Hp Ht. apply filter_In in Hp. apply visible_private_not_public in Ht.
    destruct Hp as [_ Hp], Ht as [_ Ht]. congruence.
Qed.

(** C2, amended.  For a signed-in viewer, in a store that satisfies the
    schema constraints, the [recent] list of the home page is made of the
    6 newest posts of the pool formed by every public post and the 3
    newest private posts written by the viewer or by a user the viewer
    follows: it has no repeats, draws from the pool only, has 6 posts or
    the whole pool, is ordered newest first, and leaves out no post of the
    pool that is newer than one it shows.  When creation times are
    pairwise distinct this fixes the list: it is the pool without repeats,
    newest first, cut at 6, whatever the iteration order of the set. *)
Theorem home_recent_authenticated (list_of_set : list Blog.t -> list Blog.t)
    (db : DB.t) (u : User.t) :
  (forall l, Permutation (list_of_set l) (nodup Blog_eq_dec l)) ->
  wf db ->
  is_authenticated (LoggedIn u) = true ->
  let recent := recent_of (index list_of_set (LoggedIn u) db) in
  NoDup recent /\
  incl recent (recent_pool db u) /\
  length recent = Nat.min 6 (length (recent_pool db u)) /\
  newest_first recent /\
  (forall b b', In b (recent_pool db u) -> ~ In b recent -> In b' recent ->
     (Blog.date_created b <= Blog.date_created b')%Z) /\
  (NoDup (map Blog.date_created (DB.blogs db)) -> recent = recent_amended db u).
Proof.
  intros Hset H Hauth recent.
  assert (Hblogs : NoDup (DB.blogs db)) by exact (NoDup_map_inv _ _ (wf_blogs_pk H)).
  set (pub := filter Blog.is_public (DB.blogs db)).
  set (top6 := firstn 6 (sort_desc Blog.date_created pub)).
  set (top3 := firstn 3 (sort_desc Blog.date_created (visible_private db u))).
  destruct (@recent_pool_NoDup db u 6 Hblogs) as [Hmerged Hpool].
  fold pub top6 top3 in Hmerged.
  set (merged := list_of_set (top6 ++ top3)).
  assert (Hperm : Permutation merged (top6 ++ top3)).
  { unfold merged. rewrite <- (nodup_fixed_point Blog_eq_dec Hmerged) at 2. apply Hset. }
  assert (Hrecent : recent = firstn 6 (sort_desc Blog.date_created merged)).
  { unfold recent, index, limit. rewrite Hauth. cbn [recent_of].
    now rewrite (follower_blogs_visible u H). }
  pose proof (sort_desc_perm Blog.date_created merged) as Hsort.
  pose proof (sort_desc_sorted Blog.date_created merged) as Hsorted.
  assert (Htop6 : incl top6 pub).
  { intros b Hb. apply in_firstn in Hb.
    now apply (Permutation_in _ (sort_desc_perm _ _)) in Hb. }
  rewrite Hrecent. split; [|split; [|split; [|split; [|split]]]].
  - apply NoDup_firstn.
    apply (Permutation_NoDup (Permutation_sym (Permutation_trans Hsort Hperm)) Hmerged).
  - intros b Hb. apply in_firstn in Hb. apply (Permutation_in _ Hsort) in Hb.
    apply (Permutation_in _ Hperm) in Hb. unfold recent_pool. fold pub top3.
    apply in_app_iff in Hb. apply in_app_iff. destruct Hb as [Hb|Hb]; auto.
  - rewrite length_firstn, (Permutation_length Hsort), (Permutation_length Hperm).
    unfold recent_pool. fold pub top3. rewrite !length_app.
    unfold top6. rewrite length_firstn, (Permutation_length (sort_desc_perm Blog.date_created pub)). lia.
  - now apply firstn_sorted.
  - intros b b' Hb Hout Hin.
    destruct (in_dec Blog_eq_dec b merged) as [Hbm|Hbm].
    + apply (@sorted_prefix_bound _ Blog.date_created 6 _ b' b Hsorted Hin).
      apply (Permutation_in _ (Permutation_sym Hsort)) in Hbm.
      rewrite <- (firstn_skipn 6 (sort_desc Blog.date_created merged)) in Hbm.
      apply in_app_iff in Hbm. tauto.
    + assert (Hskip : In b (skipn 6 (sort_desc Blog.date_created pub))).
      { unfold recent_pool in Hb. fold pub top3 in Hb. apply in_app_iff in Hb.
        assert (Hnot : ~ In b (top6 ++ top3)).
        { intros Hc. apply Hbm. now apply (Permutation_in _ (Permutation_sym Hperm)). }
        destruct Hb as [Hb|Hb]; [|exfalso; apply Hnot, in_app_iff; tauto].
        apply (Permutation_in _ (Permutation_sym (sort_desc_perm Blog.date_created pub))) in Hb.
        rewrite <- (firstn_skipn 6 (sort_desc Blog.date_created pub)) in Hb.
        apply in_app_iff in Hb. destruct Hb as [Hb|Hb]; [|exact Hb].
        exfalso. apply Hnot, in_app_iff. now left. }
      destruct (Z.le_gt_cases (Blog.date_created b) (Blog.date_created b')) as [Hle|Hgt];
        [exact Hle|exfalso].
      assert (Hsix : length top6 = 6).
      { unfold top6. rewrite length_firstn.
        assert (length (skipn 6 (sort_desc Blog.date_created pub)) <> 0)
          by (destruct (skipn 6 (sort_desc Blog.date_created pub)); [contradiction|discriminate]).
        rewrite length_skipn in *. lia. }
      assert (Hfew : length top6 < 6).
      { apply (@sorted_prefix_newer _ Blog.date_created 6
                 (sort_desc Blog.date_created merged) top6 b' Hsorted Hin).
        - apply NoDup_firstn.
          apply (Permutation_NoDup (Permutation_sym (sort_desc_perm _ _))).
          now apply NoDup_filter.
        - intros t Ht. apply (Permutation_in _ (Permutation_sym Hsort)).
          apply (Permutation_in _ (Permutation_sym Hperm)). apply in_app_iff. now left.
        - intros t Ht.
          pose proof (@sorted_prefix_bound _ Blog.date_created 6 _ t b
                        (sort_desc_sorted Blog.date_created pub) Ht Hskip). lia. }
      lia.
  - intros Hdates. unfold recent_amended.
    rewrite (nodup_fixed_point Blog_eq_dec Hpool). unfold recent_pool. fold pub top3.
    assert (Hkeys : NoDup (map Blog.date_created (pub ++ top3))).
    { apply Finite.Injective_map_NoDup_in; [|exact Hpool].
      assert (Hin : forall b, In b (pub ++ top3) -> In b (DB.blogs db)).
      { intros b Hb. apply in_app_iff in Hb. destruct Hb as [Hb|Hb].
        - apply filter_In in Hb. tauto.
        - now apply visible_private_not_public in Hb. }
      intros x y Hx Hy. apply (NoDup_map_inj_in Blog.date_created (DB.blogs db)); auto. }
    rewrite <- (top_of_top Blog.date_created 6 pub top3 Hkeys). fold top6.
    f_equal. apply sort_desc_perm_eq; [exact Hperm|].
    apply (Permutation_NoDup (Permutation_map _ (Permutation_sym Hperm))).
    exact (NoDup_keys_top Blog.date_created 6 pub top3 Hkeys).
Qed.

(** ** Further properties of the specification *)

(** X1.  In every reachable store no (follower, followed) pair and no
    (user, post) or (user, comment) like pair is stored twice, and no user
    follows themselves. *)
Theorem reachable_edges_unique (db : DB.t) :
  reachable db ->
  NoDup (map Followers.pk (DB.followers db)) /\
  (forall r, In r (DB.followers db) -> Followers.follower_id r <> Followers.followed_id r) /\
  NoDup (map BlogLikes.pk (DB.blog_likes db)) /\
  NoDup (map CommentLikes.pk (DB.comment_likes db)).
Proof.
  intros H. apply reachable_wf in H. repeat split.
  - exact (wf_followers_pk H).
  - exact (wf_no_self_follow H).
  - exact (wf_blog_likes_pk H).
  - exact (wf_comment_likes_pk H).
Qed.

(** X2.  [unfollow] is idempotent: without an edge it changes nothing, and
    after it [is_following] is false. *)
Theorem unfollow_idempotent (a b : User.t) (db : DB.t) :
  (is_following db a b = false -> unfollow a b db = db) /\
  is_following (unfollow a b db) a b = false /\
  unfollow a b (unfollow a b db) = unfollow a b db.
Proof.
  assert (Hoff : is_following (unfollow a b db) a b = false).
  { unfold unfollow. destruct (is_following db a b) eqn:F; [|exact F].
    unfold is_following. rewrite pos_length_filter. apply existsb_false_iff.
    intros [r e] Hre. apply in_secondary in Hre. simpl in *.
    destruct Hre as [Hr [Hn _]]. apply filter_In in Hr. destruct Hr as [_ Hr].
    apply negb_true_iff, andb_false_iff in Hr.
    destruct Hr as [Hr|Hr]; [|exact Hr]. apply Nat.eqb_neq in Hr. contradiction. }
  split; [|split].
  - intros F. unfold unfollow. now rewrite F.
  - exact Hoff.
  - unfold unfollow at 1. now rewrite Hoff.
Qed.

(** A viewer who is absent or anonymous sees a post exactly when it
    is public, and an authenticated author always sees their own post. *)
Lemma can_view_anonymous_and_author (db : DB.t) (p : Blog.t) :
  can_view db p NoUser = Some (Blog.is_public p) /\
  can_view db p AnonymousUser = Some (Blog.is_public p) /\
  (forall u, is_authenticated (LoggedIn u) = true -> User.id u = Blog.user_id p ->
     can_view db p (LoggedIn u) = Some true).
Proof.
  unfold can_view. repeat split.
  - now destruct (Blog.is_public p).
  - now destruct (Blog.is_public p).
  - intros u Hauth Hid. rewrite Hauth. simpl. apply Nat.eqb_eq in Hid. rewrite Hid.
    now destruct (Blog.is_public p).
Qed.

(** X3.  An anonymous visitor's [recent] list is the public posts newest
    first, cut at 6: public posts only, at most 6 of them, newest first,
    and every public post left out is no newer than any post shown. *)
Theorem home_recent_anonymous (list_of_set : list Blog.t -> list Blog.t) (db : DB.t) :
  let recent := recent_of (index list_of_set AnonymousUser db) in
  recent = firstn 6 (sort_desc Blog.date_created (filter Blog.is_public (DB.blogs db))) /\
  (forall b, In b recent -> In b (DB.blogs db) /\ Blog.is_public b = true) /\
  length recent <= 6 /\
  newest_first recent /\
  (forall b b', In b (DB.blogs db) -> Blog.is_public b = true -> ~ In b recent ->
     In b' recent -> (Blog.date_created b <= Blog.date_created b')%Z).
Proof.
  intros recent. unfold recent, index, limit. cbn [is_authenticated recent_of].
  set (pub := filter Blog.is_public (DB.blogs db)).
  pose proof (sort_desc_sorted Blog.date_created pub) as Hs.
  pose proof (sort_desc_perm Blog.date_created pub) as Hp.
  split; [reflexivity|]. split; [|split; [|split]].
  - intros b Hb. apply in_firstn in Hb. apply (Permutation_in _ Hp) in Hb.
    now apply filter_In in Hb.
  - apply firstn_le_length.
  - now apply firstn_sorted.
  - intros b b' Hb Hpub Hout Hin.
    apply (@sorted_prefix_bound _ Blog.date_created 6 _ b' b Hs Hin).
    assert (Hsorted : In b (sort_desc Blog.date_created pub)).
    { apply (Permutation_in _ (Permutation_sym Hp)). apply filter_In. tauto. }
    rewrite <- (firstn_skipn 6 (sort_desc Blog.date_created pub)) in Hsorted.
    apply in_app_iff in Hsorted. tauto.
Qed.

(** X4.  A like toggle answers with the state it has just produced: the
    status says whether the user now likes the post, and the count is the
    post's [likes_count] in the new store. *)
Theorem toggle_like_blog_reports_new_state (now : datetime) (id : nat) (u : User.t)
    (db : DB.t) (blog : Blog.t) :
  Blog_get db id = Some blog ->
  let db' := snd (toggle_like_blog now id u db) in
  fst (toggle_like_blog now id u db)
  = Json 200 (LikeBody (if has_liked_blog db' u blog then "liked" else "unliked")
                       (Blog_likes_count db' blog)) /\
  has_liked_blog db' u blog = negb (has_liked_blog db u blog).
Proof.
  intros Hget db'.
  assert (Hstored : In (Blog.id blog) (map Blog.id (DB.blogs db))).
  { apply Blog_get_stored in Hget. apply in_map. tauto. }
  assert (Hflip : has_liked_blog db' u blog = negb (has_liked_blog db u blog)).
  { unfold db'. rewrite (@toggle_like_blog_store now id u db blog Hget).
    rewrite !has_liked_blog_edge by exact Hstored. simpl.
    destruct (existsb _ (DB.blog_likes db)) eqn:Hex; simpl.
    - apply existsb_false_iff. intros x Hx. apply filter_In in Hx.
      now apply negb_true_iff.
    - rewrite existsb_app. simpl. rewrite !Nat.eqb_refl. simpl. apply orb_true_r. }
  split; [|exact Hflip]. rewrite Hflip. unfold db', toggle_like_blog. rewrite Hget.
  now destruct (has_liked_blog db u blog).
Qed.

(** X5.  The featured list of the home page holds exactly the posts that
    are featured and public, newest first, whoever looks. *)
Theorem home_featured (list_of_set : list Blog.t -> list Blog.t)
    (current_user : principal) (db : DB.t) :
  let featured := match index list_of_set current_user db with
                  | RenderIndex featured_blogs _ => featured_blogs
                  | _ => []
                  end in
  (forall b, In b featured <->
     In b (DB.blogs db) /\ Blog.is_featured b = true /\ Blog.is_public b = true) /\
  newest_first featured.
Proof.
  intros featured.
  assert (Hf : featured = sort_desc Blog.date_created
                 (filter (fun b => Blog.is_featured b && Blog.is_public b) (DB.blogs db))).
  { unfold featured, index. destruct (is_authenticated current_user); [|reflexivity].
    now destruct current_user. }
  rewrite Hf. split.
  - intros b. split.
    + intros Hb. apply (Permutation_in _ (sort_desc_perm _ _)) in Hb.
      apply filter_In in Hb. rewrite andb_true_iff in Hb. tauto.
    + intros Hb. apply (Permutation_in _ (Permutation_sym (sort_desc_perm _ _))).
      apply filter_In. rewrite andb_true_iff. tauto.
  - apply sort_desc_sorted.
Qed.

(** ** The theorems at the sample data *)

Lemma db_four_private_reachable : reachable db_four_private.
Proof. exact (reachable_run history_four reachable_empty). Qed.

Lemma can_view_rules_witness :
  can_view sample_db p1 (LoggedIn bob) = Some true /\
  can_view sample_db p1 AnonymousUser = Some false /\
  can_view sample_db p1 (LoggedIn alice) = Some true.
Proof.
  split; [|split].
  - destruct (can_view_rules sample_db p1 (LoggedIn bob)) as [_ [_ [_ [H4 _]]]].
    apply (H4 bob alice); try reflexivity. discriminate.
  - destruct (can_view_rules sample_db p1 AnonymousUser) as [_ [H2 _]].
    apply H2; reflexivity.
  - destruct (can_view_rules sample_db p1 (LoggedIn alice)) as [_ [_ [H3 _]]].
    apply (H3 alice); reflexivity.
Defined.

Lemma home_recent_authenticated_witness :
  (forall l, Permutation (nodup Blog_eq_dec l) (nodup Blog_eq_dec l)) /\
  wf db_four_private /\
  is_authenticated (LoggedIn alice) = true /\
  NoDup (map Blog.date_created (DB.blogs db_four_private)) /\
  recent_of (index (nodup Blog_eq_dec) (LoggedIn alice) db_four_private)
  = recent_amended db_four_private alice.
Proof.
  assert (Hset : forall l, Permutation (nodup Blog_eq_dec l) (nodup Blog_eq_dec l))
    by (intros l; apply Permutation_refl).
  assert (Hwf : wf db_four_private) by exact (reachable_wf db_four_private_reachable).
  assert (Hd : NoDup (map Blog.date_created (DB.blogs db_four_private)))
    by (simpl; repeat constructor; simpl; intuition discriminate).
  split; [exact Hset|]. split; [exact Hwf|]. split; [reflexivity|]. split; [exact Hd|].
  destruct (home_recent_authenticated (nodup Blog_eq_dec) alice Hset Hwf eq_refl)
    as [_ [_ [_ [_ [_ Heq]]]]].
  exact (Heq Hd).
Defined.

Lemma self_follow_rejected_by_endpoint_witness :
  reachable sample_db /\
  toggle_follow 8%Z "bob" bob sample_db
  = (Json 400 (ErrorBody "You cannot follow yourself"), sample_db).
Proof.
  split; [exact sample_db_reachable|].
  apply (self_follow_rejected_by_endpoint sample_db_reachable) with (user := bob);
    reflexivity.
Defined.

Lemma follow_once_witness :
  In (User.id bob) (map User.id (DB.users sample_db)) /\
  NoDup (map Followers.pk (DB.followers sample_db)) /\
  is_following (follow 8%Z alice bob sample_db) alice bob = true /\
  follow 9%Z alice bob (follow 8%Z alice bob sample_db) = follow 8%Z alice bob sample_db /\
  follow_edges (follow 8%Z alice bob sample_db) 1 2 = 1.
Proof.
  assert (Hin : In (User.id bob) (map User.id (DB.users sample_db))) by (simpl; tauto).
  assert (Hpk : NoDup (map Followers.pk (DB.followers sample_db)))
    by (simpl; repeat constructor; simpl; tauto).
  split; [exact Hin|]. split; [exact Hpk|].
  destruct (follow_once 8%Z 9%Z alice bob sample_db Hin Hpk) as [H1 [H2 [H3 _]]].
  auto.
Defined.

Lemma toggle_like_twice_restores_witness :
  NoDup (map BlogLikes.pk (DB.blog_likes sample_db)) /\
  NoDup (map CommentLikes.pk (DB.comment_likes sample_db)) /\
  Blog_likes_count
    (snd (toggle_like_blog 9%Z 1 bob (snd (toggle_like_blog 8%Z 1 bob sample_db)))) p1
  = Blog_likes_count sample_db p1.
Proof.
  assert (Hb : NoDup (map BlogLikes.pk (DB.blog_likes sample_db)))
    by (simpl; repeat constructor; simpl; tauto).
  assert (Hc : NoDup (map CommentLikes.pk (DB.comment_likes sample_db)))
    by (simpl; repeat constructor; simpl; tauto).
  split; [exact Hb|]. split; [exact Hc|].
  exact (proj2 (proj1 (toggle_like_twice_restores 8%Z 9%Z 1 bob sample_db Hb Hc) p1)).
Defined.

Lemma likes_count_is_live_cardinality_witness :
  reachable sample_db /\
  Blog_likes_count sample_db p1 = length (blog_likers sample_db p1) /\
  Comment_likes_count sample_db c1 = length (comment_likers sample_db c1).
Proof.
  split; [exact sample_db_reachable|].
  destruct (likes_count_is_live_cardinality sample_db_reachable) as [[Hb Hc] _].
  split; [apply Hb | apply Hc].
Defined.

Lemma delete_blog_cascade_witness :
  wf sample_db /\
  Blog_get sample_db 1 = Some p1 /\
  author_is_not sample_db p1 alice = false /\
  Blog_get (snd (delete_blog 1 alice sample_db)) 1 = None /\
  Comment_get (snd (delete_blog 1 alice sample_db)) (Comment.id c1) = None.
Proof.
  assert (Hwf : wf sample_db) by exact (reachable_wf sample_db_reachable).
  split; [exact Hwf|]. split; [reflexivity|]. split; [reflexivity|].
  destruct (@delete_blog_cascade 1 alice sample_db p1 Hwf eq_refl eq_refl)
    as [H1 [_ [H3 _]]].
  split; [exact H1|]. apply H3. simpl. tauto.
Defined.

Lemma delete_comment_authorization_witness :
  Comment_get sample_db 1 = Some c1 /\
  Comment_blog sample_db c1 = Some p1 /\
  delete_comment true 1 bob sample_db = (Json 403 (ErrorBody "Unauthorized"), sample_db) /\
  fst (delete_comment true 1 alice sample_db)
  = Json 200 (SuccessBody "Comment deleted successfully").
Proof.
  split; [reflexivity|]. split; [reflexivity|]. split.
  - apply (delete_comment_authorization 1 bob sample_db (c := c1) (blog := p1) eq_refl eq_refl).
    simpl. intros [H|H]; discriminate.
  - apply (delete_comment_authorization 1 alice sample_db (c := c1) (blog := p1) eq_refl eq_refl).
    now left.
Defined.

Lemma add_comment_reports_zero_likes_witness :
  wf sample_db /\
  Blog_get sample_db 1 = Some p1 /\
  fst (add_comment 8%Z 1 (Some "second"%string) bob sample_db)
  = Json 200 (CommentBody 2 "second" 0) /\
  Comment_likes_count (snd (add_comment 8%Z 1 (Some "second"%string) bob sample_db))
    (new_comment 8%Z "second" bob p1 sample_db) = 0.
Proof.
  assert (Hwf : wf sample_db) by exact (reachable_wf sample_db_reachable).
  split; [exact Hwf|]. split; [reflexivity|].
  destruct (add_comment_reports_zero_likes 8%Z 1 "second" bob (blog := p1) Hwf eq_refl)
    as [H1 [_ [_ H4]]].
  rewrite H1. split; [reflexivity | exact H4].
Defined.

Lemma reachable_edges_unique_witness :
  reachable sample_db /\ NoDup (map Followers.pk (DB.followers sample_db)).
Proof.
  split; [exact sample_db_reachable|].
  exact (proj1 (reachable_edges_unique sample_db_reachable)).
Defined.

Lemma toggle_like_blog_reports_new_state_witness :
  Blog_get sample_db 1 = Some p1 /\
  fst (toggle_like_blog 8%Z 1 bob sample_db) = Json 200 (LikeBody "unliked" 0).
Proof.
  split; [reflexivity|].
  exact (proj1 (toggle_like_blog_reports_new_state 8%Z 1 bob sample_db (blog := p1) eq_refl)).
Defined.

(** * Further properties of the handlers *)

(** ** Helpers *)

Unset Implicit Arguments.

Lemma DB_eta (db : DB.t) :
  DB.mk (DB.users db) (DB.blogs db) (DB.comments db) (DB.followers db)
        (DB.blog_likes db) (DB.comment_likes db) = db.
Proof. now destruct db. Qed.

(** [is_following] reads of its argument the id only. *)
Lemma is_following_same_id (db : DB.t) (u a a' : User.t) :
  User.id a = User.id a' -> is_following db u a = is_following db u a'.
Proof. intros Hid. unfold is_following. now rewrite Hid. Qed.

Lemma Blog_author_stored (db : DB.t) (b : Blog.t) (a : User.t) :
  Blog_author db b = Some a -> In a (DB.users db) /\ User.id a = Blog.user_id b.
Proof. unfold Blog_author, User_get. apply find_key_some. Qed.

Lemma wf_Blog_author (db : DB.t) (b : Blog.t) :
  wf db -> In b (DB.blogs db) -> exists a, Blog_author db b = Some a.
Proof.
  intros H Hb. unfold Blog_author, User_get. apply find_key_in. now apply (wf_blogs_fk H).
Qed.

(** On a stored post of a store that satisfies the schema constraints,
    [can_view] raises nothing and answers by the flag, the author's id and
    the follow edge. *)
Lemma wf_can_view (db : DB.t) (b : Blog.t) (v : principal) :
  wf db -> In b (DB.blogs db) ->
  can_view db b v
  = Some (Blog.is_public b
          || (is_authenticated v
              && match v with
                 | LoggedIn u => (User.id u =? Blog.user_id b)
                                 || follow_edge db (User.id u) (Blog.user_id b)
                 | _ => false
                 end)).
Proof.
  intros H Hb. unfold can_view. destruct (Blog.is_public b); [reflexivity|]. simpl.
  destruct v as [| |u]; simpl; try reflexivity.
  destruct (User.is_active u); simpl; [|reflexivity].
  destruct (User.id u =? Blog.user_id b); [reflexivity|]. simpl.
  destruct (wf_Blog_author db b H Hb) as [a Ha]. rewrite Ha.
  apply Blog_author_stored in Ha. destruct Ha as [Hin Hid].
  rewrite is_following_edge by now apply in_map. rewrite Hid.
  now destruct (follow_edge db (User.id u) (Blog.user_id b)).
Qed.

Lemma unfollow_not_following (a b : User.t) (db : DB.t) :
  is_following (unfollow a b db) a b = false.
Proof.
  unfold unfollow. destruct (is_following db a b) eqn:F; [|exact F].
  unfold is_following. rewrite pos_length_filter. apply existsb_false_iff.
  intros [r e] Hre. apply in_secondary in Hre. simpl in *.
  destruct Hre as [Hr [Hn _]]. apply filter_In in Hr. destruct Hr as [_ Hr].
  apply negb_true_iff, andb_false_iff in Hr.
  destruct Hr as [Hr|Hr]; [|exact Hr]. apply Nat.eqb_neq in Hr. contradiction.
Qed.

Lemma index_recent_members (list_of_set : list Blog.t -> list Blog.t)
    (v : principal) (db : DB.t) (b : Blog.t) :
  (forall l, Permutation (list_of_set l) (nodup Blog_eq_dec l)) ->
  wf db ->
  In b (recent_of (index list_of_set v db)) ->
  In b (DB.blogs db) /\
  (Blog.is_public b = true \/
   exists u, v = LoggedIn u /\ is_authenticated v = true /\ In b (visible_private db u)).
Proof.
  intros Hset H Hb.
  assert (Hpub : forall x,
            In x (limit 6 (sort_desc Blog.date_created (filter Blog.is_public (DB.blogs db)))) ->
            In x (DB.blogs db) /\ Blog.is_public x = true).
  { intros x Hx. apply in_firstn in Hx.
    apply (Permutation_in _ (sort_desc_perm _ _)) in Hx. now apply filter_In in Hx. }
  unfold index in Hb. destruct (is_authenticated v) eqn:Hauth.
  - destruct v as [| |u]; try discriminate. cbn [recent_of] in Hb.
    rewrite (follower_blogs_visible u H) in Hb.
    apply in_firstn in Hb. apply (Permutation_in _ (sort_desc_perm _ _)) in Hb.
    apply (Permutation_in _ (Hset _)) in Hb. apply nodup_In in Hb.
    apply in_app_iff in Hb. destruct Hb as [Hb|Hb].
    + apply Hpub in Hb. tauto.
    + apply in_firstn in Hb. apply (Permutation_in _ (sort_desc_perm _ _)) in Hb.
      split; [now apply filter_In in Hb|]. right. exists u. auto.
  - cbn [recent_of] in Hb. apply Hpub in Hb. tauto.
Qed.

(** ** What the pages list *)

(** X6.  The home page never lists a post its viewer could not open:
    every post in the featured list and in the recent list passes
    [can_view] for the viewer the page was built for. *)
Theorem home_lists_only_viewable (list_of_set : list Blog.t -> list Blog.t)
    (v : principal) (db : DB.t) :
  (forall l, Permutation (list_of_set l) (nodup Blog_eq_dec l)) ->
  wf db ->
  forall b,
    In b (featured_of (index list_of_set v db)) \/ In b (recent_of (index list_of_set v db)) ->
    can_view db b v = Some true.
Proof.
  intros Hset H b [Hb|Hb].
  - assert (Hf : In b (sort_desc Blog.date_created
                   (filter (fun x => Blog.is_featured x && Blog.is_public x) (DB.blogs db)))).
    { unfold index in Hb. destruct (is_authenticated v); [|exact Hb].
      now destruct v. }
    apply (Permutation_in _ (sort_desc_perm _ _)) in Hf. apply filter_In in Hf.
    destruct Hf as [_ Hf]. apply andb_true_iff in Hf. unfold can_view.
    now rewrite (proj2 Hf).
  - destruct (index_recent_members list_of_set v db b Hset H Hb) as [Hin [Hpub|Hpriv]].
    + unfold can_view. now rewrite Hpub.
    + destruct Hpriv as [u [-> [Hauth Hvis]]]. rewrite (wf_can_view db b _ H Hin), Hauth.
      apply filter_In in Hvis. destruct Hvis as [_ Hvis].
      apply andb_true_iff in Hvis. destruct Hvis as [_ Hvis].
      rewrite Nat.eqb_sym in Hvis. rewrite Hvis. now rewrite orb_true_r.
Qed.

(** X7.  A profile page lists exactly the posts of its owner that the
    viewer may open, newest first; an unknown username is answered 404. *)
Theorem profile_lists_viewable (username : string) (v : principal) (db : DB.t) :
  wf db ->
  match User_by_username db username with
  | None => profile username v db = PageAbort 404
  | Some owner =>
      profile username v db = ProfilePage owner (page_blogs (profile username v db)) /\
      newest_first (page_blogs (profile username v db)) /\
      (forall b, In b (page_blogs (profile username v db)) <->
         In b (DB.blogs db) /\ Blog.user_id b = User.id owner /\ can_view db b v = Some true)
  end.
Proof.
  intros H. unfold profile. destruct (User_by_username db username) as [owner|] eqn:Hu;
    [|reflexivity].
  apply User_by_username_stored in Hu.
  assert (Hstored : In (User.id owner) (map User.id (DB.users db))) by now apply in_map.
  set (full := is_authenticated v
               && match v with
                  | LoggedIn u => (User.id u =? User.id owner) || is_following db u owner
                  | _ => false
                  end).
  assert (Hview : forall b, In b (DB.blogs db) -> Blog.user_id b = User.id owner ->
                  can_view db b v = Some (Blog.is_public b || full)).
  { intros b Hb Hown. rewrite (wf_can_view db b v H Hb). unfold full. rewrite Hown.
    destruct v as [| |u]; try reflexivity.
    now rewrite (is_following_edge db u owner Hstored). }
  assert (Hmine : forall b, In b (User_blogs db owner) <->
                  In b (DB.blogs db) /\ Blog.user_id b = User.id owner).
  { intros b. unfold User_blogs. rewrite filter_In, Nat.eqb_eq. tauto. }
  destruct full eqn:Hfull; cbn [page_blogs].
  - split; [reflexivity|]. split; [apply sort_desc_sorted|]. intros b. split.
    + intros Hb. apply (Permutation_in _ (sort_desc_perm _ _)) in Hb. apply Hmine in Hb.
      destruct Hb as [Hb Hown]. rewrite (Hview b Hb Hown), orb_true_r. auto.
    + intros [Hb [Hown _]]. apply (Permutation_in _ (Permutation_sym (sort_desc_perm _ _))).
      apply Hmine. auto.
  - split; [reflexivity|]. split; [apply sort_desc_sorted|]. intros b. split.
    + intros Hb. apply (Permutation_in _ (sort_desc_perm _ _)) in Hb.
      apply filter_In in Hb. destruct Hb as [Hb Hpub]. apply Hmine in Hb.
      destruct Hb as [Hb Hown]. rewrite (Hview b Hb Hown), Hpub. auto.
    + intros [Hb [Hown Hcan]]. apply (Permutation_in _ (Permutation_sym (sort_desc_perm _ _))).
      apply filter_In. split; [apply Hmine; auto|].
      rewrite (Hview b Hb Hown), orb_false_r in Hcan. congruence.
Qed.

(** ** Pages of the explore view *)

Lemma skipn_add {A : Type} (m n : nat) (l : list A) : skipn (m + n) l = skipn n (skipn m l).
Proof.
  revert l. induction m as [|m IH]; intros l; [reflexivity|].
  destruct l as [|x l]; simpl; [now destruct n | apply IH].
Qed.

Lemma firstn_add {A : Type} (m n : nat) (l : list A) :
  firstn (m + n) l = firstn m l ++ firstn n (skipn m l).
Proof.
  revert l. induction m as [|m IH]; intros l; [reflexivity|].
  destruct l as [|x l]; simpl; [now destruct n | now rewrite IH].
Qed.

(** X8.  With a page size between 1 and 100 (where no cap on the page size
    comes into play), page [n + 1] of the explore view, for an offset
    [n * per_page] the store can take, is the slice of the public posts,
    newest first, that starts after [n] full pages; the pages up to any
    such number, put end to end, are the first posts of that list, so no
    post is skipped or shown twice; a page past the end is empty and no
    error; a page whose offset exceeds [max_int] is answered with 500; a
    missing, unreadable or non-positive page number shows page 1. *)
Theorem explore_pages (per_page : nat) (db : DB.t) :
  0 < per_page <= 100 ->
  let public := sort_desc Blog.date_created (filter Blog.is_public (DB.blogs db)) in
  let shown n := page_blogs (explore per_page (Some (Z.of_nat (S n))) db) in
  (forall n, (Z.of_nat (n * per_page) <= max_int)%Z ->
     explore per_page (Some (Z.of_nat (S n))) db
     = ExplorePage (Z.of_nat (S n)) (firstn per_page (skipn (n * per_page) public))) /\
  (forall k, (Z.of_nat (k * per_page) <= max_int)%Z ->
     concat (map shown (seq 0 k)) = firstn (k * per_page) public) /\
  (forall n, (Z.of_nat (n * per_page) <= max_int)%Z -> length public <= n * per_page ->
     explore per_page (Some (Z.of_nat (S n))) db = ExplorePage (Z.of_nat (S n)) []) /\
  (forall z, (max_int < (z - 1) * Z.of_nat per_page)%Z ->
     explore per_page (Some z) db = PageAbort 500) /\
  (forall z, (z < 1)%Z -> explore per_page (Some z) db = explore per_page (Some 1%Z) db) /\
  explore per_page None db = explore per_page (Some 1%Z) db.
Proof.
  intros [Hpos Hcap] public shown.
  assert (Hn : forall n, (Z.of_nat (S n) <? 1)%Z = false) by (intros n; apply Z.ltb_ge; lia).
  assert (Hp : (per_page <? 1) = false) by (apply Nat.ltb_ge; lia).
  assert (Hlimit : (max_int <? Z.of_nat per_page)%Z = false)
    by (apply Z.ltb_ge; unfold max_int; lia).
  assert (Hoff : forall n, ((Z.of_nat (S n) - 1) * Z.of_nat per_page)%Z = Z.of_nat (n * per_page)).
  { intros n. rewrite Nat2Z.inj_mul. f_equal. lia. }
  assert (Hpage : forall n, (Z.of_nat (n * per_page) <= max_int)%Z ->
            explore per_page (Some (Z.of_nat (S n))) db
            = ExplorePage (Z.of_nat (S n)) (firstn per_page (skipn (n * per_page) public))).
  { intros n Hfit. unfold explore, paginate. rewrite Hn, Hp, Hlimit, Hoff.
    apply Z.ltb_ge in Hfit. rewrite Hfit, Nat2Z.id. reflexivity. }
  assert (Hshown : forall n, (Z.of_nat (n * per_page) <= max_int)%Z ->
            shown n = firstn per_page (skipn (n * per_page) public)).
  { intros n Hfit. unfold shown. now rewrite Hpage. }
  split; [exact Hpage|]. split; [|split; [|split; [|split]]].
  - induction k as [|k IH]; intros Hfit; [reflexivity|].
    assert (Hk : (Z.of_nat (k * per_page) <= max_int)%Z) by (simpl in Hfit; lia).
    rewrite seq_S, map_app, concat_app, IH by exact Hk. simpl.
    rewrite app_nil_r, Hshown by exact Hk.
    replace (per_page + k * per_page) with (k * per_page + per_page) by lia.
    now rewrite firstn_add.
  - intros n Hfit Hlen. rewrite Hpage by exact Hfit.
    rewrite skipn_all2 by exact Hlen. now destruct per_page.
  - intros z Hbig. unfold explore, paginate.
    assert (Hz : (z <? 1)%Z = false) by (apply Z.ltb_ge; unfold max_int in Hbig; nia).
    rewrite Hz, Hp, Hlimit. apply Z.ltb_lt in Hbig. now rewrite Hbig.
  - intros z Hz. unfold explore, paginate. apply Z.ltb_lt in Hz. now rewrite Hz.
  - reflexivity.
Qed.

(** ** Who may write *)

(** X9.  A request that comes without an authenticated user writes
    nothing but a new account: every route other than [register] sends it
    to the login view with the store as it was, and [register] leaves the
    posts, comments, follow edges, like edges and existing users alone. *)
Theorem unauthenticated_writes_nothing (now : datetime) (req : request)
    (v : principal) (db : DB.t) :
  is_authenticated v = false ->
  let db' := snd (handle now req v db) in
  (match req with
   | Register _ => exists added, DB.users db' = DB.users db ++ added /\ length added <= 1
   | _ => handle now req v db = (Redirect "login", db)
   end) /\
  DB.blogs db' = DB.blogs db /\
  DB.comments db' = DB.comments db /\
  DB.followers db' = DB.followers db /\
  DB.blog_likes db' = DB.blog_likes db /\
  DB.comment_likes db' = DB.comment_likes db.
Proof.
  intros Hauth db'.
  assert (Hdenied : forall view, login_required view v db = (Redirect "login"%string, db)).
  { intros view. unfold login_required. destruct v; try reflexivity. now rewrite Hauth. }
  unfold db'. destruct req; cbn [handle]; rewrite ?Hdenied; try (repeat split; reflexivity).
  assert (Hsame : exists added : list User.t,
            DB.users db = DB.users db ++ added /\ length added <= 1).
  { exists []. rewrite app_nil_r. simpl. auto. }
  unfold register. rewrite Hauth. destruct form as [[name email]|].
  - destruct (existsb _ _); simpl.
    + split; [exact Hsame | repeat split; reflexivity].
    + split; [|repeat split; reflexivity].
      eexists. split; [reflexivity|]. simpl. lia.
  - simpl. split; [exact Hsame | repeat split; reflexivity].
Qed.

Lemma wf_author_is_not (db : DB.t) (blog : Blog.t) (u : User.t) :
  wf db -> In blog (DB.blogs db) ->
  author_is_not db blog u = negb (Blog.user_id blog =? User.id u).
Proof.
  intros H Hb. unfold author_is_not. destruct (wf_Blog_author db blog H Hb) as [a Ha].
  rewrite Ha. apply Blog_author_stored in Ha. destruct Ha as [_ Hid].
  unfold User_eqb. now rewrite Hid.
Qed.

(** Updating the row of a key that occurs once. *)
Lemma find_update {E : Type} (key : E -> nat) (upd : E -> E) (tbl : list E) (k j : nat) :
  (forall e, key (upd e) = key e) ->
  find (fun e => key e =? j) (map (fun e => if key e =? k then upd e else e) tbl)
  = if j =? k then option_map upd (find (fun e => key e =? j) tbl)
    else find (fun e => key e =? j) tbl.
Proof.
  intros Hk. induction tbl as [|e tbl IH]; simpl; [now destruct (j =? k)|].
  destruct (Nat.eqb_spec (key e) k) as [Hek|Hek].
  - rewrite Hk. destruct (Nat.eqb_spec (key e) j) as [Hej|Hej].
    + assert (Hjk : j = k) by congruence. apply Nat.eqb_eq in Hjk. now rewrite Hjk.
    + exact IH.
  - destruct (Nat.eqb_spec (key e) j) as [Hej|Hej]; [|exact IH].
    assert (Hjk : j <> k) by congruence. apply Nat.eqb_neq in Hjk. now rewrite Hjk.
Qed.

(** X10.  Only its author edits or deletes a stored post: for anybody
    else both requests leave the store as it was.  The author's edit
    rewrites the title and the visibility flag of that post and nothing
    else: its id, author, creation time and featured flag stay, and so do
    all other posts and tables. *)
Theorem blog_writes_are_the_authors (id : nat) (u : User.t) (db : DB.t) (blog : Blog.t) :
  wf db ->
  Blog_get db id = Some blog ->
  (User.id u <> Blog.user_id blog ->
   (forall form, edit_blog id form u db = (Redirect "view_blog", db)) /\
   delete_blog id u db = (Redirect "view_blog", db)) /\
  (User.id u = Blog.user_id blog ->
   forall title is_public,
   let db' := snd (edit_blog id (Some (title, is_public)) u db) in
   Blog_get db' id
   = Some (Blog.mk id title is_public (Blog.is_featured blog) (Blog.date_created blog)
                   (Blog.user_id blog)) /\
   (forall j, j <> id -> Blog_get db' j = Blog_get db j) /\
   DB.users db' = DB.users db /\ DB.comments db' = DB.comments db /\
   DB.followers db' = DB.followers db /\ DB.blog_likes db' = DB.blog_likes db /\
   DB.comment_likes db' = DB.comment_likes db).
Proof.
  intros H Hget. pose proof (@Blog_get_stored db id blog Hget) as [Hin Hid].
  pose proof (wf_author_is_not db blog u H Hin) as Hauthor. split.
  - intros Hne. assert (Hnot : author_is_not db blog u = true).
    { rewrite Hauthor. apply negb_true_iff, Nat.eqb_neq. congruence. }
    unfold edit_blog, delete_blog. rewrite Hget, Hnot. auto.
  - intros Heq title is_public db'.
    assert (Hnot : author_is_not db blog u = false).
    { rewrite Hauthor. apply negb_false_iff, Nat.eqb_eq. congruence. }
    unfold db', edit_blog. rewrite Hget, Hnot. cbn [snd]. unfold Blog_get. cbn.
    set (upd := fun b : Blog.t =>
           Blog.mk (Blog.id b) title is_public (Blog.is_featured b) (Blog.date_created b)
                   (Blog.user_id b)).
    assert (Hfind : forall j,
              find (fun b => Blog.id b =? j)
                   (map (fun b => if Blog.id b =? Blog.id blog then upd b else b) (DB.blogs db))
              = if j =? Blog.id blog
                then option_map upd (find (fun b => Blog.id b =? j) (DB.blogs db))
                else find (fun b => Blog.id b =? j) (DB.blogs db)).
    { intros j. apply (find_update Blog.id upd). reflexivity. }
    repeat split.
    + rewrite Hfind, Hid, Nat.eqb_refl. unfold Blog_get in Hget. rewrite Hget. simpl.
      unfold upd. now rewrite Hid.
    + intros j Hj. rewrite Hfind, Hid. apply Nat.eqb_neq in Hj. now rewrite Hj.
Qed.

(** ** Edges, made and unmade *)

Lemma filter_snoc_miss {A : Type} (p : A -> bool) (l : list A) (x : A) :
  (forall y, In y l -> p y = true) -> p x = false -> filter p (l ++ [x]) = l.
Proof.
  intros Hl Hx. rewrite filter_app. simpl. rewrite Hx, app_nil_r. now apply filter_true_id.
Qed.

(** X11.  Making an edge and removing it again gives back the very store
    one started from: [follow] then [unfollow] when the target is stored
    and was not followed, [like_blog] then [unlike_blog] and
    [like_comment] then [unlike_comment] when the target is stored and
    was not liked. *)
Theorem edge_round_trips (now : datetime) (u : User.t) (db : DB.t) :
  (forall target, In (User.id target) (map User.id (DB.users db)) ->
     is_following db u target = false ->
     unfollow u target (follow now u target db) = db) /\
  (forall blog, In (Blog.id blog) (map Blog.id (DB.blogs db)) ->
     has_liked_blog db u blog = false ->
     unlike_blog u blog (like_blog now u blog db) = db) /\
  (forall comment, In (Comment.id comment) (map Comment.id (DB.comments db)) ->
     has_liked_comment db u comment = false ->
     unlike_comment u comment (like_comment now u comment db) = db).
Proof.
  split; [|split].
  - intros target Hin Hno.
    assert (Hyes : is_following (follow now u target db) u target = true).
    { rewrite is_following_edge by (now rewrite follow_users).
      now apply follow_edge_after_follow. }
    unfold unfollow. rewrite Hyes. unfold follow. rewrite Hno. cbn [negb].
    unfold followed_remove, followed_append. simpl.
    rewrite is_following_edge in Hno by exact Hin.
    rewrite filter_snoc_miss.
    + apply DB_eta.
    + intros r Hr. apply negb_true_iff.
      exact (proj1 (existsb_false_iff _ _) Hno r Hr).
    + cbn. now rewrite !Nat.eqb_refl.
  - intros blog Hin Hno.
    assert (Hyes : has_liked_blog (like_blog now u blog db) u blog = true).
    { unfold like_blog. rewrite Hno. cbn [negb]. rewrite has_liked_blog_edge by exact Hin.
      cbn. rewrite existsb_app. cbn. rewrite !Nat.eqb_refl. apply orb_true_r. }
    unfold unlike_blog. rewrite Hyes. unfold like_blog. rewrite Hno. cbn [negb].
    unfold liked_blogs_remove, liked_blogs_append. simpl.
    rewrite has_liked_blog_edge in Hno by exact Hin.
    rewrite filter_snoc_miss.
    + apply DB_eta.
    + intros r Hr. apply negb_true_iff.
      exact (proj1 (existsb_false_iff _ _) Hno r Hr).
    + cbn. now rewrite !Nat.eqb_refl.
  - intros comment Hin Hno.
    assert (Hyes : has_liked_comment (like_comment now u comment db) u comment = true).
    { unfold like_comment. rewrite Hno. cbn [negb]. rewrite has_liked_comment_edge by exact Hin.
      cbn. rewrite existsb_app. cbn. rewrite !Nat.eqb_refl. apply orb_true_r. }
    unfold unlike_comment. rewrite Hyes. unfold like_comment. rewrite Hno. cbn [negb].
    unfold liked_comments_remove, liked_comments_append. simpl.
    rewrite has_liked_comment_edge in Hno by exact Hin.
    rewrite filter_snoc_miss.
    + apply DB_eta.
    + intros r Hr. apply negb_true_iff.
      exact (proj1 (existsb_false_iff _ _) Hno r Hr).
    + cbn. now rewrite !Nat.eqb_refl.
Qed.

(** X12.  Following opens a private post and unfollowing closes it: for a
    private post with a stored author and an authenticated viewer other
    than the author, [can_view] is true in the store [follow] leaves and
    false in the store [unfollow] leaves. *)
Theorem follow_opens_unfollow_closes (now : datetime) (u a : User.t) (p : Blog.t) (db : DB.t) :
  Blog_author db p = Some a ->
  Blog.is_public p = false ->
  is_authenticated (LoggedIn u) = true ->
  User.id u <> User.id a ->
  can_view (follow now u a db) p (LoggedIn u) = Some true /\
  can_view (unfollow u a db) p (LoggedIn u) = Some false.
Proof.
  intros Ha Hpriv Hauth Hne.
  pose proof (Blog_author_stored db p a Ha) as [Hin Hid].
  assert (Hidb : (User.id u =? Blog.user_id p) = false)
    by (apply Nat.eqb_neq; congruence).
  assert (Hstored : In (User.id a) (map User.id (DB.users db))) by now apply in_map.
  assert (Hkept : forall db', DB.users db' = DB.users db -> Blog_author db' p = Some a).
  { intros db' Hsame. unfold Blog_author, User_get in *. now rewrite Hsame. }
  split.
  - unfold can_view. rewrite Hpriv. cbn [truthy andb]. rewrite Hauth, Hidb.
    rewrite (Hkept _ (follow_users now u a db)).
    rewrite is_following_edge by (now rewrite follow_users).
    now rewrite (follow_edge_after_follow now u a db Hstored).
  - unfold can_view. rewrite Hpriv. cbn [truthy andb]. rewrite Hauth, Hidb.
    rewrite (Hkept _ (unfollow_users u a db)).
    now rewrite unfollow_not_following.
Qed.

Lemma length_filter_split {A : Type} (p q : A -> bool) (l : list A) :
  length (filter p l)
  = length (filter (fun x => p x && q x) l) + length (filter (fun x => p x && negb (q x)) l).
Proof.
  induction l as [|x l IH]; simpl; [reflexivity|].
  destruct (p x), (q x); simpl; lia.
Qed.

Lemma filter_filter {A : Type} (p q : A -> bool) (l : list A) :
  filter p (filter q l) = filter (fun x => p x && q x) l.
Proof.
  induction l as [|x l IH]; simpl; [reflexivity|].
  destruct (q x); simpl; [destruct (p x); simpl; now rewrite IH|].
  rewrite IH. now rewrite andb_false_r.
Qed.

(** Under the schema constraints the followers of a user are as many as
    the follow edges that point at them. *)
Lemma wf_followers_count (db : DB.t) (user : User.t) :
  wf db ->
  followers_count db user
  = length (filter (fun r => Followers.followed_id r =? User.id user) (DB.followers db)).
Proof.
  intros H. unfold followers_count, User_followers. apply secondary_length.
  - exact (wf_users_pk H).
  - intros r Hr. now apply (wf_followers_fk H).
Qed.

(** X13.  [toggle_follow] on a stored user other than the caller flips
    [is_following], answers with the status of the new state and with the
    target's number of followers in the new store, and that number is one
    more than before after "followed" and one less after "unfollowed". *)
Theorem toggle_follow_reports_new_state (now : datetime) (username : string)
    (cu user : User.t) (db : DB.t) :
  wf db ->
  In cu (DB.users db) ->
  User_by_username db username = Some user ->
  User_eqb user cu = false ->
  let db' := snd (toggle_follow now username cu db) in
  is_following db' cu user = negb (is_following db cu user) /\
  (if is_following db cu user
   then fst (toggle_follow now username cu db)
        = Json 200 (FollowBody "unfollowed" (followers_count db' user)) /\
        S (followers_count db' user) = followers_count db user
   else fst (toggle_follow now username cu db)
        = Json 200 (FollowBody "followed" (followers_count db' user)) /\
        followers_count db' user = S (followers_count db user)).
Proof.
  intros H Hcu Hu Hne db'.
  pose proof (@wf_toggle_follow now username cu db H Hcu) as H'. fold db' in H'.
  pose proof (@User_by_username_stored db username user Hu) as Hin.
  assert (Hstored : In (User.id user) (map User.id (DB.users db))) by now apply in_map.
  assert (Hresp : fst (toggle_follow now username cu db)
                  = Json 200 (FollowBody (if is_following db cu user
                                          then "unfollowed" else "followed")
                                         (followers_count db' user))).
  { unfold db', toggle_follow. rewrite Hu, Hne. now destruct (is_following db cu user). }
  assert (Hdb' : db' = if is_following db cu user
                       then unfollow cu user db else follow now cu user db).
  { unfold db', toggle_follow. rewrite Hu, Hne. now destruct (is_following db cu user). }
  rewrite Hresp. clear Hresp.
  rewrite (wf_followers_count db user H), (wf_followers_count db' user H'), Hdb'.
  clear Hdb' H'. destruct (is_following db cu user) eqn:F; cbn [negb].
  - split; [apply unfollow_not_following|]. split; [reflexivity|].
    unfold unfollow. rewrite F. unfold followed_remove. simpl.
    rewrite is_following_edge in F by exact Hstored.
    rewrite filter_filter.
    rewrite (length_filter_split
               (fun r => Followers.followed_id r =? User.id user)
               (fun r => (Followers.follower_id r =? User.id cu)
                         && (Followers.followed_id r =? User.id user))
               (DB.followers db)).
    assert (Hone : length (filter (fun r => (Followers.followed_id r =? User.id user)
                      && ((Followers.follower_id r =? User.id cu)
                          && (Followers.followed_id r =? User.id user))) (DB.followers db)) = 1).
    { rewrite <- (@pair_count_one _ Followers.follower_id Followers.followed_id
                    (DB.followers db) (User.id cu) (User.id user) (wf_followers_pk H) F).
      f_equal. apply filter_ext. intros r.
      destruct (Followers.followed_id r =? User.id user); [reflexivity|].
      now rewrite andb_false_r. }
    rewrite Hone. reflexivity.
  - split.
    + rewrite is_following_edge by (now rewrite follow_users).
      now apply follow_edge_after_follow.
    + split; [reflexivity|]. unfold follow. rewrite F. unfold followed_append. simpl.
      rewrite filter_app, length_app. simpl. rewrite Nat.eqb_refl. simpl. lia.
Qed.

(** ** Usernames *)

Lemma users_kept_by_edges (db : DB.t) (now : datetime) (u : User.t) :
  (forall x, DB.users (follow now u x db) = DB.users db) /\
  (forall x, DB.users (unfollow u x db) = DB.users db) /\
  (forall x, DB.users (like_blog now u x db) = DB.users db) /\
  (forall x, DB.users (unlike_blog u x db) = DB.users db) /\
  (forall x, DB.users (like_comment now u x db) = DB.users db) /\
  (forall x, DB.users (unlike_comment u x db) = DB.users db).
Proof.
  repeat split; intros x.
  - apply follow_users.
  - apply unfollow_users.
  - unfold like_blog. now destruct (negb _).
  - unfold unlike_blog. now destruct (has_liked_blog _ _ _).
  - unfold like_comment. now destruct (negb _).
  - unfold unlike_comment. now destruct (has_liked_comment _ _ _).
Qed.

Lemma delete_comments_users (cs : list Comment.t) (db : DB.t) :
  DB.users (fold_right session_delete_comment db cs) = DB.users db.
Proof.
  induction cs as [|c cs IH]; [reflexivity|]. exact IH.
Qed.

(** Only [register] and [edit_profile] write to [users]. *)
Lemma handle_keeps_users (now : datetime) (req : request) (v : principal) (db : DB.t) :
  match req with
  | Register _ | EditProfile _ => True
  | _ => DB.users (snd (handle now req v db)) = DB.users db
  end.
Proof.
  assert (Hlr : forall view,
            (forall u, DB.users (snd (view u db)) = DB.users db) ->
            DB.users (snd (login_required view v db)) = DB.users db).
  { intros view Hview. unfold login_required. destruct v; try reflexivity.
    destruct (is_authenticated _); [apply Hview | reflexivity]. }
  destruct req; cbn [handle]; try exact I; apply Hlr; intros u.
  - unfold create_blog. now destruct form as [[? ?]|].
  - unfold edit_blog. destruct (Blog_get db id); [|reflexivity].
    destruct (author_is_not _ _ _); [reflexivity|]. now destruct form as [[? ?]|].
  - unfold delete_blog. destruct (Blog_get db id) as [blog|]; [|reflexivity].
    destruct (author_is_not _ _ _); [reflexivity|]. cbn.
    apply delete_comments_users.
  - unfold toggle_follow. destruct (User_by_username db username) as [user|]; [|reflexivity].
    destruct (User_eqb user u); [reflexivity|].
    destruct (is_following db u user); cbn [snd]; apply (users_kept_by_edges db now u).
  - unfold toggle_like_blog. destruct (Blog_get db id) as [blog|]; [|reflexivity].
    destruct (has_liked_blog db u blog); cbn [snd]; apply (users_kept_by_edges db now u).
  - unfold toggle_like_comment. destruct (Comment_get db id) as [c|]; [|reflexivity].
    destruct (has_liked_comment db u c); cbn [snd]; apply (users_kept_by_edges db now u).
  - unfold add_comment. destruct (Blog_get db blog_id); [|reflexivity].
    now destruct form.
  - unfold delete_comment. destruct (Comment_get db id) as [c|]; [|reflexivity].
    destruct (negb _).
    + destruct (Comment_blog db c); [|reflexivity]. destruct (negb _); [reflexivity|].
      now destruct commit_ok.
    + now destruct commit_ok.
Qed.

(** Renaming the rows of one id keeps usernames distinct when nobody else
    carries the new name. *)
Lemma rename_keeps_unique (c : nat) (name email : string) (l : list User.t) :
  NoDup (map User.id l) ->
  NoDup (map User.username l) ->
  (forall u, In u l -> User.username u = name -> User.id u = c) ->
  NoDup (map User.username
           (map (fun u => if User.id u =? c
                          then User.mk (User.id u) name email (User.is_active u) else u) l)).
Proof.
  set (rename := fun u : User.t =>
         if User.id u =? c then User.mk (User.id u) name email (User.is_active u) else u).
  induction l as [|x l IH]; simpl; intros Hid Hname Hfree; [constructor|].
  inversion Hid as [|? ? Hxid Hid']; subst. inversion Hname as [|? ? Hxname Hname']; subst.
  constructor; [|apply IH; auto].
  intros Hin. rewrite map_map in Hin. apply in_map_iff in Hin.
  destruct Hin as [y [Hy Hyin]]. unfold rename in Hy.
  destruct (Nat.eqb_spec (User.id x) c) as [Hxc|Hxc];
    destruct (Nat.eqb_spec (User.id y) c) as [Hyc|Hyc]; simpl in Hy.
  - apply Hxid. rewrite Hxc, <- Hyc. now apply in_map.
  - apply Hyc. apply Hfree; auto.
  - apply Hxc. apply Hfree; auto.
  - apply Hxname. rewrite <- Hy. now apply in_map.
Qed.

Lemma username_lookup (db : DB.t) (u : User.t) :
  usernames_unique db -> In u (DB.users db) ->
  User_by_username db (User.username u) = Some u.
Proof.
  unfold usernames_unique, User_by_username. intros Hnd Hin.
  destruct (find _ _) as [x|] eqn:F.
  - apply find_some in F. destruct F as [Hx Heq]. apply String.eqb_eq in Heq.
    f_equal. now apply (@NoDup_map_inj_in _ _ User.username (DB.users db) x u Hnd).
  - apply (find_none _ _ F) in Hin. rewrite String.eqb_refl in Hin. discriminate.
Qed.

(** X14.  In every reachable store the usernames are pairwise distinct,
    so the lookup by username that [toggle_follow] and [profile] start
    with finds, for the name of a stored user, that user and no other. *)
Theorem reachable_usernames_unique (db : DB.t) :
  reachable db ->
  usernames_unique db /\
  (forall u, In u (DB.users db) -> User_by_username db (User.username u) = Some u).
Proof.
  intros Hr.
  assert (Hu : usernames_unique db).
  { induction Hr as [|now req session db Hr IH]; [constructor|].
    pose proof (reachable_wf Hr) as H.
    pose proof (handle_keeps_users now req (current_user_of db session) db) as Hkeep.
    unfold usernames_unique in *.
    destruct req; try (rewrite Hkeep; exact IH); cbn [handle].
    - unfold register. destruct (is_authenticated _); [exact IH|].
      destruct form as [[name email]|]; [|exact IH].
      destruct (existsb _ _) eqn:Hex; [exact IH|]. cbn.
      apply NoDup_map_snoc; [exact IH|]. cbn. intros Hin.
      apply in_map_iff in Hin. destruct Hin as [x [Hx Hxin]].
      apply (proj1 (existsb_false_iff _ _) Hex) in Hxin.
      rewrite Hx, String.eqb_refl in Hxin. discriminate.
    - unfold login_required. destruct (current_user_of db session) as [| |u]; try exact IH.
      destruct (is_authenticated _); [|exact IH].
      unfold edit_profile. destruct form as [[name email]|]; [|exact IH].
      destruct (existsb _ _) eqn:Hex; [exact IH|]. cbn. unfold User_eqb.
      apply rename_keeps_unique; [exact (wf_users_pk H) | exact IH |].
      intros x Hx Hname. apply (proj1 (existsb_false_iff _ _) Hex) in Hx.
      apply String.eqb_eq in Hname. rewrite Hname in Hx. cbn in Hx.
      apply negb_false_iff in Hx. unfold User_eqb in Hx. now apply Nat.eqb_eq in Hx. }
  split; [exact Hu|]. intros u Hin. now apply username_lookup.
Qed.

(** ** Requests that cannot fail *)

Lemma wf_Comment_blog (db : DB.t) (c : Comment.t) :
  wf db -> In c (DB.comments db) -> exists blog, Comment_blog db c = Some blog.
Proof.
  intros H Hc. unfold Comment_blog, Blog_get. apply find_key_in.
  now apply (wf_comments_fk H).
Qed.

(** X15.  In a reachable store no dangling reference makes a view fail:
    [can_view] answers for every stored post and every viewer, so
    [view_blog] shows the post when the answer is true and redirects to
    the home page when it is false; for an id the store can take as a
    parameter (at most [max_int]), [view_blog] answers 404 when no post
    has it, and [delete_comment] never stops on a comment without a
    post. *)
Theorem reachable_views_do_not_fail (db : DB.t) :
  reachable db ->
  (forall id v blog, Blog_get db id = Some blog ->
     exists allowed,
       can_view db blog v = Some allowed /\
       view_blog id v db
       = if allowed
         then RenderBlog blog (sort_desc Comment.date_created (Blog_comments db blog))
         else Redirect "index") /\
  (forall id v, (Z.of_nat id <= max_int)%Z ->
     Blog_get db id = None -> view_blog id v db = Abort 404) /\
  (forall commit_ok id u, (Z.of_nat id <= max_int)%Z ->
     fst (delete_comment commit_ok id u db) <> Abort 500).
Proof.
  intros Hr. pose proof (reachable_wf Hr) as H. split; [|split].
  - intros id v blog Hget. pose proof (@Blog_get_stored db id blog Hget) as [Hin _].
    eexists. split; [apply (wf_can_view db blog v H Hin)|].
    unfold view_blog. rewrite Hget, (wf_can_view db blog v H Hin).
    now destruct (_ || _).
  - intros id v _ Hget. unfold view_blog. now rewrite Hget.
  - intros commit_ok id u _. unfold delete_comment.
    destruct (Comment_get db id) as [c|] eqn:Hget; [|discriminate].
    pose proof (@Comment_get_stored db id c Hget) as [Hin _].
    destruct (wf_Comment_blog db c H Hin) as [blog Hblog]. rewrite Hblog.
    destruct (negb _); [destruct (negb _)|]; try discriminate;
      destruct commit_ok; discriminate.
Qed.

(** ** Comments and posts, made and unmade *)

Lemma filter_key_fresh {E : Type} (key : E -> nat) (tbl : list E) (k : nat) :
  ~ In k (map key tbl) -> filter (fun e => negb (key e =? k)) tbl = tbl.
Proof.
  intros Hk. apply filter_true_id. intros e He. apply negb_true_iff, Nat.eqb_neq.
  intros Heq. apply Hk. rewrite <- Heq. now apply in_map.
Qed.

(** X16.  A comment that has just been added can be taken back: the post
    counts one comment more, every other post as many as before, and
    [delete_comment] by the same user on the id [add_comment] returned
    succeeds and gives back the very store one started from. *)
Theorem add_then_delete_comment (now : datetime) (blog_id : nat) (content : string)
    (u : User.t) (db : DB.t) (blog : Blog.t) :
  wf db ->
  Blog_get db blog_id = Some blog ->
  let comment := new_comment now content u blog db in
  let db1 := snd (add_comment now blog_id (Some content) u db) in
  Blog_comments_count db1 blog = S (Blog_comments_count db blog) /\
  (forall other, Blog.id other <> Blog.id blog ->
     Blog_comments_count db1 other = Blog_comments_count db other) /\
  delete_comment true (Comment.id comment) u db1
  = (Json 200 (SuccessBody "Comment deleted successfully"), db).
Proof.
  intros H Hget comment db1.
  assert (Hfresh : ~ In (Comment.id comment) (map Comment.id (DB.comments db))).
  { unfold comment, new_comment. cbn. apply next_id_fresh. }
  assert (Hdb1 : db1 = session_add_comment comment db).
  { unfold db1, add_comment. now rewrite Hget. }
  assert (Hmine : Comment.user_id comment = User.id u) by reflexivity.
  assert (Hpost : Comment.blog_id comment = Blog.id blog) by reflexivity.
  clearbody comment db1. subst db1. split; [|split].
  - unfold Blog_comments_count, Blog_comments, session_add_comment. cbn.
    rewrite filter_app, length_app. cbn. rewrite Hpost, Nat.eqb_refl. cbn. lia.
  - intros other Hother. unfold Blog_comments_count, Blog_comments, session_add_comment. cbn.
    rewrite filter_app, length_app. cbn.
    assert (Hne : (Comment.blog_id comment =? Blog.id other) = false)
      by (apply Nat.eqb_neq; congruence).
    rewrite Hne. cbn. lia.
  - unfold delete_comment.
    assert (Hfound : Comment_get (session_add_comment comment db) (Comment.id comment)
                     = Some comment).
    { unfold Comment_get, session_add_comment. cbn.
      rewrite find_snoc_none by exact (@find_key_none _ Comment.id _ _ Hfresh).
      now rewrite Nat.eqb_refl. }
    rewrite Hfound, Hmine, Nat.eqb_refl. cbn [negb]. f_equal.
    rewrite session_delete_comment_rows
      by (intros r Hr; exact (proj1 (wf_comment_likes_fk H r Hr))).
    unfold session_add_comment. cbn.
    rewrite filter_app. cbn. rewrite Nat.eqb_refl. cbn. rewrite app_nil_r.
    rewrite (filter_key_fresh Comment.id (DB.comments db) _ Hfresh).
    rewrite (filter_key_fresh CommentLikes.comment_id (DB.comment_likes db)).
    + apply DB_eta.
    + intros Hin. apply Hfresh. apply in_map_iff in Hin. destruct Hin as [r [Hr Hrin]].
      rewrite <- Hr. now apply (wf_comment_likes_fk H).
Qed.

(** X17.  A post that has just been created is stored under the id the
    store gave it, with the caller as author and not featured; its author
    can open it, and an anonymous visitor can exactly when it is public;
    [delete_blog] by the author on that id gives back the very store one
    started from. *)
Theorem create_then_delete_blog (now : datetime) (title : string) (is_public : bool)
    (u : User.t) (db : DB.t) :
  wf db ->
  In u (DB.users db) ->
  is_authenticated (LoggedIn u) = true ->
  let blog := Blog.mk (next_id (map Blog.id (DB.blogs db))) title is_public false now
                      (User.id u) in
  let db1 := snd (create_blog now (Some (title, is_public)) u db) in
  Blog_get db1 (Blog.id blog) = Some blog /\
  can_view db1 blog (LoggedIn u) = Some true /\
  can_view db1 blog AnonymousUser = Some is_public /\
  delete_blog (Blog.id blog) u db1 = (Redirect "profile", db).
Proof.
  intros H Hu Hauth blog db1.
  assert (Hfresh : ~ In (Blog.id blog) (map Blog.id (DB.blogs db))).
  { unfold blog. cbn. apply next_id_fresh. }
  assert (Hdb1 : db1 = DB.mk (DB.users db) (DB.blogs db ++ [blog]) (DB.comments db)
                             (DB.followers db) (DB.blog_likes db) (DB.comment_likes db))
    by reflexivity.
  assert (H1 : wf db1) by exact (@wf_create_blog now (Some (title, is_public)) u db H Hu).
  assert (Hmine : Blog.user_id blog = User.id u) by reflexivity.
  assert (Hflag : Blog.is_public blog = is_public) by reflexivity.
  clearbody blog db1.
  assert (Hin1 : In blog (DB.blogs db1)).
  { rewrite Hdb1. cbn. apply in_app_iff. right. now left. }
  assert (Hfound : Blog_get db1 (Blog.id blog) = Some blog).
  { rewrite Hdb1. unfold Blog_get. cbn.
    rewrite find_snoc_none by exact (@find_key_none _ Blog.id _ _ Hfresh).
    now rewrite Nat.eqb_refl. }
  split; [exact Hfound|]. split; [|split].
  - rewrite (wf_can_view db1 blog _ H1 Hin1), Hauth, Hmine, Nat.eqb_refl. cbn.
    now rewrite orb_true_r.
  - rewrite (wf_can_view db1 blog _ H1 Hin1), Hflag. cbn. now rewrite orb_false_r.
  - unfold delete_blog. rewrite Hfound.
    rewrite (wf_author_is_not db1 blog u H1 Hin1), Hmine, Nat.eqb_refl. cbn [negb]. f_equal.
    assert (Hnone : Blog_comments db1 blog = []).
    { unfold Blog_comments. rewrite Hdb1. cbn. apply filter_false_nil.
      intros c Hc. apply Nat.eqb_neq. intros Heq. apply Hfresh. rewrite <- Heq.
      now apply (wf_comments_fk H). }
    rewrite (session_delete_blog_wf blog H1). cbv zeta.
    rewrite Hnone. cbn [fold_right]. rewrite Hdb1. cbn.
    rewrite filter_app. cbn. rewrite Nat.eqb_refl. cbn. rewrite app_nil_r.
    rewrite (filter_key_fresh Blog.id (DB.blogs db) _ Hfresh).
    rewrite (filter_key_fresh BlogLikes.blog_id (DB.blog_likes db)).
    + apply DB_eta.
    + intros Hin. apply Hfresh. apply in_map_iff in Hin. destruct Hin as [r [Hr Hrin]].
      rewrite <- Hr. now apply (wf_blog_likes_fk H).
Qed.

(** ** Likes and deletions leave the rest alone *)

(** X18.  A like toggle touches the like rows of its (user, target) pair
    only: an unknown id leaves the store as it was, and is answered 404
    when the store can take it as a parameter (at most [max_int]);
    otherwise every other table and every like row of another user or
    another target is as before. *)
Theorem toggle_like_frame (now : datetime) (id : nat) (u : User.t) (db : DB.t) :
  match Blog_get db id with
  | None => snd (toggle_like_blog now id u db) = db /\
            ((Z.of_nat id <= max_int)%Z -> fst (toggle_like_blog now id u db) = Abort 404)
  | Some blog =>
      let db' := snd (toggle_like_blog now id u db) in
      let other r := negb ((BlogLikes.user_id r =? User.id u)
                           && (BlogLikes.blog_id r =? Blog.id blog)) in
      DB.users db' = DB.users db /\ DB.blogs db' = DB.blogs db /\
      DB.comments db' = DB.comments db /\ DB.followers db' = DB.followers db /\
      DB.comment_likes db' = DB.comment_likes db /\
      filter other (DB.blog_likes db') = filter other (DB.blog_likes db)
  end /\
  match Comment_get db id with
  | None => snd (toggle_like_comment now id u db) = db /\
            ((Z.of_nat id <= max_int)%Z -> fst (toggle_like_comment now id u db) = Abort 404)
  | Some comment =>
      let db' := snd (toggle_like_comment now id u db) in
      let other r := negb ((CommentLikes.user_id r =? User.id u)
                           && (CommentLikes.comment_id r =? Comment.id comment)) in
      DB.users db' = DB.users db /\ DB.blogs db' = DB.blogs db /\
      DB.comments db' = DB.comments db /\ DB.followers db' = DB.followers db /\
      DB.blog_likes db' = DB.blog_likes db /\
      filter other (DB.comment_likes db') = filter other (DB.comment_likes db)
  end.
Proof.
  assert (Hidem : forall (A : Type) (p : A -> bool) (l : list A),
            filter p (filter p l) = filter p l).
  { intros A p l. rewrite filter_filter. apply filter_ext. intros x. now destruct (p x). }
  split.
  - destruct (Blog_get db id) as [blog|] eqn:Hget.
    + cbv zeta. rewrite (@toggle_like_blog_store now id u db blog Hget). cbn.
      repeat split. destruct (existsb _ _).
      * apply Hidem.
      * rewrite filter_app. cbn. rewrite !Nat.eqb_refl. cbn. apply app_nil_r.
    + unfold toggle_like_blog. rewrite Hget. now split.
  - destruct (Comment_get db id) as [comment|] eqn:Hget.
    + cbv zeta. rewrite (@toggle_like_comment_store now id u db comment Hget). cbn.
      repeat split. destruct (existsb _ _).
      * apply Hidem.
      * rewrite filter_app. cbn. rewrite !Nat.eqb_refl. cbn. apply app_nil_r.
    + unfold toggle_like_comment. rewrite Hget. now split.
Qed.

(** What deleting a list of comments leaves, row for row. *)
Lemma delete_comments_rows (cs : list Comment.t) (db : DB.t) :
  wf db ->
  let gone i := existsb (fun c => i =? Comment.id c) cs in
  let db1 := fold_right session_delete_comment db cs in
  DB.comments db1 = filter (fun c => negb (gone (Comment.id c))) (DB.comments db) /\
  DB.comment_likes db1
  = filter (fun r => negb (gone (CommentLikes.comment_id r))) (DB.comment_likes db).
Proof.
  intros Hwf. induction cs as [|c cs IH]; cbv zeta; cbn [fold_right existsb].
  - split; symmetry; apply filter_true_id; reflexivity.
  - cbv zeta in IH. destruct IH as [Hc Hl].
    rewrite (session_delete_comment_wf c (wf_delete_comments cs Hwf)). cbn.
    rewrite Hc, Hl, !filter_filter.
    split; apply filter_ext; intros x; now rewrite negb_orb.
Qed.

(** X19.  Deleting a post removes what belongs to it and nothing else:
    users and follow edges stay, and the posts, comments and like rows
    left are, in their order, the rows of the other posts, the comments
    on the other posts, the likes on the other posts and the likes on
    comments of the other posts. *)
Theorem delete_blog_removes_nothing_else (id : nat) (u : User.t) (db : DB.t) (blog : Blog.t) :
  wf db ->
  Blog_get db id = Some blog ->
  author_is_not db blog u = false ->
  let db' := snd (delete_blog id u db) in
  DB.users db' = DB.users db /\
  DB.followers db' = DB.followers db /\
  DB.blogs db' = filter (fun b => negb (Blog.id b =? id)) (DB.blogs db) /\
  DB.comments db' = filter (fun c => negb (Comment.blog_id c =? id)) (DB.comments db) /\
  DB.blog_likes db' = filter (fun r => negb (BlogLikes.blog_id r =? id)) (DB.blog_likes db) /\
  DB.comment_likes db'
  = filter (fun r => negb (existsb (fun c => CommentLikes.comment_id r =? Comment.id c)
                                   (Blog_comments db blog)))
           (DB.comment_likes db).
Proof.
  intros H Hget Hauthor db'. unfold db', delete_blog. rewrite Hget, Hauthor. cbn [snd].
  pose proof (@Blog_get_stored db id blog Hget) as [_ Hid].
  destruct (delete_comments_tables (Blog_comments db blog) H) as [Hu [Hb [Hf [Hl _]]]].
  destruct (delete_comments_rows (Blog_comments db blog) db H) as [Hc Hcl].
  rewrite (session_delete_blog_wf blog H). cbn. rewrite Hu, Hb, Hf, Hl, Hc, Hcl, Hid.
  repeat split. apply filter_ext_in. intros c Hcin. f_equal.
  apply Bool.eq_iff_eq_true. rewrite existsb_exists, Nat.eqb_eq. split.
  - intros [d [Hd Heq]]. apply Nat.eqb_eq in Heq. unfold Blog_comments in Hd.
    apply filter_In in Hd. destruct Hd as [Hd Hdb]. apply Nat.eqb_eq in Hdb.
    assert (c = d)
      by exact (@NoDup_map_inj_in _ _ Comment.id (DB.comments db) c d
                  (wf_comments_pk H) Hcin Hd Heq).
    subst d. congruence.
  - intros Hcb. exists c. split; [|apply Nat.eqb_refl].
    unfold Blog_comments. apply filter_In. split; [exact Hcin|]. apply Nat.eqb_eq. congruence.
Qed.

Lemma delete_comments_blog_likes (cs : list Comment.t) (db : DB.t) :
  DB.blog_likes (fold_right session_delete_comment db cs) = DB.blog_likes db.
Proof.
  induction cs as [|c cs IH]; [reflexivity|]. exact IH.
Qed.

Lemma delete_comments_keep_unloaded (cs : list Comment.t) (db : DB.t) (r : CommentLikes.row) :
  In r (DB.comment_likes db) ->
  ~ In (CommentLikes.user_id r) (map User.id (DB.users db)) ->
  In r (DB.comment_likes (fold_right session_delete_comment db cs)).
Proof.
  intros Hr Huser. induction cs as [|c cs IH]; [exact Hr|].
  cbn [fold_right]. unfold session_delete_comment at 1. cbv zeta. cbn [DB.comment_likes].
  apply filter_In. split; [exact IH|]. unfold Comment_liked_by.
  rewrite (@secondary_not_loaded _ _ CommentLikes.comment_id CommentLikes.user_id User.id).
  - now rewrite andb_false_r.
  - now rewrite delete_comments_users.
Qed.

(** X24.  The cascade of [delete_blog] goes through [liked_by]: a like row
    on a post or on a comment whose user is not stored is not loaded and
    is left in the store by the deletion, whatever it points to. *)
Theorem delete_blog_leaves_unloaded_likes (id : nat) (u : User.t) (db : DB.t) (blog : Blog.t) :
  Blog_get db id = Some blog ->
  author_is_not db blog u = false ->
  let db' := snd (delete_blog id u db) in
  (forall r, In r (DB.blog_likes db) ->
     ~ In (BlogLikes.user_id r) (map User.id (DB.users db)) -> In r (DB.blog_likes db')) /\
  (forall r, In r (DB.comment_likes db) ->
     ~ In (CommentLikes.user_id r) (map User.id (DB.users db)) ->
     In r (DB.comment_likes db')).
Proof.
  intros Hget Hauthor db'. unfold db', delete_blog. rewrite Hget, Hauthor. cbn [snd].
  unfold session_delete_blog. cbv zeta. cbn [DB.blog_likes DB.comment_likes]. split.
  - intros r Hr Huser. apply filter_In. split.
    + now rewrite delete_comments_blog_likes.
    + unfold Blog_liked_by.
      rewrite (@secondary_not_loaded _ _ BlogLikes.blog_id BlogLikes.user_id User.id).
      * now rewrite andb_false_r.
      * now rewrite delete_comments_users.
  - intros r Hr Huser. now apply delete_comments_keep_unloaded.
Qed.

(** ** Accounts *)

(** X20.  [register] refuses a username or an email that a stored
    account has and changes nothing; otherwise it stores one new active
    account that can be found by its id and by its name, follows nobody,
    has no follower, no post and no like, and every account stored before
    is still there. *)
Theorem register_opens_empty_account (name email : string) (v : principal) (db : DB.t) :
  wf db ->
  is_authenticated v = false ->
  let u := User.mk (next_id (map User.id (DB.users db))) name email true in
  let db' := snd (register (Some (name, email)) v db) in
  if existsb (fun x => String.eqb (User.username x) name
                       || String.eqb (User.email x) email) (DB.users db)
  then register (Some (name, email)) v db = (Abort 500, db)
  else fst (register (Some (name, email)) v db) = Redirect "login" /\
       DB.users db' = DB.users db ++ [u] /\
       User_get db' (User.id u) = Some u /\
       User_by_username db' name = Some u /\
       is_authenticated (LoggedIn u) = true /\
       User_followed db' u = [] /\ User_followers db' u = [] /\
       User_blogs db' u = [] /\
       User_liked_blogs db' u = [] /\ User_liked_comments db' u = [].
Proof.
  intros H Hauth u db'. unfold db', register. rewrite Hauth.
  destruct (existsb _ _) eqn:Hex; [reflexivity|]. cbn [fst snd].
  assert (Hfresh : ~ In (User.id u) (map User.id (DB.users db))).
  { unfold u. cbn. apply next_id_fresh. }
  assert (Hid : User.id u = next_id (map User.id (DB.users db))) by reflexivity.
  assert (Hname : User.username u = name) by reflexivity.
  assert (Hactive : User.is_active u = true) by reflexivity.
  change (User.mk (next_id (map User.id (DB.users db))) name email true) with u.
  clearbody u.
  split; [reflexivity|]. split; [reflexivity|]. split; [|split; [|split]].
  - unfold User_get. cbn.
    rewrite find_snoc_none by exact (@find_key_none _ User.id _ _ Hfresh).
    now rewrite Nat.eqb_refl.
  - unfold User_by_username. cbn. rewrite find_snoc_none.
    + now rewrite Hname, String.eqb_refl.
    + destruct (find _ _) as [x|] eqn:F; [|reflexivity].
      apply find_some in F. destruct F as [Hx Heq].
      pose proof (proj1 (existsb_false_iff _ _) Hex x Hx) as Hfree.
      cbv beta in Hfree. rewrite Heq in Hfree. discriminate.
  - cbn. exact Hactive.
  - repeat split.
    + unfold User_followed. apply secondary_nil_rows. cbn. intros r Hr Heq.
      apply Hfresh. rewrite <- Heq. now apply (wf_followers_fk H).
    + unfold User_followers. apply secondary_nil_rows. cbn. intros r Hr Heq.
      apply Hfresh. rewrite <- Heq. now apply (wf_followers_fk H).
    + unfold User_blogs. cbn. apply filter_false_nil. intros b Hb.
      apply Nat.eqb_neq. intros Heq. apply Hfresh. rewrite <- Heq.
      now apply (wf_blogs_fk H).
    + unfold User_liked_blogs. apply secondary_nil_rows. cbn. intros r Hr Heq.
      apply Hfresh. rewrite <- Heq. now apply (wf_blog_likes_fk H).
    + unfold User_liked_comments. apply secondary_nil_rows. cbn. intros r Hr Heq.
      apply Hfresh. rewrite <- Heq. now apply (wf_comment_likes_fk H).
Qed.

(** X21.  The dashboard of a signed-in user lists all their posts, the
    private ones included, newest first, and is the list their own
    profile page shows them; without an authenticated user it sends to
    the login view. *)
Theorem dashboard_is_own_profile (u : User.t) (db : DB.t) :
  usernames_unique db ->
  In u (DB.users db) ->
  (is_authenticated (LoggedIn u) = true ->
   dashboard (LoggedIn u) db = DashboardPage (page_blogs (dashboard (LoggedIn u) db)) /\
   page_blogs (dashboard (LoggedIn u) db)
   = page_blogs (profile (User.username u) (LoggedIn u) db) /\
   newest_first (page_blogs (dashboard (LoggedIn u) db)) /\
   (forall b, In b (page_blogs (dashboard (LoggedIn u) db)) <->
      In b (DB.blogs db) /\ Blog.user_id b = User.id u)) /\
  (is_authenticated (LoggedIn u) = false -> dashboard (LoggedIn u) db = PageRedirect "login") /\
  dashboard AnonymousUser db = PageRedirect "login".
Proof.
  intros Hnames Hin. split; [|split; [|reflexivity]].
  - intros Hauth. unfold dashboard, profile.
    rewrite (username_lookup db u Hnames Hin), Hauth, Nat.eqb_refl. cbn.
    split; [reflexivity|]. split; [reflexivity|]. split; [apply sort_desc_sorted|].
    intros b. split.
    + intros Hb. apply (Permutation_in _ (sort_desc_perm _ _)) in Hb.
      unfold User_blogs in Hb. apply filter_In in Hb. now rewrite Nat.eqb_eq in Hb.
    + intros Hb. apply (Permutation_in _ (Permutation_sym (sort_desc_perm _ _))).
      unfold User_blogs. apply filter_In. now rewrite Nat.eqb_eq.
  - intros Hauth. unfold dashboard. now rewrite Hauth.
Qed.

(** What [toggle_follow] does to the store when it gets past its guards. *)
Lemma toggle_follow_store (now : datetime) (username : string) (cu user : User.t) (db : DB.t) :
  User_by_username db username = Some user ->
  User_eqb user cu = false ->
  snd (toggle_follow now username cu db)
  = DB.mk (DB.users db) (DB.blogs db) (DB.comments db)
      (let hit r := (Followers.follower_id r =? User.id cu)
                    && (Followers.followed_id r =? User.id user) in
       if existsb hit (DB.followers db)
       then filter (fun r => negb (hit r)) (DB.followers db)
       else DB.followers db ++ [Followers.mk (User.id cu) (User.id user) now])
      (DB.blog_likes db) (DB.comment_likes db).
Proof.
  intros Hu Hne. unfold toggle_follow. rewrite Hu, Hne.
  pose proof (@User_by_username_stored db username user Hu) as Hin.
  pose proof (is_following_edge db cu user (in_map User.id _ _ Hin)) as Hedge.
  unfold follow_edge in Hedge. cbv zeta. rewrite <- Hedge.
  destruct (is_following db cu user) eqn:F; cbn [snd].
  - unfold unfollow. now rewrite F.
  - unfold follow. now rewrite F.
Qed.

(** X22.  Two follow toggles in a row by the same caller on the same
    username bring [is_following] and the number of followers back to
    what they were, for every pair and every user. *)
Theorem toggle_follow_twice_restores (now1 now2 : datetime) (username : string)
    (cu : User.t) (db : DB.t) :
  NoDup (map Followers.pk (DB.followers db)) ->
  let db2 := snd (toggle_follow now2 username cu (snd (toggle_follow now1 username cu db))) in
  forall a b, is_following db2 a b = is_following db a b /\
              followers_count db2 b = followers_count db b.
Proof.
  intros Hnd db2.
  assert (Hsame : DB.users db2 = DB.users db /\
                  Permutation (map Followers.pk (DB.followers db2))
                              (map Followers.pk (DB.followers db))).
  { unfold db2. destruct (User_by_username db username) as [user|] eqn:Hu.
    - destruct (User_eqb user cu) eqn:Hne.
      + unfold toggle_follow. rewrite Hu, Hne. cbn. rewrite Hu, Hne. cbn. auto.
      + rewrite (toggle_follow_store now1 username cu user db Hu Hne).
        match goal with
        | |- context [toggle_follow now2 username cu ?d] =>
            rewrite (toggle_follow_store now2 username cu user d Hu Hne)
        end. cbn.
        split; [reflexivity|].
        apply (toggle_twice_perm Followers.follower_id Followers.followed_id); auto.
    - unfold toggle_follow. rewrite Hu. cbn. rewrite Hu. cbn. auto. }
  destruct Hsame as [Hu HP]. intros a b. split.
  - unfold is_following, User_followed. rewrite Hu. now apply secondary_member_perm.
  - unfold followers_count, User_followers. rewrite Hu.
    apply secondary_length_perm. now apply swap_pairs.
Qed.

(** ** Upload names *)

Lemma after_last_dot_none (filename : string) :
  has_dot filename = false -> after_last_dot filename = None.
Proof.
  induction filename as [|c rest IH]; cbn; [reflexivity|].
  intros H. apply orb_false_iff in H. destruct H as [Hc Hrest].
  now rewrite (IH Hrest), Hc.
Qed.

Lemma after_last_dot_append (name ext : string) :
  has_dot ext = false -> after_last_dot (name ++ "." ++ ext) = Some ext.
Proof.
  intros Hext. induction name as [|c rest IH]; cbn.
  - now rewrite (after_last_dot_none ext Hext).
  - cbn in IH. now rewrite IH.
Qed.

Lemma has_dot_append (name ext : string) : has_dot (name ++ "." ++ ext) = true.
Proof.
  induction name as [|c rest IH]; cbn; [reflexivity|].
  cbn in IH. rewrite IH. apply orb_true_r.
Qed.

(** X23.  [allowed_file] rejects a name without a dot and otherwise
    judges a name by the text after its last dot alone, lower-cased: what
    stands before that dot, earlier extensions included, plays no part. *)
Theorem allowed_file_reads_last_extension (lower : string -> string)
    (allowed : list string) :
  (forall name, has_dot name = false -> allowed_file lower allowed name = false) /\
  (forall name ext, has_dot ext = false ->
     allowed_file lower allowed (name ++ "." ++ ext)
     = existsb (String.eqb (lower ext)) allowed) /\
  (forall name name' ext, has_dot ext = false ->
     allowed_file lower allowed (name ++ "." ++ ext)
     = allowed_file lower allowed (name' ++ "." ++ ext)).
Proof.
  assert (Hlast : forall name ext, has_dot ext = false ->
            allowed_file lower allowed (name ++ "." ++ ext)
            = existsb (String.eqb (lower ext)) allowed).
  { intros name ext Hext. unfold allowed_file.
    now rewrite has_dot_append, (after_last_dot_append name ext Hext). }
  split; [|split].
  - intros name Hname. unfold allowed_file. now rewrite Hname.
  - exact Hlast.
  - intros name name' ext Hext. now rewrite !Hlast.
Qed.

(** ** The further properties at the sample data *)

Lemma sample_db_wf : wf sample_db.
Proof. exact (reachable_wf sample_db_reachable). Qed.

Lemma home_lists_only_viewable_witness :
  (forall l, Permutation (nodup Blog_eq_dec l) (nodup Blog_eq_dec l)) /\
  wf sample_db /\
  In p1 (recent_of (index (nodup Blog_eq_dec) (LoggedIn bob) sample_db)) /\
  can_view sample_db p1 (LoggedIn bob) = Some true.
Proof.
  assert (Hset : forall l, Permutation (nodup Blog_eq_dec l) (nodup Blog_eq_dec l))
    by (intros l; apply Permutation_refl).
  assert (Hin : In p1 (recent_of (index (nodup Blog_eq_dec) (LoggedIn bob) sample_db)))
    by (cbn; tauto).
  split; [exact Hset|]. split; [exact sample_db_wf|]. split; [exact Hin|].
  exact (home_lists_only_viewable (nodup Blog_eq_dec) (LoggedIn bob) sample_db
           Hset sample_db_wf p1 (or_intror Hin)).
Defined.

Lemma profile_lists_viewable_witness :
  wf sample_db /\
  profile "alice" AnonymousUser sample_db = ProfilePage alice [] /\
  profile "alice" (LoggedIn bob) sample_db = ProfilePage alice [p1] /\
  profile "carol" (LoggedIn bob) sample_db = PageAbort 404.
Proof.
  split; [exact sample_db_wf|].
  pose proof (profile_lists_viewable "alice" AnonymousUser sample_db sample_db_wf) as Ha.
  pose proof (profile_lists_viewable "alice" (LoggedIn bob) sample_db sample_db_wf) as Hb.
  pose proof (profile_lists_viewable "carol" (LoggedIn bob) sample_db sample_db_wf) as Hc.
  cbn in Ha, Hb, Hc. destruct Ha as [Ha _], Hb as [Hb _]. auto.
Defined.

Lemma explore_pages_witness :
  0 < 2 <= 100 /\
  explore 2 (Some 1%Z) db_five_public
  = ExplorePage 1 [five_public 5 "e"; five_public 4 "d"] /\
  explore 2 (Some 3%Z) db_five_public = ExplorePage 3 [five_public 1 "a"] /\
  explore 2 (Some 4%Z) db_five_public = ExplorePage 4 [] /\
  explore 2 (Some (2 ^ 63)%Z) db_five_public = PageAbort 500 /\
  explore 2 (Some (-4)%Z) db_five_public = explore 2 (Some 1%Z) db_five_public.
Proof.
  assert (Hsize : 0 < 2 <= 100) by lia. split; [exact Hsize|].
  destruct (explore_pages 2 db_five_public Hsize) as [Hpage [_ [Hend [Hbig [Hlow _]]]]].
  split; [exact (Hpage 0 ltac:(vm_compute; discriminate))|].
  split; [exact (Hpage 2 ltac:(vm_compute; discriminate))|].
  split; [apply (Hend 3); [vm_compute; discriminate | vm_compute; lia]|].
  split.
  - apply Hbig. vm_compute. reflexivity.
  - apply Hlow. lia.
Defined.

Lemma unauthenticated_writes_nothing_witness :
  is_authenticated AnonymousUser = false /\
  handle 8%Z (DeleteBlog 1) AnonymousUser sample_db = (Redirect "login", sample_db).
Proof.
  split; [reflexivity|].
  exact (proj1 (unauthenticated_writes_nothing 8%Z (DeleteBlog 1) AnonymousUser sample_db
                  eq_refl)).
Defined.

Lemma blog_writes_are_the_authors_witness :
  wf sample_db /\
  Blog_get sample_db 1 = Some p1 /\
  delete_blog 1 bob sample_db = (Redirect "view_blog", sample_db) /\
  Blog_get (snd (edit_blog 1 (Some ("P1b"%string, true)) alice sample_db)) 1
  = Some (Blog.mk 1 "P1b" true false 3%Z 1).
Proof.
  split; [exact sample_db_wf|]. split; [reflexivity|].
  destruct (blog_writes_are_the_authors 1 bob sample_db p1 sample_db_wf eq_refl)
    as [Hother _].
  destruct (blog_writes_are_the_authors 1 alice sample_db p1 sample_db_wf eq_refl)
    as [_ Hauthor].
  split.
  - apply Hother. discriminate.
  - exact (proj1 (Hauthor eq_refl "P1b"%string true)).
Defined.

Lemma follow_opens_unfollow_closes_witness :
  Blog_author sample_db p1 = Some alice /\
  Blog.is_public p1 = false /\
  is_authenticated (LoggedIn bob) = true /\
  User.id bob <> User.id alice /\
  can_view (unfollow bob alice sample_db) p1 (LoggedIn bob) = Some false.
Proof.
  assert (Hne : User.id bob <> User.id alice) by discriminate.
  split; [reflexivity|]. split; [reflexivity|]. split; [reflexivity|]. split; [exact Hne|].
  exact (proj2 (follow_opens_unfollow_closes 8%Z bob alice p1 sample_db
                  eq_refl eq_refl eq_refl Hne)).
Defined.

Lemma toggle_follow_reports_new_state_witness :
  wf sample_db /\
  In bob (DB.users sample_db) /\
  User_by_username sample_db "alice" = Some alice /\
  User_eqb alice bob = false /\
  is_following (snd (toggle_follow 8%Z "alice" bob sample_db)) bob alice = false.
Proof.
  assert (Hin : In bob (DB.users sample_db)) by (cbn; tauto).
  split; [exact sample_db_wf|]. split; [exact Hin|]. split; [reflexivity|].
  split; [reflexivity|].
  exact (proj1 (toggle_follow_reports_new_state 8%Z "alice" bob alice sample_db
                  sample_db_wf Hin eq_refl eq_refl)).
Defined.

Lemma reachable_usernames_unique_witness :
  reachable sample_db /\ User_by_username sample_db (User.username bob) = Some bob.
Proof.
  split; [exact sample_db_reachable|].
  apply (reachable_usernames_unique sample_db sample_db_reachable). cbn. tauto.
Defined.

Lemma reachable_views_do_not_fail_witness :
  reachable sample_db /\
  (Z.of_nat 1 <= max_int)%Z /\ (Z.of_nat 2 <= max_int)%Z /\
  view_blog 1 (LoggedIn bob) sample_db = RenderBlog p1 [c1] /\
  view_blog 1 AnonymousUser sample_db = Redirect "index" /\
  view_blog 2 (LoggedIn bob) sample_db = Abort 404 /\
  fst (delete_comment true 1 bob sample_db) <> Abort 500.
Proof.
  assert (H1 : (Z.of_nat 1 <= max_int)%Z) by (vm_compute; discriminate).
  assert (H2 : (Z.of_nat 2 <= max_int)%Z) by (vm_compute; discriminate).
  split; [exact sample_db_reachable|]. split; [exact H1|]. split; [exact H2|].
  destruct (reachable_views_do_not_fail sample_db sample_db_reachable)
    as [Hview [Hmiss Hdel]].
  split; [|split; [|split; [|exact (Hdel true 1 bob H1)]]].
  - destruct (Hview 1 (LoggedIn bob) p1 eq_refl) as [allowed [Hcan Hres]].
    vm_compute in Hcan. injection Hcan as <-. exact Hres.
  - destruct (Hview 1 AnonymousUser p1 eq_refl) as [allowed [Hcan Hres]].
    vm_compute in Hcan. injection Hcan as <-. exact Hres.
  - exact (Hmiss 2 (LoggedIn bob) H2 eq_refl).
Defined.

Lemma toggle_like_frame_witness :
  (Z.of_nat 9 <= max_int)%Z /\
  fst (toggle_like_blog 8%Z 9 alice sample_db) = Abort 404 /\
  snd (toggle_like_blog 8%Z 9 alice sample_db) = sample_db /\
  fst (toggle_like_comment 8%Z 9 alice sample_db) = Abort 404 /\
  DB.comment_likes (snd (toggle_like_blog 8%Z 1 alice sample_db))
  = DB.comment_likes sample_db /\
  DB.blog_likes (snd (toggle_like_comment 8%Z 1 alice sample_db))
  = DB.blog_likes sample_db.
Proof.
  assert (Hfit : (Z.of_nat 9 <= max_int)%Z) by (vm_compute; discriminate).
  split; [exact Hfit|].
  pose proof (toggle_like_frame 8%Z 9 alice sample_db) as [[Hb1 Hb2] [_ Hc2]].
  pose proof (toggle_like_frame 8%Z 1 alice sample_db) as [Hb Hc].
  cbv zeta in Hb, Hc.
  destruct Hb as [_ [_ [_ [_ [Hb _]]]]]. destruct Hc as [_ [_ [_ [_ [Hc _]]]]].
  split; [exact (Hb2 Hfit)|]. split; [exact Hb1|]. split; [exact (Hc2 Hfit)|].
  split; [exact Hb | exact Hc].
Defined.

Lemma delete_blog_leaves_unloaded_likes_witness :
  Blog_get db_dangling 1 = Some p1 /\
  author_is_not db_dangling p1 alice = false /\
  DB.blog_likes (snd (delete_blog 1 alice db_dangling)) = [BlogLikes.mk 99 1 8%Z] /\
  In (CommentLikes.mk 98 1 8%Z) (DB.comment_likes (snd (delete_blog 1 alice db_dangling))).
Proof.
  split; [reflexivity|]. split; [reflexivity|]. split; [reflexivity|].
  destruct (delete_blog_leaves_unloaded_likes 1 alice db_dangling p1 eq_refl eq_refl)
    as [_ Hc].
  apply Hc.
  - cbn. tauto.
  - cbn. intros [E|[E|[]]]; discriminate.
Defined.

Lemma add_then_delete_comment_witness :
  wf sample_db /\
  Blog_get sample_db 1 = Some p1 /\
  delete_comment true 2 bob (snd (add_comment 8%Z 1 (Some "second"%string) bob sample_db))
  = (Json 200 (SuccessBody "Comment deleted successfully"), sample_db).
Proof.
  split; [exact sample_db_wf|]. split; [reflexivity|].
  exact (proj2 (proj2 (add_then_delete_comment 8%Z 1 "second" bob sample_db p1
                         sample_db_wf eq_refl))).
Defined.

Lemma create_then_delete_blog_witness :
  wf sample_db /\
  In bob (DB.users sample_db) /\
  is_authenticated (LoggedIn bob) = true /\
  delete_blog 2 bob (snd (create_blog 8%Z (Some ("P2"%string, false)) bob sample_db))
  = (Redirect "profile", sample_db).
Proof.
  assert (Hin : In bob (DB.users sample_db)) by (cbn; tauto).
  split; [exact sample_db_wf|]. split; [exact Hin|]. split; [reflexivity|].
  exact (proj2 (proj2 (proj2 (create_then_delete_blog 8%Z "P2" false bob sample_db
                                sample_db_wf Hin eq_refl)))).
Defined.

Lemma delete_blog_removes_nothing_else_witness :
  wf sample_db /\
  Blog_get sample_db 1 = Some p1 /\
  author_is_not sample_db p1 alice = false /\
  DB.followers (snd (delete_blog 1 alice sample_db)) = DB.followers sample_db.
Proof.
  split; [exact sample_db_wf|]. split; [reflexivity|]. split; [reflexivity|].
  exact (proj1 (proj2 (delete_blog_removes_nothing_else 1 alice sample_db p1
                         sample_db_wf eq_refl eq_refl))).
Defined.

Lemma register_opens_empty_account_witness :
  wf sample_db /\
  is_authenticated AnonymousUser = false /\
  register (Some ("bob", "robert@example.org")%string) AnonymousUser sample_db
  = (Abort 500, sample_db) /\
  register (Some ("carol", "bob@example.org")%string) AnonymousUser sample_db
  = (Abort 500, sample_db) /\
  User_by_username
    (snd (register (Some ("carol", "carol@example.org")%string) AnonymousUser sample_db))
    "carol"
  = Some (User.mk 3 "carol" "carol@example.org" true).
Proof.
  split; [exact sample_db_wf|]. split; [reflexivity|].
  pose proof (register_opens_empty_account "bob" "robert@example.org" AnonymousUser sample_db
                sample_db_wf eq_refl) as Hbob.
  pose proof (register_opens_empty_account "carol" "bob@example.org" AnonymousUser sample_db
                sample_db_wf eq_refl) as Hmail.
  pose proof (register_opens_empty_account "carol" "carol@example.org" AnonymousUser sample_db
                sample_db_wf eq_refl) as Hcarol.
  cbn in Hbob, Hmail, Hcarol. split; [exact Hbob|]. split; [exact Hmail|].
  destruct Hcarol as [_ [_ [_ [Hname _]]]]. exact Hname.
Defined.

Lemma dashboard_is_own_profile_witness :
  usernames_unique sample_db /\
  In alice (DB.users sample_db) /\
  dashboard (LoggedIn alice) sample_db = DashboardPage [p1].
Proof.
  assert (Hu : usernames_unique sample_db)
    by (unfold usernames_unique; cbn; repeat constructor; cbn; intuition discriminate).
  assert (Hin : In alice (DB.users sample_db)) by (cbn; tauto).
  split; [exact Hu|]. split; [exact Hin|].
  exact (proj1 (proj1 (dashboard_is_own_profile alice sample_db Hu Hin) eq_refl)).
Defined.

Lemma toggle_follow_twice_restores_witness :
  NoDup (map Followers.pk (DB.followers sample_db)) /\
  is_following
    (snd (toggle_follow 9%Z "alice" bob (snd (toggle_follow 8%Z "alice" bob sample_db))))
    bob alice = true.
Proof.
  assert (Hpk : NoDup (map Followers.pk (DB.followers sample_db)))
    by (cbn; repeat constructor; cbn; tauto).
  split; [exact Hpk|].
  exact (proj1 (toggle_follow_twice_restores 8%Z 9%Z "alice" bob sample_db Hpk bob alice)).
Defined.
